(** * maggie-bot: flashloan arbitrage bot and its on-chain executor

    Part I is a shallow embedding of
    - [contracts/FlashloanExecutor.sol] (module [Executor]), run against
      arbitrary code of the pool and of the routers, re-entrant calls
      included;
    - the JavaScript built-ins the bot relies on (module [JS]) and viem's
      [formatUnits] (module [Viem]);
    - [bot/config.js] (module [Config]), the price monitor (module
      [PriceMonitor]: the pool reads and the comparison of the quotes), the
      opportunity detector (module [OpportunityDetector]) and the calldata
      encoder (module [CalldataEncoder]);
    together with the vocabulary of the statements and concrete inputs to
    run the definitions on.  Part II establishes the properties. *)

From Stdlib Require Import ZArith List Bool String Ascii Lia Floats.
From Stdlib Require Import Permutation DecimalString DecimalZ DecimalPos DecimalN.
Import ListNotations.

Set Implicit Arguments.
Set Warnings "-inexact-float".

(* ===================================================================== *)
(** * Part I.  Definitions: the on-chain executor                        *)
(* ===================================================================== *)

Module Executor.

Local Open Scope Z_scope.

(** ** Machine integers

    [address] is a 160-bit and [uint256] a 256-bit unsigned integer; both are
    carried as [Z].  Solidity 0.8 arithmetic is checked: an operation whose
    mathematical result leaves the range reverts with [Panic(0x11)]. *)

Definition address := Z.
Definition uint256 := Z.
Definition uint24 := Z.

Definition MAX_UINT256 : Z := 2 ^ 256 - 1.

Definition is_uint256 (x : Z) : Prop := 0 <= x <= MAX_UINT256.

(** ** Errors

    The custom errors of the contract, followed by the two ways the EVM itself
    aborts a call that the contract's code can reach: [Panic(code)] raised by
    compiler-inserted checks (0x11 arithmetic, 0x32 array index) and the
    data-less revert, [DecodeFailure], of the compiler's ABI checks: a failed
    [abi.decode], a call to an address that holds no code, return data that
    does not decode.  [ExternalRevert] stands for a revert raised by a plain
    ERC-20 ledger operation.

    [NotCaught] is no revert data.  It is the way a call into another
    contract ends when the failure is the call site's own and not the
    callee's: there is no code at the target (the call is not even made), or
    the callee returned data that does not decode as the declared return
    value.  The caller then reverts with empty data, and a [try] around the
    call does not catch it. *)

Inductive Error : Type :=
| Unauthorized
| Paused
| ReentrancyGuard
| InvalidVault
| InvalidCallbackCaller
| InsufficientProfit (profit required : uint256)
| SwapFailed (index : Z)
| ZeroBorrowAmount
| EmptySwaps
| Panic (code : Z)
| DecodeFailure
| ExternalRevert
| NotCaught.

Definition PANIC_ARITHMETIC : Z := 17.   (* 0x11 *)
Definition PANIC_INDEX : Z := 50.        (* 0x32 *)

Inductive result (A : Type) : Type :=
| Ok (a : A)
| Err (e : Error).

Arguments Ok {A} a.
Arguments Err {A} e.

Definition bind {A B} (r : result A) (k : A -> result B) : result B :=
  match r with
  | Ok a => k a
  | Err e => Err e
  end.

Notation "x <- r ;; k" := (bind r (fun x => k))
  (at level 61, r at next level, right associativity).

Definition checked_add (a b : uint256) : result uint256 :=
  if a + b <=? MAX_UINT256 then Ok (a + b) else Err (Panic PANIC_ARITHMETIC).

Definition checked_sub (a b : uint256) : result uint256 :=
  if b <=? a then Ok (a - b) else Err (Panic PANIC_ARITHMETIC).

(** ** Structs *)

Record SwapInstruction : Type := {
  router : address;
  tokenIn : address;
  tokenOut : address;
  fee : uint24;
  amountIn : uint256;
  minAmountOut : uint256
}.

Record ArbitrageParams : Type := {
  flashloanProvider : address;
  borrowToken : address;
  borrowAmount : uint256;
  minProfit : uint256;
  swaps : list SwapInstruction
}.

Record CallbackData : Type := {
  cb_borrowToken : address;
  cb_borrowAmount : uint256;
  cb_minProfit : uint256;
  cb_swaps : list SwapInstruction
}.

Record ExactInputSingleParams : Type := {
  p_tokenIn : address;
  p_tokenOut : address;
  p_fee : uint24;
  p_recipient : address;
  p_amountIn : uint256;
  p_amountOutMinimum : uint256;
  p_sqrtPriceLimitX96 : Z
}.

(** A [bytes] payload is kept up to what [abi.decode(_, (CallbackData))]
    makes of it: either it is the encoding of a [CallbackData], or the
    decoder rejects it. *)

Inductive bytes : Type :=
| abi_encode (d : CallbackData)
| malformed (raw : list Z).

Definition abi_decode (b : bytes) : result CallbackData :=
  match b with
  | abi_encode d => Ok d
  | malformed _ => Err DecodeFailure
  end.

(** ** Events.  Gas metering is outside the model, so [ArbitrageExecuted]
    carries no [gasUsed]. *)

Inductive Event : Type :=
| ArbitrageExecuted (token : address) (amount profit : uint256)
| OwnershipTransferred (previousOwner newOwner : address)
| VaultUpdated (previousVault newVault : address)
| PauseToggled (nowPaused : bool)
| MinProfitUpdated (oldMinProfitBps newMinProfitBps : uint256)
| EmergencyWithdraw (token : address) (amount : uint256).

(** ** Storage *)

Definition NOT_ENTERED : uint256 := 1.
Definition ENTERED : uint256 := 2.

Record ExecutorState : Type := {
  owner : address;
  vault : address;
  paused : bool;
  _status : uint256;
  minProfitBps : uint256
}.

(** ** The rest of the chain

    ERC-20 tokens are plain ledgers; [getPool] is the Uniswap V3 factory's
    pool registry. *)

Record World : Type := {
  balanceOf : address -> address -> uint256;              (* token, holder *)
  allowance : address -> address -> address -> uint256;   (* token, owner, spender *)
  getPool : address -> address -> uint24 -> address
}.

Record Machine : Type := {
  st : ExecutorState;
  world : World;
  log : list Event
}.

Definition set_st (m : Machine) (s : ExecutorState) : Machine :=
  {| st := s; world := world m; log := log m |}.

Definition set_world (m : Machine) (w : World) : Machine :=
  {| st := st m; world := w; log := log m |}.

Definition emit (e : Event) (m : Machine) : Machine :=
  {| st := st m; world := world m; log := log m ++ [e] |}.

Definition set_status (v : uint256) (m : Machine) : Machine :=
  set_st m {| owner := owner (st m); vault := vault (st m); paused := paused (st m);
              _status := v; minProfitBps := minProfitBps (st m) |}.

Definition set_owner (v : address) (m : Machine) : Machine :=
  set_st m {| owner := v; vault := vault (st m); paused := paused (st m);
              _status := _status (st m); minProfitBps := minProfitBps (st m) |}.

Definition set_vault (v : address) (m : Machine) : Machine :=
  set_st m {| owner := owner (st m); vault := v; paused := paused (st m);
              _status := _status (st m); minProfitBps := minProfitBps (st m) |}.

Definition set_paused (v : bool) (m : Machine) : Machine :=
  set_st m {| owner := owner (st m); vault := vault (st m); paused := v;
              _status := _status (st m); minProfitBps := minProfitBps (st m) |}.

Definition set_minProfitBps (v : uint256) (m : Machine) : Machine :=
  set_st m {| owner := owner (st m); vault := vault (st m); paused := paused (st m);
              _status := _status (st m); minProfitBps := v |}.

(** *** ERC-20 ledger operations, as seen from a caller [from] *)

Definition upd1 (f : address -> uint256) (k : address) (v : uint256) : address -> uint256 :=
  fun x => if x =? k then v else f x.

Definition move (bal : address -> uint256) (from to : address) (amount : uint256)
  : address -> uint256 :=
  let bal' := upd1 bal from (bal from - amount) in
  upd1 bal' to (bal' to + amount).

Definition erc20_transfer (token from to : address) (amount : uint256) (w : World)
  : result World :=
  if balanceOf w token from <? amount then Err ExternalRevert
  else Ok {| balanceOf := fun t => if t =? token
                                   then move (balanceOf w t) from to amount
                                   else balanceOf w t;
             allowance := allowance w;
             getPool := getPool w |}.

Definition erc20_approve (token holder spender : address) (amount : uint256) (w : World)
  : World :=
  {| balanceOf := balanceOf w;
     allowance := fun t o s => if (t =? token) && (o =? holder) && (s =? spender)
                               then amount else allowance w t o s;
     getPool := getPool w |}.

Definition transfer (token from to : address) (amount : uint256) (m : Machine)
  : result Machine :=
  w <- erc20_transfer token from to amount (world m) ;; Ok (set_world m w).

Definition approve (token holder spender : address) (amount : uint256) (m : Machine)
  : Machine :=
  set_world m (erc20_approve token holder spender amount (world m)).

(** ** The contract

    [this] is [address(this)], [aavePool] the immutable resolved by the
    constructor.  A call into another contract that may run arbitrary code
    (the pool's [flashLoanSimple], a router's [exactInputSingle]) is a
    parameter of the function that makes it: a transformer of the machine
    that either returns or fails, with the callee's revert data or, where
    the call site's own checks fail, with [NotCaught]. *)

Section Contract.

Variable this : address.
Variable aavePool : address.

Definition external_call : Type := Machine -> result Machine.

(** [IPool.flashLoanSimple(receiverAddress, asset, amount, params, referralCode)] *)

Definition pool_call : Type :=
  address -> address -> uint256 -> bytes -> Z -> external_call.

(** [ISwapRouter.exactInputSingle(params)] on a given router; the leading
    [nat] is the index of the loop iteration that makes the call. *)

Definition router_call : Type :=
  nat -> address -> ExactInputSingleParams -> external_call.

(** A high-level call outside any [try]: the callee's revert is passed
    on, and a failure of the call site's own checks is the caller's
    data-less revert. *)

Definition high_level_call (r : result Machine) : result Machine :=
  match r with
  | Err NotCaught => Err DecodeFailure
  | _ => r
  end.

(** [try target.f(...) returns (...) {} catch { revert SwapFailed(i); }]:
    what the failure [e] of the call turns into.  The [catch] clause takes
    every revert of the callee; the call site's own checks are outside
    it. *)

Definition try_catch (i : nat) (e : Error) : Error :=
  match e with
  | NotCaught => DecodeFailure
  | _ => SwapFailed (Z.of_nat i)
  end.

(** *** Modifiers *)

Definition onlyOwner (sender : address) (m : Machine)
  (body : Machine -> result Machine) : result Machine :=
  if sender =? owner (st m) then body m else Err Unauthorized.

Definition whenNotPaused (m : Machine)
  (body : Machine -> result Machine) : result Machine :=
  if paused (st m) then Err Paused else body m.

Definition nonReentrant (m : Machine)
  (body : Machine -> result Machine) : result Machine :=
  if _status (st m) =? ENTERED then Err ReentrancyGuard
  else
    m' <- body (set_status ENTERED m) ;;
    Ok (set_status NOT_ENTERED m').

(** *** constructor *)

Definition constructor (sender _vault : address) (_minProfitBps : uint256)
  : result ExecutorState :=
  if _vault =? 0 then Err InvalidVault
  else Ok {| owner := sender; vault := _vault; paused := false;
             _status := NOT_ENTERED; minProfitBps := _minProfitBps |}.

(** *** _executeSwaps: the loop from index [i] on *)

Fixpoint _executeSwaps_from (exactInputSingle : router_call)
  (i : nat) (swaps : list SwapInstruction) (m : Machine) : result Machine :=
  match swaps with
  | [] => Ok m
  | swap :: rest =>
      let amountIn :=
        if amountIn swap =? 0 then balanceOf (world m) (tokenIn swap) this
        else amountIn swap in
      let m1 := approve (tokenIn swap) this (router swap) amountIn m in
      match exactInputSingle i (router swap)
              {| p_tokenIn := tokenIn swap;
                 p_tokenOut := tokenOut swap;
                 p_fee := fee swap;
                 p_recipient := this;
                 p_amountIn := amountIn;
                 p_amountOutMinimum := minAmountOut swap;
                 p_sqrtPriceLimitX96 := 0 |} m1 with
      | Ok m2 => _executeSwaps_from exactInputSingle (S i) rest m2
      | Err e => Err (try_catch i e)
      end
  end.

Definition _executeSwaps (exactInputSingle : router_call)
  (swaps : list SwapInstruction) (m : Machine) : result Machine :=
  _executeSwaps_from exactInputSingle 0 swaps m.

(** *** The profit check shared by both callbacks (lines 223-229, 262-268):
    returns [amountOwed]. *)

Definition verifyProfit (borrowed premium minProfit balance : uint256)
  : result uint256 :=
  amountOwed <- checked_add borrowed premium ;;
  required <- checked_add amountOwed minProfit ;;
  if balance <? required then
    profit <- checked_sub balance amountOwed ;;
    Err (InsufficientProfit profit minProfit)
  else Ok amountOwed.

(** *** executeWithAave *)

(** The payload [executeWithAave] hands to the pool. *)

Definition callbackData (params : ArbitrageParams) : bytes :=
  abi_encode {| cb_borrowToken := borrowToken params;
                cb_borrowAmount := borrowAmount params;
                cb_minProfit := minProfit params;
                cb_swaps := swaps params |}.

Definition executeWithAave (flashLoanSimple : pool_call)
  (params : ArbitrageParams) (sender : address) (m : Machine) : result Machine :=
  onlyOwner sender m (fun m =>
  whenNotPaused m (fun m =>
  nonReentrant m (fun m =>
    if borrowAmount params =? 0 then Err ZeroBorrowAmount
    else if (List.length (swaps params) =? 0)%nat then Err EmptySwaps
    else
      let balanceBefore := balanceOf (world m) (borrowToken params) this in
      m1 <- high_level_call
              (flashLoanSimple this (borrowToken params) (borrowAmount params)
                               (callbackData params) 0 m) ;;
      let balanceAfter := balanceOf (world m1) (borrowToken params) this in
      profit <- checked_sub balanceAfter balanceBefore ;;
      m2 <- (if 0 <? profit
             then transfer (borrowToken params) this (vault (st m1)) profit m1
             else Ok m1) ;;
      Ok (emit (ArbitrageExecuted (borrowToken params) (borrowAmount params) profit) m2)))).

(** *** executeOperation *)

Definition executeOperation (exactInputSingle : router_call)
  (asset : address) (amount premium : uint256) (initiator : address)
  (params : bytes) (sender : address) (m : Machine) : result Machine :=
  if negb (sender =? aavePool) then Err InvalidCallbackCaller
  else if negb (initiator =? this) then Err Unauthorized
  else
    data <- abi_decode params ;;
    m1 <- _executeSwaps exactInputSingle (cb_swaps data) m ;;
    let balance := balanceOf (world m1) asset this in
    amountOwed <- verifyProfit amount premium (cb_minProfit data) balance ;;
    Ok (approve asset this aavePool amountOwed m1).

(** *** uniswapV3FlashCallback *)

Definition uniswapV3FlashCallback (exactInputSingle : router_call)
  (fee0 fee1 : uint256) (data : bytes) (sender : address) (m : Machine)
  : result Machine :=
  callbackData <- abi_decode data ;;
  match cb_swaps callbackData with
  | [] => Err (Panic PANIC_INDEX)
  | swap0 :: _ =>
      let expectedPool :=
        getPool (world m) (tokenIn swap0) (tokenOut swap0) (fee swap0) in
      if negb (sender =? expectedPool) then Err InvalidCallbackCaller
      else
        m1 <- _executeSwaps exactInputSingle (cb_swaps callbackData) m ;;
        let fee := if 0 <? fee0 then fee0 else fee1 in
        let balance := balanceOf (world m1) (cb_borrowToken callbackData) this in
        amountOwed <- verifyProfit (cb_borrowAmount callbackData) fee
                                   (cb_minProfit callbackData) balance ;;
        transfer (cb_borrowToken callbackData) this sender amountOwed m1
  end.

(** *** Administrative functions *)

Definition transferOwnership (newOwner : address) (sender : address) (m : Machine)
  : result Machine :=
  onlyOwner sender m (fun m =>
    if newOwner =? 0 then Err Unauthorized
    else Ok (set_owner newOwner (emit (OwnershipTransferred (owner (st m)) newOwner) m))).

Definition setVault (newVault : address) (sender : address) (m : Machine)
  : result Machine :=
  onlyOwner sender m (fun m =>
    if newVault =? 0 then Err InvalidVault
    else Ok (set_vault newVault (emit (VaultUpdated (vault (st m)) newVault) m))).

Definition togglePause (sender : address) (m : Machine) : result Machine :=
  onlyOwner sender m (fun m =>
    let m1 := set_paused (negb (paused (st m))) m in
    Ok (emit (PauseToggled (paused (st m1))) m1)).

Definition setMinProfit (newMinProfitBps : uint256) (sender : address) (m : Machine)
  : result Machine :=
  onlyOwner sender m (fun m =>
    Ok (set_minProfitBps newMinProfitBps
          (emit (MinProfitUpdated (minProfitBps (st m)) newMinProfitBps) m))).

Definition emergencyWithdraw (token : address) (sender : address) (m : Machine)
  : result Machine :=
  onlyOwner sender m (fun m =>
    let balance := balanceOf (world m) token this in
    if 0 <? balance then
      m1 <- transfer token this (vault (st m)) balance m ;;
      Ok (emit (EmergencyWithdraw token balance) m1)
    else Ok m).

(** ** Calls and the code of other contracts

    A [Call] is one message to the executor together with the behaviour of
    the foreign code it will run into; an [Ext] is such a behaviour: foreign
    code returns, reverts with data of its choosing, changes the ledgers
    after looking at them, or calls back into the executor as some sender
    and goes on according to the outcome.  [Revert NotCaught] is the
    behaviour of an address that holds no code, and of code whose return
    data the call site cannot decode.  Foreign code sees the ledgers and
    the outcome of its calls; it does not read the executor's storage. *)

Inductive Call : Type :=
| Call_executeWithAave (params : ArbitrageParams) (pool : Ext)
| Call_executeOperation (asset : address) (amount premium : uint256)
    (initiator : address) (params : bytes) (routers : nat -> Ext)
| Call_uniswapV3FlashCallback (fee0 fee1 : uint256) (data : bytes) (routers : nat -> Ext)
| Call_transferOwnership (newOwner : address)
| Call_setVault (newVault : address)
| Call_togglePause
| Call_setMinProfit (newMinProfitBps : uint256)
| Call_emergencyWithdraw (token : address)
with Ext : Type :=
| Return
| Revert (e : Error)
| Act (f : World -> World) (k : World -> Ext)
| CallIn (sender : address) (c : Call) (k : option Error -> Ext).

(** Induction on calls and behaviours together. *)

Scheme Call_Ext_ind := Induction for Call Sort Prop
  with Ext_Call_ind := Induction for Ext Sort Prop.

Combined Scheme Call_Ext_mutind from Call_Ext_ind, Ext_Call_ind.

Fixpoint exec (c : Call) (sender : address) (m : Machine) {struct c} : result Machine :=
  match c with
  | Call_executeWithAave params pool =>
      executeWithAave (fun _ _ _ _ _ => run pool) params sender m
  | Call_executeOperation asset amount premium initiator params routers =>
      executeOperation (fun i _ _ => run (routers i))
        asset amount premium initiator params sender m
  | Call_uniswapV3FlashCallback fee0 fee1 data routers =>
      uniswapV3FlashCallback (fun i _ _ => run (routers i)) fee0 fee1 data sender m
  | Call_transferOwnership newOwner => transferOwnership newOwner sender m
  | Call_setVault newVault => setVault newVault sender m
  | Call_togglePause => togglePause sender m
  | Call_setMinProfit newMinProfitBps => setMinProfit newMinProfitBps sender m
  | Call_emergencyWithdraw token => emergencyWithdraw token sender m
  end
with run (e : Ext) (m : Machine) {struct e} : result Machine :=
  match e with
  | Return => Ok m
  | Revert err => Err err
  | Act f k => run (k (world m)) (set_world m (f (world m)))
  | CallIn sender c k =>
      match exec c sender m with
      | Ok m' => run (k None) m'
      | Err err => run (k (Some err)) m
      end
  end.

(** A top-level transaction: a revert leaves the machine as it was. *)

Definition transact (c : Call) (sender : address) (m : Machine) : Machine :=
  match exec c sender m with
  | Ok m' => m'
  | Err _ => m
  end.

End Contract.

End Executor.

(* ===================================================================== *)
(** * Part I (continued).  Definitions: the off-chain bot                *)
(* ===================================================================== *)

(** ** The language runtime

    A JavaScript number is an IEEE 754 binary64 value: Rocq's primitive
    [float], whose operations are those of the standard.  A [bigint] is a
    [Z].  A string is the sequence of its code units, all below 256 here.
    The conversions between numbers, bigints and strings that the bot uses
    are written out below after ECMA-262. *)

Module JS.

Local Open Scope string_scope.
Local Open Scope Z_scope.

Definition number := float.

(** *** Characters and digits *)

Definition is_digit (c : ascii) : bool :=
  let n := nat_of_ascii c in (48 <=? n)%nat && (n <=? 57)%nat.

Definition digit_value (c : ascii) : Z := Z.of_nat (nat_of_ascii c) - 48.

(** [StrWhiteSpaceChar]: of the white space and line terminators of
    ECMA-262, those below 256 are TAB, LF, VT, FF, CR, SP and NBSP. *)

Definition is_space (c : ascii) : bool :=
  let n := nat_of_ascii c in
  (n =? 32)%nat || ((9 <=? n)%nat && (n <=? 13)%nat) || (n =? 160)%nat.

(** The value of a run of digits read after the value [acc]. *)

Fixpoint digits_value (acc : Z) (s : string) : Z :=
  match s with
  | EmptyString => acc
  | String c r => digits_value (10 * acc + digit_value c) r
  end.

(** Splits off the longest prefix of digits. *)

Fixpoint span_digits (s : string) : string * string :=
  match s with
  | String c r =>
      if is_digit c then let (d, t) := span_digits r in (String c d, t)
      else (EmptyString, s)
  | EmptyString => (EmptyString, EmptyString)
  end.

Fixpoint skip_spaces (s : string) : string :=
  match s with
  | String c r => if is_space c then skip_spaces r else s
  | EmptyString => EmptyString
  end.

Fixpoint trim_end (s : string) : string :=
  match s with
  | EmptyString => EmptyString
  | String c r =>
      match trim_end r with
      | EmptyString => if is_space c then EmptyString else String c EmptyString
      | r' => String c r'
      end
  end.

(** White space stripped at both ends. *)

Definition trim (s : string) : string := trim_end (skip_spaces s).

(** The value of [c] as a digit of the given radix. *)

Definition digit_in (radix : Z) (c : ascii) : option Z :=
  let n := Z.of_nat (nat_of_ascii c) in
  let v :=
    if (48 <=? n) && (n <=? 57) then n - 48
    else if (97 <=? n) && (n <=? 102) then n - 87
    else if (65 <=? n) && (n <=? 70) then n - 55
    else -1 in
  if (0 <=? v) && (v <? radix) then Some v else None.

Fixpoint radix_value (radix acc : Z) (s : string) : option Z :=
  match s with
  | EmptyString => Some acc
  | String c r =>
      match digit_in radix c with
      | Some d => radix_value radix (radix * acc + d) r
      | None => None
      end
  end.

(** The radix announced by the second character of [0x], [0o], [0b]. *)

Definition radix_of (c : ascii) : option Z :=
  if Ascii.eqb c "x" || Ascii.eqb c "X" then Some 16
  else if Ascii.eqb c "o" || Ascii.eqb c "O" then Some 8
  else if Ascii.eqb c "b" || Ascii.eqb c "B" then Some 2
  else None.

(** [NonDecimalIntegerLiteral]: [None] where [s] does not start with a radix
    prefix, otherwise the value of the digits, of which there has to be one
    at least. *)

Definition NonDecimalIntegerLiteral (s : string) : option (option Z) :=
  match s with
  | String c0 (String c1 r) =>
      if Ascii.eqb c0 "0" then
        match radix_of c1 with
        | Some radix =>
            Some (match r with
                  | EmptyString => None
                  | _ => radix_value radix 0 r
                  end)
        | None => None
        end
      else None
  | _ => None
  end.

Fixpoint repeat_char (c : ascii) (n : nat) : string :=
  match n with
  | O => EmptyString
  | S n' => String c (repeat_char c n')
  end.

(** Decimal digits of a non-negative integer. *)

Definition digits_of (n : Z) : string := NilZero.string_of_uint (N.to_uint (Z.to_N n)).

(** *** bigint *)

(** [x.toString()] for a bigint [x]. *)

Definition BigInt_toString (z : Z) : string := NilZero.string_of_int (Z.to_int z).

(** [BigInt(s)] for a string [s], after [StringToBigInt]: white space
    aside, an optionally signed run of decimal digits, or an unsigned run of
    hexadecimal, octal or binary digits after [0x], [0o] or [0b]; nothing
    but white space is zero; anything else is a [SyntaxError] ([None]). *)

Definition BigInt (s : string) : option Z :=
  match trim s with
  | EmptyString => Some 0
  | String c r =>
      match NonDecimalIntegerLiteral (String c r) with
      | Some value => value
      | None =>
          if Ascii.eqb c "+" then option_map Z.of_uint (NilZero.uint_of_string r)
          else option_map Z.of_int (NilZero.int_of_string (String c r))
      end
  end.

(** *** Numbers from exact values, correctly rounded (to nearest, ties to
    even) *)

(** [Number(z)] for a bigint [z]. *)

Definition Number_of_BigInt (z : Z) : number :=
  SF2Prim (binary_normalize prec emax z 0 false).

(** The number nearest to [(-1)^neg * m * 10^e10], for [m >= 0]. *)

Definition Number_of_decimal (neg : bool) (m e10 : Z) : number :=
  if m =? 0 then (if neg then (-0)%float else 0%float)
  else if 0 <=? e10 then Number_of_BigInt ((if neg then - m else m) * 10 ^ e10)
  else SF2Prim (SFdiv prec emax (S754_finite neg (Z.to_pos m) 0)
                                (S754_finite false (Z.to_pos (10 ^ (- e10))) 0)).

(** [BigInt(x)] for a number [x]: a [RangeError] ([None]) unless [x] is an
    integer. *)

Definition BigInt_of_number (x : number) : option Z :=
  match Prim2SF x with
  | S754_zero _ => Some 0
  | S754_finite s m e =>
      let v := if s then Z.neg m else Z.pos m in
      if 0 <=? e then Some (v * 2 ^ e)
      else if Z.pos m mod 2 ^ (- e) =? 0 then Some (v / 2 ^ (- e))
      else None
  | _ => None
  end.

(** *** Math *)

Definition Math_abs (x : number) : number := abs x.

Definition is_nan (x : number) : bool := negb (PrimFloat.eqb x x).

Definition is_neg_zero (x : number) : bool :=
  match Prim2SF x with S754_zero true => true | _ => false end.

(** [Math.max(a, b)] *)

Definition Math_max (a b : number) : number :=
  if is_nan a || is_nan b then nan
  else if PrimFloat.ltb a b then b
  else if PrimFloat.ltb b a then a
  else if is_neg_zero a then b else a.

(** [Math.floor(x)] *)

Definition Math_floor (x : number) : number :=
  match Prim2SF x with
  | S754_finite s m e =>
      if 0 <=? e then x
      else Number_of_BigInt (Z.shiftr (if s then Z.neg m else Z.pos m) (- e))
  | _ => x
  end.

(** *** Truthiness and [||] *)

Definition truthy_number (x : number) : bool :=
  negb (is_nan x) && negb (PrimFloat.eqb x 0).

Definition or_number (x : option number) (d : number) : number :=
  match x with
  | Some v => if truthy_number v then v else d
  | None => d
  end.

Definition or_string (x : option string) (d : string) : string :=
  match x with
  | Some EmptyString | None => d
  | Some v => v
  end.

(** *** [Number.prototype.toString] (radix 10) *)

(** The least [e' >= e] with [num / den < 10^e']. *)

Fixpoint exp10_up (fuel : nat) (num den e : Z) : Z :=
  match fuel with
  | O => e
  | S f => if num <? den * 10 ^ e then e else exp10_up f num den (e + 1)
  end.

(** The greatest [e' <= e] with [10^(e'-1) <= num / den]. *)

Fixpoint exp10_down (fuel : nat) (num den e : Z) : Z :=
  match fuel with
  | O => e
  | S f => if den <=? num * 10 ^ (1 - e) then e else exp10_down f num den (e - 1)
  end.

(** [e] such that [10^(e-1) <= num / den < 10^e], for a positive fraction. *)

Definition decimal_exponent (num den : Z) : Z :=
  if den <=? num then exp10_up 400 num den 1
  else exp10_down 400 num den 0.

(** [floor (num / den / 10^s)] *)

Definition scaled_floor (num den s : Z) : Z :=
  if 0 <=? s then num / (den * 10 ^ s) else (num * 10 ^ (- s)) / den.

(** The shortest digits [n] (with [k] of them) and exponent [e] such that
    [n * 10^(e-k)] reads back as [x]; among several [n], the one nearest to
    [x], the even one on a tie. *)

Fixpoint shortest_from (fuel : nat) (x : number) (num den e k : Z) : Z * Z * Z :=
  let s := e - k in
  let lo := scaled_floor num den s in
  let hi := lo + 1 in
  let ok n := PrimFloat.eqb (Number_of_decimal false n s) x in
  (* distances to the exact value, scaled by [den * 10^max(s,0)] and [10^max(-s,0)] *)
  let up := if 0 <=? s then den * 10 ^ s else den in
  let sc := if 0 <=? s then 1 else 10 ^ (- s) in
  let dlo := num * sc - lo * up in
  let dhi := hi * up - num * sc in
  let pick n := if n =? 10 ^ k then (1, 1, e + 1) else (n, k, e) in
  match fuel with
  | O => (lo, k, e)
  | S f =>
      if ok lo && ok hi then
        if dlo <? dhi then pick lo
        else if dhi <? dlo then pick hi
        else if Z.even lo then pick lo else pick hi
      else if ok lo then pick lo
      else if ok hi then pick hi
      else shortest_from f x num den e (k + 1)
  end.

Definition shortest_digits (x : number) (m : positive) (e : Z) : Z * Z * Z :=
  let num := if 0 <=? e then Z.pos m * 2 ^ e else Z.pos m in
  let den := if 0 <=? e then 1 else 2 ^ (- e) in
  shortest_from 17 x num den (decimal_exponent num den) 1.

Definition format_digits (n k e : Z) : string :=
  let ds := digits_of n in
  if (k <=? e) && (e <=? 21) then
    ds ++ repeat_char "0" (Z.to_nat (e - k))
  else if (0 <? e) && (e <=? 21) then
    substring 0 (Z.to_nat e) ds ++ "." ++ substring (Z.to_nat e) (Z.to_nat (k - e)) ds
  else if (-6 <? e) && (e <=? 0) then
    "0." ++ repeat_char "0" (Z.to_nat (- e)) ++ ds
  else
    let ex := (if 0 <=? e - 1 then "+" else "-") ++ digits_of (Z.abs (e - 1)) in
    if k =? 1 then ds ++ "e" ++ ex
    else substring 0 1 ds ++ "." ++ substring 1 (Z.to_nat (k - 1)) ds ++ "e" ++ ex.

Definition Number_toString (x : number) : string :=
  match Prim2SF x with
  | S754_nan => "NaN"
  | S754_zero _ => "0"
  | S754_infinity s => if s then "-Infinity" else "Infinity"
  | S754_finite s m e =>
      let '(n, k, e10) := shortest_digits (abs x) m e in
      (if s then "-" else "") ++ format_digits n k e10
  end.

(** *** [Number.prototype.toFixed(f)] *)

Definition toFixed (x : number) (f : nat) : string :=
  match Prim2SF x with
  | S754_nan => "NaN"
  | S754_infinity _ => Number_toString x
  | S754_zero _ => if (f =? 0)%nat then "0" else "0." ++ repeat_char "0" f
  | S754_finite s m e =>
      if PrimFloat.leb 1e21 (abs x) then Number_toString x
      else
        (* n / 10^f nearest to |x|, the larger n on a tie *)
        let p := 10 ^ Z.of_nat f in
        let n := if 0 <=? e then Z.pos m * 2 ^ e * p
                 else (2 * Z.pos m * p + 2 ^ (- e)) / 2 ^ (- e + 1) in
        let ds := digits_of n in
        let ds := if (String.length ds <=? f)%nat
                  then repeat_char "0" (f + 1 - String.length ds) ++ ds else ds in
        let k := String.length ds in
        (if s then "-" else "") ++
        (if (f =? 0)%nat then ds
         else substring 0 (k - f) ds ++ "." ++ substring (k - f) f ds)
  end.

(** *** [parseFloat(s)] and [Number(s)] *)

Definition starts_with (p s : string) : bool := String.eqb (substring 0 (String.length p) s) p.

Definition drop (n : nat) (s : string) : string := substring n (String.length s - n) s.

(** Reads the longest [StrDecimalLiteral] at the head of [s]; returns the
    number and what is left of the string, or [None] when there is none. *)

Definition read_decimal (s : string) : option (number * string) :=
  let '(neg, s1) :=
    match s with
    | String c r => if Ascii.eqb c "-" then (true, r)
                    else if Ascii.eqb c "+" then (false, r) else (false, s)
    | EmptyString => (false, s)
    end in
  if starts_with "Infinity" s1
  then Some (if neg then neg_infinity else infinity, drop 8 s1)
  else
    let '(int, s2) := span_digits s1 in
    let '(frac, s3) :=
      match s2 with
      | String c r => if Ascii.eqb c "." then span_digits r else (EmptyString, s2)
      | EmptyString => (EmptyString, s2)
      end in
    match int, frac with
    | EmptyString, EmptyString => None
    | _, _ =>
        let '(ex, s4) :=
          match s3 with
          | String c r =>
              if Ascii.eqb c "e" || Ascii.eqb c "E" then
                let '(eneg, r1) :=
                  match r with
                  | String c' r' => if Ascii.eqb c' "-" then (true, r')
                                    else if Ascii.eqb c' "+" then (false, r') else (false, r)
                  | EmptyString => (false, r)
                  end in
                let '(ed, r2) := span_digits r1 in
                match ed with
                | EmptyString => (0, s3)
                | _ => (if eneg then - digits_value 0 ed else digits_value 0 ed, r2)
                end
              else (0, s3)
          | EmptyString => (0, s3)
          end in
        Some (Number_of_decimal neg (digits_value 0 (int ++ frac))
                                (ex - Z.of_nat (String.length frac)), s4)
    end.

Definition parseFloat (s : string) : number :=
  match read_decimal (skip_spaces s) with
  | Some (x, _) => x
  | None => nan
  end.

(** [Number(s)], after [StringToNumber]: the whole string, white space
    aside, has to be a decimal literal or an unsigned integer after [0x],
    [0o] or [0b]; nothing but white space is zero. *)

Definition Number_of_string (s : string) : number :=
  match trim s with
  | EmptyString => 0%float
  | s' =>
      match NonDecimalIntegerLiteral s' with
      | Some (Some value) => Number_of_BigInt value
      | Some None => nan
      | None =>
          match read_decimal s' with
          | Some (x, EmptyString) => x
          | _ => nan
          end
      end
  end.

(** *** [Array.prototype.sort(comparefn)]

    An insertion sort that places each element in turn before the first
    element of the sorted part that [comparefn] puts after it: for a
    consistent [comparefn] this is the outcome of every stable sort. *)

Section Sort.

Variable A : Type.
Variable comparefn : A -> A -> number.

Fixpoint insert (x : A) (sorted : list A) : list A :=
  match sorted with
  | [] => [x]
  | y :: ys => if PrimFloat.ltb (comparefn x y) 0 then x :: y :: ys
               else y :: insert x ys
  end.

Definition sort (l : list A) : list A :=
  fold_left (fun acc x => insert x acc) l [].

End Sort.

End JS.

(** ** viem's [formatUnits(value, decimals)] *)

Module Viem.

Import JS.
Local Open Scope string_scope.

Fixpoint strip_trailing_zeros_rev (s : list ascii) : list ascii :=
  match s with
  | c :: r => if Ascii.eqb c "0" then strip_trailing_zeros_rev r else s
  | [] => []
  end.

Definition strip_trailing_zeros (s : string) : string :=
  string_of_list_ascii (rev (strip_trailing_zeros_rev (rev (list_ascii_of_string s)))).

Definition padStart (s : string) (n : nat) (c : ascii) : string :=
  repeat_char c (n - String.length s) ++ s.

Definition formatUnits (value : Z) (decimals : nat) : string :=
  let display := BigInt_toString value in
  let negative := starts_with "-" display in
  let display := if negative then drop 1 display else display in
  let display := padStart display decimals "0" in
  let integer := substring 0 (String.length display - decimals) display in
  let fraction := strip_trailing_zeros (drop (String.length display - decimals) display) in
  (if negative then "-" else "") ++
  (match integer with EmptyString => "0" | _ => integer end) ++
  (match fraction with EmptyString => "" | _ => "." ++ fraction end).

End Viem.

(** ** bot/config.js *)

Module Config.

Local Open Scope string_scope.

Definition UNISWAP_V3_ROUTER : string := "0x2626664c2603336E57B271c5C0b26F421741e481".
Definition UNISWAP_V3_FACTORY : string := "0x33128a8fC17869897dcE68Ed026d694621f6FDfD".
Definition SUSHI_V3_FACTORY : string := "0xc35DADB65012eC5796536bD9864eD8773aBc74C4".

Definition WETH : string := "0x4200000000000000000000000000000000000006".
Definition USDC : string := "0x833589fCD6eDb6E08f4c7C32D4f71b54bdA02913".
Definition USDT : string := "0xfde4C96c8593536E31F229EA8f37b2ADa2699bb2".
Definition DAI : string := "0x50c5725949A6F0c72E6C4a641F24049A917DB0Cb".

(** [DECIMALS[token]], [None] for a key the table does not have. *)

Definition DECIMALS (token : string) : option nat :=
  if String.eqb token WETH then Some 18%nat
  else if String.eqb token USDC then Some 6%nat
  else if String.eqb token USDT then Some 6%nat
  else if String.eqb token DAI then Some 18%nat
  else None.

(** [SAFETY], with no overriding environment variable set. *)

Record Safety : Type := {
  MAX_SLIPPAGE_BPS : JS.number;
  MIN_PROFIT_USD : JS.number;
  MIN_PROFIT_BPS : JS.number;
  MAX_FLASHLOAN_PERCENT : JS.number;
  MAX_PRICE_IMPACT_BPS : JS.number;
  MAX_GAS_PRICE_GWEI : JS.number
}.

Definition SAFETY : Safety :=
  {| MAX_SLIPPAGE_BPS := 50;
     MIN_PROFIT_USD := 0.5;
     MIN_PROFIT_BPS := 10;
     MAX_FLASHLOAN_PERCENT := 10;
     MAX_PRICE_IMPACT_BPS := 30;
     MAX_GAS_PRICE_GWEI := 0.001 |}%float.

Definition AAVE_FLASH_FEE_BPS : JS.number := 5%float.

(** [Object.values(FEE_TIERS)] *)

Definition FEE_TIERS : list JS.number := [100; 500; 3000; 10000]%float.

Definition ZERO_ADDRESS : string := "0x0000000000000000000000000000000000000000".

(** [MONITORED_PAIRS]: [token0], [token1] and [name] of each pair. *)

Definition MONITORED_PAIRS : list (string * string * string) :=
  [ (WETH, USDC, "WETH/USDC"); (WETH, USDT, "WETH/USDT"); (USDC, USDT, "USDC/USDT") ].

End Config.

(** ** The price monitor: [findArbitrageOpportunities] *)

Module PoolQuote.

Record t : Type := {
  dex : string;
  factory : string;
  pool : string;
  fee : JS.number;
  feePercent : string;
  token0 : string;
  token1 : string;
  price : JS.number;
  inversePrice : JS.number;
  liquidity : string;
  tick : JS.number;
  timestamp : JS.number
}.

End PoolQuote.

Module Opportunity.

Record t : Type := {
  buyDex : string;
  buyPool : string;
  buyFee : JS.number;
  buyPrice : JS.number;
  sellDex : string;
  sellPool : string;
  sellFee : JS.number;
  sellPrice : JS.number;
  priceDiffPercent : JS.number;
  totalFeePercent : JS.number;
  grossProfitPercent : JS.number;
  buyLiquidity : string;
  sellLiquidity : string;
  token0 : string;
  token1 : string
}.

End Opportunity.

Module PriceMonitor.

Import JS.
Local Open Scope float_scope.

(** The object one iteration of the inner loop pushes for the pair
    [priceA], [priceB]. *)

Definition opportunity_of (priceA priceB : PoolQuote.t) : Opportunity.t :=
  let priceDiff := Math_abs (PoolQuote.price priceA - PoolQuote.price priceB) in
  let avgPrice := (PoolQuote.price priceA + PoolQuote.price priceB) / 2 in
  let priceDiffPercent := (priceDiff / avgPrice) * 100 in
  let totalFeeBps := (PoolQuote.fee priceA + PoolQuote.fee priceB) / 100 in
  let totalFeePercent := totalFeeBps / 100 in
  let grossProfitPercent := priceDiffPercent - totalFeePercent in
  let buyFrom :=
    if PoolQuote.price priceA <? PoolQuote.price priceB then priceA else priceB in
  let sellTo :=
    if PoolQuote.price priceA <? PoolQuote.price priceB then priceB else priceA in
  {| Opportunity.buyDex := PoolQuote.dex buyFrom;
     Opportunity.buyPool := PoolQuote.pool buyFrom;
     Opportunity.buyFee := PoolQuote.fee buyFrom;
     Opportunity.buyPrice := PoolQuote.price buyFrom;
     Opportunity.sellDex := PoolQuote.dex sellTo;
     Opportunity.sellPool := PoolQuote.pool sellTo;
     Opportunity.sellFee := PoolQuote.fee sellTo;
     Opportunity.sellPrice := PoolQuote.price sellTo;
     Opportunity.priceDiffPercent := priceDiffPercent;
     Opportunity.totalFeePercent := totalFeePercent;
     Opportunity.grossProfitPercent := grossProfitPercent;
     Opportunity.buyLiquidity := PoolQuote.liquidity buyFrom;
     Opportunity.sellLiquidity := PoolQuote.liquidity sellTo;
     Opportunity.token0 := PoolQuote.token0 buyFrom;
     Opportunity.token1 := PoolQuote.token1 buyFrom |}.

(** The inner loop: [priceA] against every later quote. *)

Fixpoint compare_with (priceA : PoolQuote.t) (later : list PoolQuote.t)
  : list Opportunity.t :=
  match later with
  | [] => []
  | priceB :: rest =>
      let o := opportunity_of priceA priceB in
      if 0 <? Opportunity.grossProfitPercent o
      then o :: compare_with priceA rest
      else compare_with priceA rest
  end.

(** The outer loop: the opportunities in the order they are pushed. *)

Fixpoint compare_all (prices : list PoolQuote.t) : list Opportunity.t :=
  match prices with
  | [] => []
  | priceA :: later => compare_with priceA later ++ compare_all later
  end.

Definition findArbitrageOpportunities (prices : list PoolQuote.t) : list Opportunity.t :=
  sort (fun a b => Opportunity.grossProfitPercent b - Opportunity.grossProfitPercent a)
       (compare_all prices).

(** *** Reading the pools

    [poolCache] is a [Map] from strings to strings: its entries in
    insertion order, a key occurring once. *)

Definition Cache : Type := list (string * string).

Fixpoint Map_get (key : string) (m : Cache) : option string :=
  match m with
  | [] => None
  | (k, v) :: rest => if String.eqb key k then Some v else Map_get key rest
  end.

Definition Map_has (key : string) (m : Cache) : bool :=
  match Map_get key m with Some _ => true | None => false end.

Fixpoint Map_set (key value : string) (m : Cache) : Cache :=
  match m with
  | [] => [(key, value)]
  | (k, v) :: rest =>
      if String.eqb key k then (k, value) :: rest else (k, v) :: Map_set key value rest
  end.

(** What [client.readContract] answers; [None] is a rejected promise.
    [uint24] and [int24] results arrive as numbers, wider ones as bigints. *)

Record Chain : Type := {
  read_getPool : string -> string -> string -> number -> option string;
  read_slot0 : string -> option (Z * number);
  read_liquidity : string -> option Z;
  read_token0 : string -> option string;
  read_token1 : string -> option string;
  read_fee : string -> option number
}.

(** The built-ins taken as given: the exponentiation operator [**], which
    the language leaves to the implementation, and the clock, [Date.now()]
    at the moment the [n]-th quote is pushed. *)

Record Host : Type := {
  pow : number -> number -> number;
  Date_now : nat -> number
}.

(** [getPoolAddress]: the address, or [None] when the read is rejected,
    and the cache afterwards. *)

Definition getPoolAddress (client : Chain) (poolCache : Cache)
  (tokenA tokenB : string) (fee : number) (factory : string)
  : option string * Cache :=
  let cacheKey :=
    (factory ++ "-" ++ tokenA ++ "-" ++ tokenB ++ "-" ++ Number_toString fee)%string in
  if Map_has cacheKey poolCache then (Map_get cacheKey poolCache, poolCache)
  else
    match read_getPool client factory tokenA tokenB fee with
    | None => (None, poolCache)
    | Some poolAddress =>
        if negb (String.eqb poolAddress Config.ZERO_ADDRESS)
        then (Some poolAddress, Map_set cacheKey poolAddress poolCache)
        else (Some poolAddress, poolCache)
    end.

Record PoolState : Type := {
  st_sqrtPriceX96 : Z;
  st_tick : number;
  st_liquidity : Z;
  st_token0 : string;
  st_token1 : string;
  st_fee : number
}.

(** [getPoolState]: [Promise.all] of five reads is rejected as soon as one
    of them is. *)

Definition getPoolState (client : Chain) (poolAddress : string) : option PoolState :=
  match read_slot0 client poolAddress, read_liquidity client poolAddress,
        read_token0 client poolAddress, read_token1 client poolAddress,
        read_fee client poolAddress with
  | Some slot0, Some liquidity, Some token0, Some token1, Some fee =>
      Some {| st_sqrtPriceX96 := fst slot0;
              st_tick := snd slot0;
              st_liquidity := liquidity;
              st_token0 := token0;
              st_token1 := token1;
              st_fee := fee |}
  | _, _, _, _, _ => None
  end.

Definition sqrtPriceToPrice (host : Host) (sqrtPriceX96 : Z)
  (token0Decimals token1Decimals : number) : number :=
  let sqrtPrice := Number_of_BigInt sqrtPriceX96 / pow host 2 96 in
  let price := pow host sqrtPrice 2 in
  let decimalAdjustment := pow host 10 (token0Decimals - token1Decimals) in
  price * decimalAdjustment.

(** [DECIMALS[token] || 18] *)

Definition decimals_or_18 (token : string) : number :=
  match Config.DECIMALS token with
  | Some d => or_number (Some (Number_of_BigInt (Z.of_nat d))) 18
  | None => 18
  end.

(** One turn of the inner loop of [getPricesForPair], for one factory and
    one fee tier: the [try] block, an exception or a missing pool leaving
    [prices] as it was. *)

Definition quote_pool (host : Host) (client : Chain) (tokenA tokenB : string)
  (name address : string) (fee : number)
  (acc : list PoolQuote.t * Cache) : list PoolQuote.t * Cache :=
  let '(prices, poolCache) := acc in
  match getPoolAddress client poolCache tokenA tokenB fee address with
  | (None, poolCache') => (prices, poolCache')
  | (Some poolAddress, poolCache') =>
      if String.eqb poolAddress Config.ZERO_ADDRESS then (prices, poolCache')
      else
        match getPoolState client poolAddress with
        | None => (prices, poolCache')
        | Some state =>
            let token0Decimals := decimals_or_18 (st_token0 state) in
            let token1Decimals := decimals_or_18 (st_token1 state) in
            let price :=
              sqrtPriceToPrice host (st_sqrtPriceX96 state) token0Decimals token1Decimals in
            (prices ++
               [ {| PoolQuote.dex := name;
                    PoolQuote.factory := address;
                    PoolQuote.pool := poolAddress;
                    PoolQuote.fee := fee;
                    PoolQuote.feePercent := (toFixed (fee / 10000) 2 ++ "%")%string;
                    PoolQuote.token0 := st_token0 state;
                    PoolQuote.token1 := st_token1 state;
                    PoolQuote.price := price;
                    PoolQuote.inversePrice := 1 / price;
                    PoolQuote.liquidity := BigInt_toString (st_liquidity state);
                    PoolQuote.tick := st_tick state;
                    PoolQuote.timestamp := Date_now host (List.length prices) |} ],
             poolCache')
        end
  end.

Definition factories : list (string * string) :=
  [ (Config.UNISWAP_V3_FACTORY, "Uniswap"%string);
    (Config.SUSHI_V3_FACTORY, "SushiSwap"%string) ].

(** [getPricesForPair]: the quotes, and the cache afterwards. *)

Definition getPricesForPair (host : Host) (client : Chain) (poolCache : Cache)
  (tokenA tokenB : string) : list PoolQuote.t * Cache :=
  fold_left
    (fun acc factory =>
       fold_left
         (fun acc fee =>
            quote_pool host client tokenA tokenB (snd factory) (fst factory) fee acc)
         Config.FEE_TIERS acc)
    factories ([], poolCache).

(** [monitorPair], its console output aside. *)

Record Monitored : Type := {
  prices : list PoolQuote.t;
  opportunities : list Opportunity.t
}.

Definition monitorPair (host : Host) (client : Chain) (poolCache : Cache)
  (tokenA tokenB : string) : Monitored * Cache :=
  let '(prices, poolCache') := getPricesForPair host client poolCache tokenA tokenB in
  ({| prices := prices; opportunities := findArbitrageOpportunities prices |}, poolCache').

End PriceMonitor.

(** ** The opportunity detector *)

Module OpportunityDetector.

Import JS.
Local Open Scope string_scope.

Record Options : Type := {
  opt_minProfitUsd : option number;
  opt_maxSlippageBps : option number;
  opt_minProfitBps : option number;
  opt_maxFlashloanPercent : option number;
  opt_ethPriceUsd : option number;
  opt_baseFeeGwei : option number
}.

Record t : Type := {
  minProfitUsd : number;
  maxSlippageBps : number;
  minProfitBps : number;
  maxFlashloanPercent : number;
  ethPriceUsd : number;
  baseFeeGwei : number
}.

Definition constructor (options : Options) : t :=
  {| minProfitUsd := or_number (opt_minProfitUsd options) (Config.MIN_PROFIT_USD Config.SAFETY);
     maxSlippageBps := or_number (opt_maxSlippageBps options) (Config.MAX_SLIPPAGE_BPS Config.SAFETY);
     minProfitBps := or_number (opt_minProfitBps options) (Config.MIN_PROFIT_BPS Config.SAFETY);
     maxFlashloanPercent :=
       or_number (opt_maxFlashloanPercent options) (Config.MAX_FLASHLOAN_PERCENT Config.SAFETY);
     ethPriceUsd := or_number (opt_ethPriceUsd options) 3000%float;
     baseFeeGwei := or_number (opt_baseFeeGwei options) 0.001%float |}.

Record SizingResult : Type := {
  maxFlashloan : string;
  optimalAmount : string;
  constrainingLiquidity : string;
  limitingPool : string
}.

(** [None] stands for a thrown exception ([BigInt] of a malformed string or
    of a number that is no integer).  Division of bigints truncates. *)

Definition calculateOptimalAmount (this : t) (opportunity : Opportunity.t)
  : option SizingResult :=
  match BigInt (Opportunity.buyLiquidity opportunity),
        BigInt (Opportunity.sellLiquidity opportunity) with
  | Some buyLiquidity, Some sellLiquidity =>
      let constrainingLiquidity :=
        if (buyLiquidity <? sellLiquidity)%Z then buyLiquidity else sellLiquidity in
      match BigInt_of_number (maxFlashloanPercent this) with
      | Some percent =>
          let maxFlashloan := Z.quot (constrainingLiquidity * percent) 100 in
          let optimalAmount := Z.quot maxFlashloan 10 in
          Some {| maxFlashloan := BigInt_toString maxFlashloan;
                  optimalAmount := BigInt_toString optimalAmount;
                  constrainingLiquidity := BigInt_toString constrainingLiquidity;
                  limitingPool :=
                    if (buyLiquidity <? sellLiquidity)%Z then "buy" else "sell" |}
      | None => None
      end
  | _, _ => None
  end.

Record Slippage : Type := {
  slippageBps : number;
  acceptable : bool;
  maxAllowedBps : option number
}.

Definition modelSlippage (this : t) (tradeSize liquidity : string) (feeTier : number)
  : option Slippage :=
  match BigInt tradeSize, BigInt liquidity with
  | Some tradeSizeBn, Some liquidityBn =>
      if (liquidityBn =? 0)%Z then
        Some {| slippageBps := 10000%float; acceptable := false; maxAllowedBps := None |}
      else
        let impactRatio := Z.quot (tradeSizeBn * 10000) liquidityBn in
        let feeMultiplier : number :=
          (if PrimFloat.eqb feeTier 100 then 3
           else if PrimFloat.eqb feeTier 500 then 2 else 1)%float in
        let slippageBps := (Number_of_BigInt impactRatio * feeMultiplier)%float in
        Some {| slippageBps := slippageBps;
                acceptable := PrimFloat.leb slippageBps (maxSlippageBps this);
                maxAllowedBps := Some (maxSlippageBps this) |}
  | _, _ => None
  end.

Module GasEstimate.

Record t : Type := {
  gasUnits : number;
  gasPriceGwei : number;
  gasCostEth : number;
  gasCostUsd : number
}.

End GasEstimate.

Definition estimateGasCost (this : t) : GasEstimate.t :=
  let gasUnits : number := 350000%float in
  let gasPriceGwei := baseFeeGwei this in
  let gasCostEth := ((gasUnits * gasPriceGwei) / 1e9)%float in
  let gasCostUsd := (gasCostEth * ethPriceUsd this)%float in
  {| GasEstimate.gasUnits := gasUnits;
     GasEstimate.gasPriceGwei := gasPriceGwei;
     GasEstimate.gasCostEth := gasCostEth;
     GasEstimate.gasCostUsd := gasCostUsd |}.

Record ProfitAnalysis : Type := {
  borrowAmount : string;
  borrowAmountFormatted : string;
  grossProfitPercent : string;
  grossProfitAmount : string;
  flashFeePercent : string;
  flashFeeAmount : string;
  totalSlippagePercent : string;
  slippageCost : string;
  gasCostUsd : string;
  netProfitBeforeGas : string;
  netProfitAfterGas : string;
  profitBps : string;
  slippageAcceptable : bool;
  profitAcceptable : bool;
  bpsAcceptable : bool;
  isViable : bool
}.

Definition calculateProfit (this : t) (opportunity : Opportunity.t)
  (borrowAmount : string) (tokenDecimals : nat) : option ProfitAnalysis :=
  match BigInt borrowAmount with
  | None => None
  | Some amount =>
      let amountFloat := Number_of_string (Viem.formatUnits amount tokenDecimals) in
      let grossProfitPercent := (Opportunity.grossProfitPercent opportunity / 100)%float in
      let grossProfitAmount := (amountFloat * grossProfitPercent)%float in
      let flashFeePercent := (Config.AAVE_FLASH_FEE_BPS / 10000)%float in
      let flashFeeAmount := (amountFloat * flashFeePercent)%float in
      match modelSlippage this borrowAmount (Opportunity.buyLiquidity opportunity)
                          (Opportunity.buyFee opportunity),
            modelSlippage this borrowAmount (Opportunity.sellLiquidity opportunity)
                          (Opportunity.sellFee opportunity) with
      | Some buySlippage, Some sellSlippage =>
          let totalSlippagePercent :=
            ((slippageBps buySlippage + slippageBps sellSlippage) / 10000)%float in
          let slippageCost := (amountFloat * totalSlippagePercent)%float in
          let gasEstimate := estimateGasCost this in
          let netProfitBeforeGas :=
            (grossProfitAmount - flashFeeAmount - slippageCost)%float in
          let netProfitAfterGas := (netProfitBeforeGas - GasEstimate.gasCostUsd gasEstimate)%float in
          let profitBps := ((netProfitAfterGas / amountFloat) * 10000)%float in
          Some {| borrowAmount := borrowAmount;
                  borrowAmountFormatted := toFixed amountFloat 6;
                  grossProfitPercent := toFixed (grossProfitPercent * 100)%float 4;
                  grossProfitAmount := toFixed grossProfitAmount 6;
                  flashFeePercent := toFixed (flashFeePercent * 100)%float 4;
                  flashFeeAmount := toFixed flashFeeAmount 6;
                  totalSlippagePercent := toFixed (totalSlippagePercent * 100)%float 4;
                  slippageCost := toFixed slippageCost 6;
                  gasCostUsd := toFixed (GasEstimate.gasCostUsd gasEstimate) 6;
                  netProfitBeforeGas := toFixed netProfitBeforeGas 6;
                  netProfitAfterGas := toFixed netProfitAfterGas 6;
                  profitBps := toFixed profitBps 2;
                  slippageAcceptable := acceptable buySlippage && acceptable sellSlippage;
                  profitAcceptable := PrimFloat.leb (minProfitUsd this) netProfitAfterGas;
                  bpsAcceptable := PrimFloat.leb (minProfitBps this) profitBps;
                  isViable :=
                    acceptable buySlippage &&
                    acceptable sellSlippage &&
                    PrimFloat.leb (minProfitUsd this) netProfitAfterGas &&
                    PrimFloat.leb (minProfitBps this) profitBps |}
      | _, _ => None
      end
  end.

Record Evaluation : Type := {
  ev_opportunity : Opportunity.t;
  ev_sizing : SizingResult;
  ev_profitAnalysis : ProfitAnalysis;
  shouldExecute : bool;
  reason : string
}.

Definition evaluate (this : t) (opportunity : Opportunity.t) : option Evaluation :=
  match calculateOptimalAmount this opportunity with
  | None => None
  | Some sizing =>
      let token0Decimals :=
        match Config.DECIMALS (Opportunity.token0 opportunity) with
        | Some O | None => 18%nat
        | Some d => d
        end in
      match calculateProfit this opportunity (optimalAmount sizing) token0Decimals with
      | None => None
      | Some profitAnalysis =>
          Some {| ev_opportunity := opportunity;
                  ev_sizing := sizing;
                  ev_profitAnalysis := profitAnalysis;
                  shouldExecute := isViable profitAnalysis;
                  reason :=
                    if negb (slippageAcceptable profitAnalysis) then
                      "Slippage exceeds threshold"
                    else if negb (profitAcceptable profitAnalysis) then
                      "Net profit $" ++ netProfitAfterGas profitAnalysis ++ " < min $"
                        ++ Number_toString (minProfitUsd this)
                    else if negb (bpsAcceptable profitAnalysis) then
                      "Profit " ++ profitBps profitAnalysis ++ " bps < min "
                        ++ Number_toString (minProfitBps this) ++ " bps"
                    else if isViable profitAnalysis then "All criteria met - EXECUTE"
                    else "" |}
      end
  end.

End OpportunityDetector.

(** ** The calldata encoder *)

Module CalldataEncoder.

Import JS.
Local Open Scope string_scope.

Record t : Type := { executorAddress : string }.

(** The [options] object of [createSwapInstruction]; a missing property is
    [None]. *)

Record SwapOptions : Type := {
  opt_router : option string;
  opt_tokenIn : string;
  opt_tokenOut : string;
  opt_fee : number;
  opt_amountIn : option string;
  opt_minAmountOut : option string
}.

Record SwapInstruction : Type := {
  router : string;
  tokenIn : string;
  tokenOut : string;
  fee : number;
  amountIn : string;
  minAmountOut : string
}.

Record ArbitrageParams : Type := {
  flashloanProvider : string;
  borrowToken : string;
  borrowAmount : string;
  minProfit : string;
  swaps : list SwapInstruction
}.

Definition createSwapInstruction (options : SwapOptions) : SwapInstruction :=
  {| router := or_string (opt_router options) Config.UNISWAP_V3_ROUTER;
     tokenIn := opt_tokenIn options;
     tokenOut := opt_tokenOut options;
     fee := opt_fee options;
     amountIn := or_string (opt_amountIn options) "0";
     minAmountOut := or_string (opt_minAmountOut options) "1" |}.

Definition buildArbitrageParams (this : t) (opportunity : Opportunity.t)
  (sizing : OpportunityDetector.SizingResult)
  (profitAnalysis : OpportunityDetector.ProfitAnalysis) : ArbitrageParams :=
  let borrowToken := Opportunity.token0 opportunity in
  let borrowAmount := OpportunityDetector.optimalAmount sizing in
  let expectedProfit := parseFloat (OpportunityDetector.netProfitAfterGas profitAnalysis) in
  let minProfit :=
    Number_toString (Math_max 0%float (Math_floor (expectedProfit * 0.5 * 1e6)%float)) in
  let swaps :=
    [ createSwapInstruction
        {| opt_router := Some Config.UNISWAP_V3_ROUTER;
           opt_tokenIn := Opportunity.token0 opportunity;
           opt_tokenOut := Opportunity.token1 opportunity;
           opt_fee := Opportunity.buyFee opportunity;
           opt_amountIn := Some borrowAmount;
           opt_minAmountOut := Some "1" |};
      createSwapInstruction
        {| opt_router := Some Config.UNISWAP_V3_ROUTER;
           opt_tokenIn := Opportunity.token1 opportunity;
           opt_tokenOut := Opportunity.token0 opportunity;
           opt_fee := Opportunity.sellFee opportunity;
           opt_amountIn := Some "0";
           opt_minAmountOut := Some borrowAmount |} ] in
  {| flashloanProvider := executorAddress this;
     borrowToken := borrowToken;
     borrowAmount := borrowAmount;
     minProfit := minProfit;
     swaps := swaps |}.

(** [calculateMinOutput(expectedOutput, slippageBps = 50)], for a bigint
    [expectedOutput]; [None] is the [RangeError] of [BigInt(slippageBps)]. *)

Definition calculateMinOutput (expectedOutput : Z) (slippageBps : number) : option string :=
  let expected := expectedOutput in
  match BigInt_of_number slippageBps with
  | None => None
  | Some bps =>
      let slippageFactor := (10000 - bps)%Z in
      let minOutput := Z.quot (expected * slippageFactor) 10000 in
      Some (BigInt_toString minOutput)
  end.

End CalldataEncoder.

(** ** The controller: [bot/index.js] *)

Module MaggieBot.

Import JS.
Local Open Scope string_scope.

(** The [options] object of the constructor; a missing property is [None]. *)

Record Options : Type := {
  opt_useAnvil : option bool;
  opt_executorAddress : option string;
  opt_dryRun : option bool;
  opt_minProfitUsd : option number;
  opt_maxSlippageBps : option number;
  opt_ethPriceUsd : option number
}.

Record Stats : Type := {
  cyclesCompleted : number;
  opportunitiesFound : number;
  viableOpportunities : number;
  executedTrades : number;
  totalProfit : number
}.

(** The bot; of its price monitor, the pool cache is the part that
    changes. *)

Record t : Type := {
  useAnvil : bool;
  executorAddress : option string;
  dryRun : bool;
  poolCache : PriceMonitor.Cache;
  opportunityDetector : OpportunityDetector.t;
  calldataEncoder : option CalldataEncoder.t;
  isRunning : bool;
  stats : Stats
}.

Definition constructor (options : Options) : t :=
  let useAnvil := match opt_useAnvil options with Some true => true | _ => false end in
  let executorAddress :=
    match opt_executorAddress options with
    | Some EmptyString | None => None
    | Some a => Some a
    end in
  {| useAnvil := useAnvil;
     executorAddress := executorAddress;
     dryRun := match opt_dryRun options with Some false => false | _ => true end;
     poolCache := [];
     opportunityDetector :=
       OpportunityDetector.constructor
         {| OpportunityDetector.opt_minProfitUsd :=
              Some (or_number (opt_minProfitUsd options)
                              (Config.MIN_PROFIT_USD Config.SAFETY));
            OpportunityDetector.opt_maxSlippageBps :=
              Some (or_number (opt_maxSlippageBps options)
                              (Config.MAX_SLIPPAGE_BPS Config.SAFETY));
            OpportunityDetector.opt_minProfitBps := None;
            OpportunityDetector.opt_maxFlashloanPercent := None;
            OpportunityDetector.opt_ethPriceUsd :=
              Some (or_number (opt_ethPriceUsd options) 3000%float);
            OpportunityDetector.opt_baseFeeGwei := None |};
     calldataEncoder :=
       match executorAddress with
       | Some a => Some {| CalldataEncoder.executorAddress := a |}
       | None => None
       end;
     isRunning := false;
     stats := {| cyclesCompleted := 0; opportunitiesFound := 0; viableOpportunities := 0;
                 executedTrades := 0; totalProfit := 0 |}%float |}.

(** [opportunities.length] *)

Definition Array_length {A : Type} (l : list A) : number :=
  Number_of_BigInt (Z.of_nat (List.length l)).

(** The loop of [runCycle] over the opportunities of one pair, from the
    statistics it finds to those it leaves.  An exception ends the loop (the
    [catch] of the pair takes it): [evaluate] throws where it is [None], and
    [builds opp sizing analysis] tells whether ethers' encoder, behind
    [buildExecutionTransaction], accepts the transaction. *)

Fixpoint evaluate_each
  (builds : Opportunity.t -> OpportunityDetector.SizingResult ->
            OpportunityDetector.ProfitAnalysis -> bool)
  (this : t) (opportunities : list Opportunity.t) (stats : Stats) : Stats :=
  match opportunities with
  | [] => stats
  | opp :: rest =>
      match OpportunityDetector.evaluate (opportunityDetector this) opp with
      | None => stats
      | Some evaluation =>
          if OpportunityDetector.shouldExecute evaluation then
            let stats1 :=
              {| cyclesCompleted := cyclesCompleted stats;
                 opportunitiesFound := opportunitiesFound stats;
                 viableOpportunities := (viableOpportunities stats + 1)%float;
                 executedTrades := executedTrades stats;
                 totalProfit := totalProfit stats |} in
            match calldataEncoder this, negb (dryRun this) with
            | Some _, true =>
                if builds opp (OpportunityDetector.ev_sizing evaluation)
                          (OpportunityDetector.ev_profitAnalysis evaluation)
                then evaluate_each builds this rest stats1
                else stats1
            | _, _ =>
                if dryRun this then
                  evaluate_each builds this rest
                    {| cyclesCompleted := cyclesCompleted stats1;
                       opportunitiesFound := opportunitiesFound stats1;
                       viableOpportunities := viableOpportunities stats1;
                       executedTrades := (executedTrades stats1 + 1)%float;
                       totalProfit :=
                         (totalProfit stats1
                          + parseFloat (OpportunityDetector.netProfitAfterGas
                                          (OpportunityDetector.ev_profitAnalysis evaluation)))%float |}
                else evaluate_each builds this rest stats1
            end
          else evaluate_each builds this rest stats
      end
  end.

(** One turn of the loop over [MONITORED_PAIRS]: the [try] block. *)

Definition monitor_and_evaluate
  (host : PriceMonitor.Host) (client : PriceMonitor.Chain)
  (builds : Opportunity.t -> OpportunityDetector.SizingResult ->
            OpportunityDetector.ProfitAnalysis -> bool)
  (this : t) (pair : string * string * string) : t :=
  let '(token0, token1, _) := pair in
  let '(monitored, poolCache') :=
    PriceMonitor.monitorPair host client (poolCache this) token0 token1 in
  let opportunities := PriceMonitor.opportunities monitored in
  let this1 :=
    {| useAnvil := useAnvil this; executorAddress := executorAddress this;
       dryRun := dryRun this; poolCache := poolCache';
       opportunityDetector := opportunityDetector this;
       calldataEncoder := calldataEncoder this; isRunning := isRunning this;
       stats := stats this |} in
  if PrimFloat.eqb (Array_length opportunities) 0 then this1
  else
    let stats1 :=
      {| cyclesCompleted := cyclesCompleted (stats this);
         opportunitiesFound :=
           (opportunitiesFound (stats this) + Array_length opportunities)%float;
         viableOpportunities := viableOpportunities (stats this);
         executedTrades := executedTrades (stats this);
         totalProfit := totalProfit (stats this) |} in
    {| useAnvil := useAnvil this; executorAddress := executorAddress this;
       dryRun := dryRun this; poolCache := poolCache';
       opportunityDetector := opportunityDetector this;
       calldataEncoder := calldataEncoder this; isRunning := isRunning this;
       stats := evaluate_each builds this opportunities stats1 |}.

(** [runCycle]; [host_at i] holds the built-ins as they answer during the
    turn of the [i]-th pair. *)

Definition runCycle
  (host_at : nat -> PriceMonitor.Host) (client : PriceMonitor.Chain)
  (builds : Opportunity.t -> OpportunityDetector.SizingResult ->
            OpportunityDetector.ProfitAnalysis -> bool)
  (this : t) : t :=
  let this1 :=
    fst (fold_left
           (fun (acc : t * nat) pair =>
              (monitor_and_evaluate (host_at (snd acc)) client builds (fst acc) pair,
               S (snd acc)))
           Config.MONITORED_PAIRS (this, O)) in
  {| useAnvil := useAnvil this1; executorAddress := executorAddress this1;
     dryRun := dryRun this1; poolCache := poolCache this1;
     opportunityDetector := opportunityDetector this1;
     calldataEncoder := calldataEncoder this1; isRunning := isRunning this1;
     stats :=
       {| cyclesCompleted := (cyclesCompleted (stats this1) + 1)%float;
          opportunitiesFound := opportunitiesFound (stats this1);
          viableOpportunities := viableOpportunities (stats this1);
          executedTrades := executedTrades (stats this1);
          totalProfit := totalProfit (stats this1) |} |}.

End MaggieBot.

(* ===================================================================== *)
(** * Part I (continued).  Vocabulary of the executor's properties       *)
(* ===================================================================== *)

Module ExecutorSpec.

Import Executor.
Local Open Scope Z_scope.

(** ** The reentrancy lock *)

Definition lock_ok (m : Machine) : Prop :=
  _status (st m) = NOT_ENTERED \/ _status (st m) = ENTERED.

Definition keeps_lock (f : external_call) : Prop :=
  forall m m', lock_ok m -> f m = Ok m' -> _status (st m') = _status (st m).

Definition is_admin (c : Call) : bool :=
  match c with
  | Call_transferOwnership _ | Call_setVault _ | Call_togglePause
  | Call_setMinProfit _ | Call_emergencyWithdraw _ => true
  | _ => false
  end.

(** ** The calls foreign code makes into the executor

    [occurs_call c sender m x]: while the call [c] from [sender] runs on the
    machine [m], foreign code makes the call [x = (sender', c', m')], at any
    depth of nesting; [m'] is the machine that call is made on.  The three
    relations follow [exec], [run] and the loop of [_executeSwaps]. *)

Definition reentry : Type := (address * Call * Machine)%type.

(** The state of the lock when the call is made. *)

Definition status_at (x : reentry) : uint256 := _status (st (snd x)).

Definition is_executeWithAave (c : Call) : bool :=
  match c with
  | Call_executeWithAave _ _ => true
  | _ => false
  end.

Section Occurs.

Variable this : address.
Variable aavePool : address.

(** The machine on which the router of [swap] is called. *)

Definition before_swap (swap : SwapInstruction) (m : Machine) : Machine :=
  approve (tokenIn swap) this (router swap)
    (if amountIn swap =? 0 then balanceOf (world m) (tokenIn swap) this
     else amountIn swap) m.

Inductive occurs_run : Ext -> Machine -> reentry -> Prop :=
| occurs_act f k m x :
    occurs_run (k (world m)) (set_world m (f (world m))) x ->
    occurs_run (Act f k) m x
| occurs_here sender c k m :
    occurs_run (CallIn sender c k) m (sender, c, m)
| occurs_inside sender c k m x :
    occurs_call c sender m x ->
    occurs_run (CallIn sender c k) m x
| occurs_after_return sender c k m m' x :
    exec this aavePool c sender m = Ok m' ->
    occurs_run (k None) m' x ->
    occurs_run (CallIn sender c k) m x
| occurs_after_revert sender c k m e x :
    exec this aavePool c sender m = Err e ->
    occurs_run (k (Some e)) m x ->
    occurs_run (CallIn sender c k) m x
with occurs_call : Call -> address -> Machine -> reentry -> Prop :=
| occurs_executeWithAave params pool sender m x :
    sender = owner (st m) -> paused (st m) = false ->
    _status (st m) <> ENTERED ->
    borrowAmount params <> 0 -> swaps params <> [] ->
    occurs_run pool (set_status ENTERED m) x ->
    occurs_call (Call_executeWithAave params pool) sender m x
| occurs_executeOperation asset amount premium initiator d routers sender m x :
    sender = aavePool -> initiator = this ->
    occurs_swaps routers 0 (cb_swaps d) m x ->
    occurs_call
      (Call_executeOperation asset amount premium initiator (abi_encode d) routers)
      sender m x
| occurs_uniswapV3FlashCallback fee0 fee1 d routers sender m x swap0 rest :
    cb_swaps d = swap0 :: rest ->
    sender = getPool (world m) (tokenIn swap0) (tokenOut swap0) (fee swap0) ->
    occurs_swaps routers 0 (cb_swaps d) m x ->
    occurs_call (Call_uniswapV3FlashCallback fee0 fee1 (abi_encode d) routers) sender m x
with occurs_swaps : (nat -> Ext) -> nat -> list SwapInstruction -> Machine -> reentry -> Prop :=
| occurs_this_swap routers i swap rest m x :
    occurs_run (routers i) (before_swap swap m) x ->
    occurs_swaps routers i (swap :: rest) m x
| occurs_later_swap routers i swap rest m m' x :
    run this aavePool (routers i) (before_swap swap m) = Ok m' ->
    occurs_swaps routers (S i) rest m' x ->
    occurs_swaps routers i (swap :: rest) m x.

Scheme occurs_run_mind := Minimality for occurs_run Sort Prop
  with occurs_call_mind := Minimality for occurs_call Sort Prop
  with occurs_swaps_mind := Minimality for occurs_swaps Sort Prop.

Combined Scheme occurs_mutind from occurs_run_mind, occurs_call_mind, occurs_swaps_mind.

End Occurs.

(** ** Indistinguishability up to [minProfitBps]

    Two storages are alike when they agree on every variable but
    [minProfitBps]; two machines are alike when their storages are, their
    ledgers coincide and their logs coincide once the old value reported by
    [MinProfitUpdated] is blanked. *)

Definition alike_st (s1 s2 : ExecutorState) : Prop :=
  owner s1 = owner s2 /\ vault s1 = vault s2 /\
  paused s1 = paused s2 /\ _status s1 = _status s2.

Definition blank (ev : Event) : Event :=
  match ev with
  | MinProfitUpdated _ n => MinProfitUpdated 0 n
  | _ => ev
  end.

Definition alike (m1 m2 : Machine) : Prop :=
  alike_st (st m1) (st m2) /\ world m1 = world m2 /\
  map blank (log m1) = map blank (log m2).

Definition alike_result (r1 r2 : result Machine) : Prop :=
  match r1, r2 with
  | Ok m1, Ok m2 => alike m1 m2
  | Err e1, Err e2 => e1 = e2
  | _, _ => False
  end.

Definition blind (f : external_call) : Prop :=
  forall m1 m2, alike m1 m2 -> alike_result (f m1) (f m2).

(** ** Foreign code that never calls in as a given address

    [never_as_call o c]: none of the behaviours the call [c] carries ever
    calls into the executor with [o] as sender, at any depth. *)

Fixpoint never_as_call (o : address) (c : Call) {struct c} : Prop :=
  match c with
  | Call_executeWithAave _ pool => never_as_ext o pool
  | Call_executeOperation _ _ _ _ _ routers => forall i, never_as_ext o (routers i)
  | Call_uniswapV3FlashCallback _ _ _ routers => forall i, never_as_ext o (routers i)
  | _ => True
  end
with never_as_ext (o : address) (e : Ext) {struct e} : Prop :=
  match e with
  | Return | Revert _ => True
  | Act _ k => forall w, never_as_ext o (k w)
  | CallIn sender c k =>
      sender <> o /\ never_as_call o c /\ forall outcome, never_as_ext o (k outcome)
  end.

(** A call through foreign code leaves the storage and the log of a machine
    owned by [o] as they are. *)

Definition keeps_storage (o : address) (f : external_call) : Prop :=
  forall m m', owner (st m) = o -> f m = Ok m' -> st m' = st m /\ log m' = log m.

(** A call through foreign code keeps a property of the storage. *)

Definition keeps (P : ExecutorState -> Prop) (f : external_call) : Prop :=
  forall m m', P (st m) -> f m = Ok m' -> P (st m').

(** The parameters [_executeSwaps] hands to the router of [swap]. *)

Definition router_params (this : address) (swap : SwapInstruction) (m : Machine)
  : ExactInputSingleParams :=
  {| p_tokenIn := tokenIn swap;
     p_tokenOut := tokenOut swap;
     p_fee := fee swap;
     p_recipient := this;
     p_amountIn := if amountIn swap =? 0 then balanceOf (world m) (tokenIn swap) this
                   else amountIn swap;
     p_amountOutMinimum := minAmountOut swap;
     p_sqrtPriceLimitX96 := 0 |}.

(** Whether a call returned, and the machine it returned (or [d]). *)

Definition returned {A : Type} (r : result A) : bool :=
  match r with Ok _ => true | Err _ => false end.

Definition outcome {A : Type} (d : A) (r : result A) : A :=
  match r with Ok a => a | Err _ => d end.

End ExecutorSpec.

(* ===================================================================== *)
(** * Part I (continued).  A small chain to run the executor on          *)
(* ===================================================================== *)

Module Scenario.

Import Executor.
Local Open Scope Z_scope.

Definition OWNER : address := 1.
Definition VAULT : address := 2.
Definition ATTACKER : address := 666.
Definition THIS : address := 100.
Definition AAVE_POOL : address := 200.
Definition ROUTER : address := 300.
Definition UNI_POOL : address := 400.
Definition TOKEN_A : address := 10.
Definition TOKEN_B : address := 11.

(** Ledgers: the Aave pool holds a million of [TOKEN_A], the router a
    million of each token; everybody else holds nothing. *)

Definition world0 : World :=
  {| balanceOf := fun t h =>
       if (h =? AAVE_POOL) && (t =? TOKEN_A) then 1000000
       else if h =? ROUTER then 1000000 else 0;
     allowance := fun _ _ _ => 0;
     getPool := fun _ _ _ => UNI_POOL |}.

Definition state0 : ExecutorState :=
  {| owner := OWNER; vault := VAULT; paused := false;
     _status := NOT_ENTERED; minProfitBps := 10 |}.

Definition machine0 : Machine := {| st := state0; world := world0; log := [] |}.

(** The same machine caught in the middle of [executeWithAave]. *)

Definition machine_locked : Machine := set_status ENTERED machine0.

(** Moving tokens on a ledger, as foreign code does it. *)

Definition pay (token from to : address) (amount : uint256) (w : World) : World :=
  {| balanceOf := fun t => if t =? token then move (balanceOf w t) from to amount
                           else balanceOf w t;
     allowance := allowance w;
     getPool := getPool w |}.

(** Aave's [flashLoanSimple]: lend, call [executeOperation] on the receiver
    with the caller as initiator, then pull principal and premium through
    the allowance; a revert of the callback is passed on unchanged. *)

Definition aave_flashLoanSimple (asset : address) (amount premium : uint256)
  (payload : bytes) (routers : nat -> Ext) : Ext :=
  Act (pay asset AAVE_POOL THIS amount) (fun _ =>
  CallIn AAVE_POOL
    (Call_executeOperation asset amount premium THIS payload routers)
    (fun outcome =>
       match outcome with
       | Some e => Revert e
       | None =>
           Act (fun w => w) (fun w =>
             if (allowance w asset THIS AAVE_POOL <? amount + premium)
                || (balanceOf w asset THIS <? amount + premium)
             then Revert ExternalRevert
             else Act (pay asset THIS AAVE_POOL (amount + premium)) (fun _ => Return))
       end)).

(** A router that takes [amountIn] of one token and hands out [amountOut]
    of the other. *)

Definition router_swaps (tIn tOut : address) (amountIn amountOut : uint256) : Ext :=
  Act (fun w => pay tOut ROUTER THIS amountOut (pay tIn THIS ROUTER amountIn w))
      (fun _ => Return).

(** Borrow 1000 [TOKEN_A] at a premium of 5, swap them for 50 [TOKEN_B] and
    those back for [back] [TOKEN_A]; the submitted profit floor is 10. *)

Definition two_legs : list SwapInstruction :=
  [ {| router := ROUTER; tokenIn := TOKEN_A; tokenOut := TOKEN_B; fee := 500;
       amountIn := 1000; minAmountOut := 1 |};
    {| router := ROUTER; tokenIn := TOKEN_B; tokenOut := TOKEN_A; fee := 3000;
       amountIn := 0; minAmountOut := 1000 |} ].

Definition params0 : ArbitrageParams :=
  {| flashloanProvider := AAVE_POOL; borrowToken := TOKEN_A; borrowAmount := 1000;
     minProfit := 10; swaps := two_legs |}.

Definition routers0 (back : uint256) (i : nat) : Ext :=
  match i with
  | O => router_swaps TOKEN_A TOKEN_B 1000 50
  | _ => router_swaps TOKEN_B TOKEN_A 50 back
  end.

Definition arbitrage (back : uint256) : Call :=
  Call_executeWithAave params0
    (aave_flashLoanSimple TOKEN_A 1000 5 (callbackData params0) (routers0 back)).

(** The callback invoked directly, the funds already on the executor. *)

Definition funded (balance : uint256) : Machine :=
  set_world machine0 (pay TOKEN_A AAVE_POOL THIS balance world0).

Definition no_swaps : CallbackData :=
  {| cb_borrowToken := TOKEN_A; cb_borrowAmount := 1000; cb_minProfit := 10;
     cb_swaps := [] |}.

Definition one_swap : CallbackData :=
  {| cb_borrowToken := TOKEN_A; cb_borrowAmount := 1000; cb_minProfit := 10;
     cb_swaps := [ {| router := ROUTER; tokenIn := TOKEN_A; tokenOut := TOKEN_B;
                      fee := 500; amountIn := 1000; minAmountOut := 1 |} ] |}.

Definition idle_router : router_call := fun _ _ _ m => Ok m.

(** A pool whose code calls back into an administrative function in the
    owner's name while the loan is out. *)

Definition meddling_pool : Ext :=
  CallIn OWNER Call_togglePause (fun _ => Return).

End Scenario.

(* ===================================================================== *)
(** * Part I (continued).  Quotes and opportunities to run the bot on    *)
(* ===================================================================== *)

Module BotScenario.

Import JS.
Local Open Scope string_scope.
Local Open Scope float_scope.

Definition quote (venue poolAddress : string) (feeTier p : number) (liq : string)
  : PoolQuote.t :=
  {| PoolQuote.dex := venue;
     PoolQuote.factory :=
       if String.eqb venue "Uniswap" then Config.UNISWAP_V3_FACTORY
       else Config.SUSHI_V3_FACTORY;
     PoolQuote.pool := poolAddress;
     PoolQuote.fee := feeTier;
     PoolQuote.feePercent := toFixed (feeTier / 10000) 2 ++ "%";
     PoolQuote.token0 := Config.WETH;
     PoolQuote.token1 := Config.USDC;
     PoolQuote.price := p;
     PoolQuote.inversePrice := 1 / p;
     PoolQuote.liquidity := liq;
     PoolQuote.tick := 0;
     PoolQuote.timestamp := 0 |}.

(** The quotes of the specification's scenarios: 3000 against 3005 at fee
    tiers 500 and 3000, and 3000 against 3050 at fee tiers 500 and 500. *)

Definition q3000 : PoolQuote.t := quote "Uniswap" "0xA" 500 3000 "5000000000000".
Definition q3005 : PoolQuote.t := quote "Uniswap" "0xB" 3000 3005 "7000000000000".
Definition q3050 : PoolQuote.t := quote "SushiSwap" "0xC" 500 3050 "7000000000000".

Definition opportunity0 : Opportunity.t := PriceMonitor.opportunity_of q3000 q3050.

Definition detector0 : OpportunityDetector.t :=
  OpportunityDetector.constructor
    {| OpportunityDetector.opt_minProfitUsd := None;
       OpportunityDetector.opt_maxSlippageBps := None;
       OpportunityDetector.opt_minProfitBps := None;
       OpportunityDetector.opt_maxFlashloanPercent := None;
       OpportunityDetector.opt_ethPriceUsd := None;
       OpportunityDetector.opt_baseFeeGwei := None |}.

Definition encoder0 : CalldataEncoder.t :=
  {| CalldataEncoder.executorAddress := "0xE" |}.

Definition sizing0 : option OpportunityDetector.SizingResult :=
  OpportunityDetector.calculateOptimalAmount detector0 opportunity0.

(** The analysis of a borrow of 10^9 units of a token with [decimals]
    decimals. *)

Definition analysis0 (decimals : nat) : option OpportunityDetector.ProfitAnalysis :=
  OpportunityDetector.calculateProfit detector0 opportunity0 "1000000000" decimals.

(** A WETH/USDC opportunity between two deep pools of the 1% tier, seen by
    a detector that tolerates 100 bps of slippage, and the transaction the
    bot builds for it. *)

Definition deep3000 : PoolQuote.t :=
  quote "Uniswap" "0xA" 10000 3000 "5000000000000000000000000".
Definition deep3300 : PoolQuote.t :=
  quote "SushiSwap" "0xC" 10000 3300 "7000000000000000000000000".

Definition detector100 : OpportunityDetector.t :=
  OpportunityDetector.constructor
    {| OpportunityDetector.opt_minProfitUsd := None;
       OpportunityDetector.opt_maxSlippageBps := Some 100;
       OpportunityDetector.opt_minProfitBps := None;
       OpportunityDetector.opt_maxFlashloanPercent := None;
       OpportunityDetector.opt_ethPriceUsd := None;
       OpportunityDetector.opt_baseFeeGwei := None |}.

Definition opportunity_deep : Opportunity.t :=
  PriceMonitor.opportunity_of deep3000 deep3300.

(** The same opportunity with its sell side on Uniswap too. *)

Definition opportunity_deep_uni : Opportunity.t :=
  PriceMonitor.opportunity_of deep3000
    (quote "Uniswap" "0xC" 10000 3300 "7000000000000000000000000").

(** What [detector100] makes of [opportunity_deep] (see [evaluate_deep]). *)

Definition sizing_deep : OpportunityDetector.SizingResult :=
  {| OpportunityDetector.maxFlashloan := "500000000000000000000000";
     OpportunityDetector.optimalAmount := "50000000000000000000000";
     OpportunityDetector.constrainingLiquidity := "5000000000000000000000000";
     OpportunityDetector.limitingPool := "buy" |}.

Definition analysis_deep : OpportunityDetector.ProfitAnalysis :=
  {| OpportunityDetector.borrowAmount := "50000000000000000000000";
     OpportunityDetector.borrowAmountFormatted := "50000.000000";
     OpportunityDetector.grossProfitPercent := "7.5238";
     OpportunityDetector.grossProfitAmount := "3761.904762";
     OpportunityDetector.flashFeePercent := "0.0500";
     OpportunityDetector.flashFeeAmount := "25.000000";
     OpportunityDetector.totalSlippagePercent := "1.7100";
     OpportunityDetector.slippageCost := "855.000000";
     OpportunityDetector.gasCostUsd := "0.001050";
     OpportunityDetector.netProfitBeforeGas := "2881.904762";
     OpportunityDetector.netProfitAfterGas := "2881.903712";
     OpportunityDetector.profitBps := "576.38";
     OpportunityDetector.slippageAcceptable := true;
     OpportunityDetector.profitAcceptable := true;
     OpportunityDetector.bpsAcceptable := true;
     OpportunityDetector.isViable := true |}.

Definition cycle (detector : OpportunityDetector.t) (prices : list PoolQuote.t)
  : list (OpportunityDetector.Evaluation * CalldataEncoder.ArbitrageParams) :=
  flat_map
    (fun opp =>
       match OpportunityDetector.evaluate detector opp with
       | Some ev =>
           if OpportunityDetector.shouldExecute ev
           then [(ev, CalldataEncoder.buildArbitrageParams encoder0 opp
                        (OpportunityDetector.ev_sizing ev)
                        (OpportunityDetector.ev_profitAnalysis ev))]
           else []
       | None => []
       end)
    (PriceMonitor.findArbitrageOpportunities prices).

(** A chain with one WETH/USDC pool per factory, both in the 500 tier and
    priced some ten percent apart; a node that rejects every read; and a
    host whose [**] is exact on the arguments the monitor passes here. *)

Definition chain0 : PriceMonitor.Chain :=
  {| PriceMonitor.read_getPool := fun factory _ _ feeTier =>
       if PrimFloat.eqb feeTier 500
       then if String.eqb factory Config.UNISWAP_V3_FACTORY then Some "0xA" else Some "0xC"
       else Some Config.ZERO_ADDRESS;
     PriceMonitor.read_slot0 := fun poolAddress =>
       if String.eqb poolAddress "0xA" then Some (4339505179874779489431552%Z, (-196256))
       else Some (4551000000000000000000000%Z, (-195304));
     PriceMonitor.read_liquidity := fun poolAddress =>
       if String.eqb poolAddress "0xA" then Some 5000000000000000000000000%Z
       else Some 7000000000000000000000000%Z;
     PriceMonitor.read_token0 := fun _ => Some Config.WETH;
     PriceMonitor.read_token1 := fun _ => Some Config.USDC;
     PriceMonitor.read_fee := fun _ => Some 500 |}.

Definition chain_down : PriceMonitor.Chain :=
  {| PriceMonitor.read_getPool := fun _ _ _ _ => None;
     PriceMonitor.read_slot0 := fun _ => None;
     PriceMonitor.read_liquidity := fun _ => None;
     PriceMonitor.read_token0 := fun _ => None;
     PriceMonitor.read_token1 := fun _ => None;
     PriceMonitor.read_fee := fun _ => None |}.

Definition host0 : PriceMonitor.Host :=
  {| PriceMonitor.pow := fun base exponent =>
       if PrimFloat.eqb exponent 2 then base * base
       else if PrimFloat.eqb exponent 96 then 79228162514264337593543950336
       else if PrimFloat.eqb exponent 12 then 1e12
       else nan;
     PriceMonitor.Date_now := fun n => 1700000000000 + Number_of_BigInt (Z.of_nat n) |}.

(** The bot as the command line builds it, and an encoder that accepts
    every transaction. *)

Definition bot0 : MaggieBot.t :=
  MaggieBot.constructor
    {| MaggieBot.opt_useAnvil := Some false;
       MaggieBot.opt_executorAddress := None;
       MaggieBot.opt_dryRun := Some true;
       MaggieBot.opt_minProfitUsd := None;
       MaggieBot.opt_maxSlippageBps := None;
       MaggieBot.opt_ethPriceUsd := None |}.

Definition builds0 : Opportunity.t -> OpportunityDetector.SizingResult ->
                     OpportunityDetector.ProfitAnalysis -> bool :=
  fun _ _ _ => true.

End BotScenario.

(* ===================================================================== *)
(** * Part I (continued).  Vocabulary of the bot's properties            *)
(* ===================================================================== *)

Module BotSpec.

(** [signed s x]: the binary64 datum [x] is a NaN, a zero, or carries the
    sign [s]. *)

Definition signed (s : bool) (x : spec_float) : Prop :=
  match x with
  | S754_nan | S754_zero _ => True
  | S754_infinity s' | S754_finite s' _ _ => s' = s
  end.

Definition zero : spec_float := S754_zero false.

(** The pair of quotes has a positive gross margin. *)

Definition profitable (a b : PoolQuote.t) : Prop :=
  (0 <? Opportunity.grossProfitPercent (PriceMonitor.opportunity_of a b))%float = true.

(** No two neighbours of the list are out of the order [comparefn] asks
    for: [comparefn later earlier] is never negative. *)

Fixpoint ordered_by {A : Type} (comparefn : A -> A -> JS.number) (l : list A) : Prop :=
  match l with
  | [] => True
  | x :: rest =>
      match rest with
      | [] => True
      | y :: _ => (comparefn y x <? 0)%float = false /\ ordered_by comparefn rest
      end
  end.

(** The cache holds no zero address. *)

Definition zero_free (poolCache : PriceMonitor.Cache) : Prop :=
  forall key value,
    PriceMonitor.Map_get key poolCache = Some value -> value <> Config.ZERO_ADDRESS.

(** The key under which [getPoolAddress] files a pool. *)

Definition cacheKey (factory tokenA tokenB : string) (fee : JS.number) : string :=
  (factory ++ "-" ++ tokenA ++ "-" ++ tokenB ++ "-" ++ JS.Number_toString fee)%string.

(** The quote [q] is what [getPricesForPair] builds from the answers of
    [client] for the pool of the factory [address] (called [name]) at the
    tier [fee]: the pool is not the zero address and its state was read. *)

Definition read_from (host : PriceMonitor.Host) (client : PriceMonitor.Chain)
  (name address : string) (fee : JS.number) (q : PoolQuote.t) : Prop :=
  PoolQuote.pool q <> Config.ZERO_ADDRESS /\
  PoolQuote.dex q = name /\ PoolQuote.factory q = address /\ PoolQuote.fee q = fee /\
  exists state,
    PriceMonitor.getPoolState client (PoolQuote.pool q) = Some state /\
    PoolQuote.token0 q = PriceMonitor.st_token0 state /\
    PoolQuote.token1 q = PriceMonitor.st_token1 state /\
    PoolQuote.liquidity q = JS.BigInt_toString (PriceMonitor.st_liquidity state) /\
    PoolQuote.price q
    = PriceMonitor.sqrtPriceToPrice host (PriceMonitor.st_sqrtPriceX96 state)
        (PriceMonitor.decimals_or_18 (PriceMonitor.st_token0 state))
        (PriceMonitor.decimals_or_18 (PriceMonitor.st_token1 state)) /\
    PoolQuote.inversePrice q = (1 / PoolQuote.price q)%float.

End BotSpec.

(* ===================================================================== *)
(** * Part II.  Properties of the executor                                *)
(* ===================================================================== *)

Module ExecutorFacts.

Import Executor ExecutorSpec.
Local Open Scope Z_scope.

(** ** Inversion of the error monad *)

Lemma bind_Ok {A B} (r : result A) (k : A -> result B) (b : B) :
  bind r k = Ok b -> exists a, r = Ok a /\ k a = Ok b.
Proof. destruct r as [a|e]; simpl; [eauto | discriminate]. Qed.

Lemma bind_Err {A B} (r : result A) (k : A -> result B) (e : Error) :
  bind r k = Err e -> r = Err e \/ exists a, r = Ok a /\ k a = Err e.
Proof. destruct r as [a|e']; simpl; [eauto | intros [= ->]; auto]. Qed.

Ltac inv_bind H :=
  let a := fresh "a" in
  let Ha := fresh "Ha" in
  apply bind_Ok in H; destruct H as (a & Ha & H).

(** ** The reentrancy lock is restored by every call *)

Lemma transfer_st token from to amount m m' :
  transfer token from to amount m = Ok m' -> st m' = st m /\ log m' = log m.
Proof.
  unfold transfer. intros H. inv_bind H. injection H as <-. auto.
Qed.

Lemma lock_ok_status m m' :
  _status (st m') = _status (st m) -> lock_ok m -> lock_ok m'.
Proof. unfold lock_ok. intros ->. auto. Qed.

Section Lock.

Variable this : address.
Variable aavePool : address.

Lemma executeSwaps_from_keeps_lock (ext : router_call) :
  (forall i r p, keeps_lock (ext i r p)) ->
  forall swaps i, keeps_lock (_executeSwaps_from this ext i swaps).
Proof.
  intros Hext swaps. induction swaps as [|swap rest IH]; intros i m m' Hm H; simpl in H.
  - now injection H as <-.
  - match type of H with context [ext i ?r ?p ?m1] =>
      destruct (ext i r p m1) as [m2|e] eqn:E end;
      [|discriminate].
    apply Hext in E; [|exact Hm].
    apply IH in H; [|eapply lock_ok_status; eauto].
    rewrite H, E. reflexivity.
Qed.

Lemma executeWithAave_keeps_lock (fl : pool_call) params sender :
  (forall r a n d c, keeps_lock (fl r a n d c)) -> keeps_lock (executeWithAave this fl params sender).
Proof.
  intros Hfl m m' Hm H.
  unfold executeWithAave, onlyOwner, whenNotPaused, nonReentrant in H.
  destruct (sender =? owner (st m)); [|discriminate].
  destruct (paused (st m)); [discriminate|].
  destruct (_status (st m) =? ENTERED) eqn:Est; [discriminate|].
  inv_bind H. injection H as <-. simpl.
  destruct Hm as [Hm|Hm]; [now rewrite Hm|].
  rewrite Hm in Est. discriminate.
Qed.

Lemma executeOperation_keeps_lock (ext : router_call)
  asset amount premium initiator params sender :
  (forall i r p, keeps_lock (ext i r p)) ->
  keeps_lock (executeOperation this aavePool ext asset amount premium initiator params sender).
Proof.
  intros Hext m m' Hm H. unfold executeOperation in H.
  destruct (negb (sender =? aavePool)); [discriminate|].
  destruct (negb (initiator =? this)); [discriminate|].
  inv_bind H. inv_bind H. inv_bind H. injection H as <-. simpl.
  eapply executeSwaps_from_keeps_lock; eauto.
Qed.

Lemma uniswapV3FlashCallback_keeps_lock (ext : router_call)
  fee0 fee1 data sender :
  (forall i r p, keeps_lock (ext i r p)) ->
  keeps_lock (uniswapV3FlashCallback this ext fee0 fee1 data sender).
Proof.
  intros Hext m m' Hm H. unfold uniswapV3FlashCallback in H.
  inv_bind H. destruct (cb_swaps a) as [|swap0 rest] eqn:Esw; [discriminate|].
  destruct (negb _); [discriminate|].
  inv_bind H. inv_bind H.
  apply transfer_st in H. destruct H as [-> _].
  eapply executeSwaps_from_keeps_lock; eauto.
Qed.

Lemma admin_keeps_lock :
  (forall newOwner sender, keeps_lock (transferOwnership newOwner sender)) /\
  (forall newVault sender, keeps_lock (setVault newVault sender)) /\
  (forall sender, keeps_lock (togglePause sender)) /\
  (forall bps sender, keeps_lock (setMinProfit bps sender)) /\
  (forall token sender, keeps_lock (emergencyWithdraw this token sender)).
Proof.
  repeat split; intros; intros m m' _ H;
    unfold transferOwnership, setVault, togglePause, setMinProfit,
           emergencyWithdraw, onlyOwner in H;
    destruct (_ =? owner (st m)); try discriminate.
  - destruct (_ =? 0); [discriminate|]. now injection H as <-.
  - destruct (_ =? 0); [discriminate|]. now injection H as <-.
  - now injection H as <-.
  - now injection H as <-.
  - destruct (0 <? _).
    + inv_bind H. injection H as <-. simpl.
      apply transfer_st in Ha. destruct Ha as [-> _]. reflexivity.
    + now injection H as <-.
Qed.

Lemma exec_run_keep_lock :
  (forall c sender, keeps_lock (exec this aavePool c sender)) /\
  (forall e, keeps_lock (run this aavePool e)).
Proof.
  destruct admin_keeps_lock as (A1 & A2 & A3 & A4 & A5).
  apply Call_Ext_mutind; intros; simpl.
  - now apply executeWithAave_keeps_lock.
  - now apply executeOperation_keeps_lock.
  - now apply uniswapV3FlashCallback_keeps_lock.
  - apply A1.
  - apply A2.
  - apply A3.
  - apply A4.
  - apply A5.
  - intros m m' _ [= <-]. reflexivity.
  - intros m m' _ [=].
  - intros m m' Hm Hr. simpl in Hr. apply H in Hr; [exact Hr | exact Hm].
  - intros m m' Hm Hr. simpl in Hr.
    destruct (exec this aavePool c sender m) as [m1|err] eqn:E.
    + apply H in E; [|exact Hm].
      apply H0 in Hr; [|eapply lock_ok_status; eauto].
      now rewrite Hr.
    + apply H0 in Hr; auto.
Qed.

(** Foreign code that runs while the lock is held makes all its calls, at
    every depth, with the lock held; and all calls made from within
    [executeWithAave] are made so. *)

Lemma before_swap_st swap m : st (before_swap this swap m) = st m.
Proof. reflexivity. Qed.

Lemma occurs_lock :
  (forall e m x,
      occurs_run this aavePool e m x ->
      _status (st m) = ENTERED -> status_at x = ENTERED) /\
  (forall c sender m x,
      occurs_call this aavePool c sender m x ->
      (_status (st m) = ENTERED -> status_at x = ENTERED) /\
      (is_executeWithAave c = true -> status_at x = ENTERED)) /\
  (forall routers i swaps m x,
      occurs_swaps this aavePool routers i swaps m x ->
      _status (st m) = ENTERED -> status_at x = ENTERED).
Proof.
  destruct exec_run_keep_lock as [Hexec Hrun].
  apply occurs_mutind.
  - intros f k m x _ IH Hm. apply IH. exact Hm.
  - intros sender c k m Hm. exact Hm.
  - intros sender c k m x _ [IH _] Hm. auto.
  - intros sender c k m m' x E _ IH Hm. apply IH.
    rewrite <- Hm. eapply Hexec; eauto. right. exact Hm.
  - intros sender c k m e x _ _ IH Hm. auto.
  - intros params pool sender m x _ _ _ _ _ _ IH. split; intros _; now apply IH.
  - intros asset amount premium initiator d routers sender m x _ _ _ IH.
    split; [exact IH | discriminate].
  - intros fee0 fee1 d routers sender m x swap0 rest _ _ _ IH.
    split; [exact IH | discriminate].
  - intros routers i swap rest m x _ IH Hm. apply IH. exact Hm.
  - intros routers i swap rest m m' x E _ IH Hm. apply IH.
    rewrite <- Hm.
    apply (Hrun (routers i) (before_swap this swap m) m'); [right; exact Hm | exact E].
Qed.

End Lock.

(** ** Nothing on any path depends on [minProfitBps] *)

Lemma alike_refl m : alike m m.
Proof. unfold alike, alike_st. auto. Qed.

Lemma alike_world m1 m2 : alike m1 m2 -> world m1 = world m2.
Proof. intros (_ & H & _). exact H. Qed.

Lemma alike_set_world m1 m2 w : alike m1 m2 -> alike (set_world m1 w) (set_world m2 w).
Proof. intros (H & _ & L). unfold alike. simpl. auto. Qed.

Lemma alike_emit m1 m2 e1 e2 :
  blank e1 = blank e2 -> alike m1 m2 -> alike (emit e1 m1) (emit e2 m2).
Proof.
  intros He (H & W & L). unfold alike. simpl.
  rewrite !map_app, L. simpl. rewrite He. auto.
Qed.

Lemma alike_set_status m1 m2 v :
  alike m1 m2 -> alike (set_status v m1) (set_status v m2).
Proof. intros ((O & V & P & S) & W & L). unfold alike, alike_st. simpl. auto. Qed.

Lemma alike_approve m1 m2 t h s a :
  alike m1 m2 -> alike (approve t h s a m1) (approve t h s a m2).
Proof.
  intros H. unfold approve. rewrite (alike_world H). now apply alike_set_world.
Qed.

Lemma alike_bind (r1 r2 : result Machine) (k1 k2 : Machine -> result Machine) :
  alike_result r1 r2 ->
  (forall a b, alike a b -> alike_result (k1 a) (k2 b)) ->
  alike_result (bind r1 k1) (bind r2 k2).
Proof.
  destruct r1, r2; simpl; intros H Hk; try contradiction; auto.
Qed.

Lemma alike_high_level_call (r1 r2 : result Machine) :
  alike_result r1 r2 -> alike_result (high_level_call r1) (high_level_call r2).
Proof.
  destruct r1 as [a|e1], r2 as [b|e2]; simpl; intros H; try contradiction; auto.
  subst e2. destruct e1; reflexivity.
Qed.

Lemma high_level_call_Ok (r : result Machine) m :
  high_level_call r = Ok m -> r = Ok m.
Proof. destruct r as [a|e]; [auto | destruct e; discriminate]. Qed.

Lemma alike_transfer t f to a m1 m2 :
  alike m1 m2 -> alike_result (transfer t f to a m1) (transfer t f to a m2).
Proof.
  intros H. unfold transfer. rewrite (alike_world H).
  destruct (erc20_transfer t f to a (world m2)); simpl; [|reflexivity].
  now apply alike_set_world.
Qed.

Section Blind.

Variable this : address.
Variable aavePool : address.

Lemma executeSwaps_from_blind (ext : router_call) :
  (forall i r p, blind (ext i r p)) ->
  forall swaps i, blind (_executeSwaps_from this ext i swaps).
Proof.
  intros Hext swaps. induction swaps as [|swap rest IH]; intros i m1 m2 Hm; simpl.
  - exact Hm.
  - rewrite (alike_world Hm).
    set (a := if amountIn swap =? 0 then _ else _).
    match goal with |- context [ext i ?r ?p (approve _ _ _ _ m1)] =>
      pose proof (Hext i r p _ _ (alike_approve (tokenIn swap) this (router swap) a Hm)) as He;
      destruct (ext i r p (approve _ _ _ _ m1)), (ext i r p (approve _ _ _ _ m2))
    end;
      simpl in He; try contradiction; [|now rewrite He].
    now apply IH.
Qed.

Lemma executeWithAave_blind (fl : pool_call) params sender :
  (forall r a n d c, blind (fl r a n d c)) -> blind (executeWithAave this fl params sender).
Proof.
  intros Hfl m1 m2 Hm.
  pose proof Hm as ((O & V & P & S) & W & L).
  unfold executeWithAave, onlyOwner, whenNotPaused, nonReentrant.
  rewrite <- O, <- P, <- S.
  destruct (sender =? owner (st m1)); [|reflexivity].
  destruct (paused (st m1)); [reflexivity|].
  destruct (_status (st m1) =? ENTERED); [reflexivity|].
  apply alike_bind; [|intros a b Hab; now apply alike_set_status].
  destruct (borrowAmount params =? 0); [reflexivity|].
  destruct (_ =? _)%nat; [reflexivity|].
  apply alike_bind; [apply alike_high_level_call, Hfl; now apply alike_set_status|].
  intros a b Hab. simpl. rewrite W, (alike_world Hab).
  destruct (checked_sub _ _) as [profit|e]; simpl; [|reflexivity].
  apply alike_bind.
  - destruct (0 <? profit); [|exact Hab].
    destruct Hab as ((O' & V' & P' & S') & W' & L') eqn:E. rewrite V'.
    apply alike_transfer. unfold alike, alike_st. auto.
  - intros a' b' Hab'. simpl. now apply alike_emit.
Qed.

Lemma executeOperation_blind (ext : router_call)
  asset amount premium initiator params sender :
  (forall i r p, blind (ext i r p)) ->
  blind (executeOperation this aavePool ext asset amount premium initiator params sender).
Proof.
  intros Hext m1 m2 Hm. unfold executeOperation.
  destruct (negb (sender =? aavePool)); [reflexivity|].
  destruct (negb (initiator =? this)); [reflexivity|].
  destruct (abi_decode params) as [data|e]; simpl; [|reflexivity].
  apply alike_bind; [now apply executeSwaps_from_blind|].
  intros a b Hab. rewrite (alike_world Hab).
  destruct (verifyProfit _ _ _ _); simpl; [|reflexivity].
  now apply alike_approve.
Qed.

Lemma uniswapV3FlashCallback_blind (ext : router_call)
  fee0 fee1 data sender :
  (forall i r p, blind (ext i r p)) ->
  blind (uniswapV3FlashCallback this ext fee0 fee1 data sender).
Proof.
  intros Hext m1 m2 Hm. unfold uniswapV3FlashCallback.
  destruct (abi_decode data) as [d|e]; simpl; [|reflexivity].
  destruct (cb_swaps d) as [|swap0 rest] eqn:Esw; [reflexivity|].
  rewrite (alike_world Hm).
  destruct (negb _); [reflexivity|].
  apply alike_bind; [rewrite <- Esw; now apply executeSwaps_from_blind|].
  intros a b Hab. rewrite (alike_world Hab).
  destruct (verifyProfit _ _ _ _); simpl; [|reflexivity].
  now apply alike_transfer.
Qed.

Lemma admin_blind :
  (forall newOwner sender, blind (transferOwnership newOwner sender)) /\
  (forall newVault sender, blind (setVault newVault sender)) /\
  (forall sender, blind (togglePause sender)) /\
  (forall bps sender, blind (setMinProfit bps sender)) /\
  (forall token sender, blind (emergencyWithdraw this token sender)).
Proof.
  repeat split; intros; intros m1 m2 Hm;
    pose proof Hm as ((O & V & P & S) & W & L);
    unfold transferOwnership, setVault, togglePause, setMinProfit,
           emergencyWithdraw, onlyOwner;
    rewrite <- O; destruct (_ =? owner (st m1)); try reflexivity.
  - destruct (_ =? 0); [reflexivity|]. simpl.
    unfold alike, alike_st. simpl. rewrite !map_app, L. simpl. auto 10.
  - destruct (_ =? 0); [reflexivity|]. simpl.
    unfold alike, alike_st. simpl. rewrite !map_app, L, V. simpl. auto 10.
  - simpl. unfold alike, alike_st. simpl. rewrite !map_app, L, P. simpl. auto 10.
  - simpl. unfold alike, alike_st. simpl. rewrite !map_app, L. simpl. auto 10.
  - rewrite W, V. destruct (0 <? _); [|exact Hm].
    apply alike_bind; [now apply alike_transfer|].
    intros a b Hab. simpl. now apply alike_emit.
Qed.

Lemma exec_run_blind :
  (forall c sender, blind (exec this aavePool c sender)) /\
  (forall e, blind (run this aavePool e)).
Proof.
  destruct admin_blind as (A1 & A2 & A3 & A4 & A5).
  apply Call_Ext_mutind; intros; simpl.
  - now apply executeWithAave_blind.
  - now apply executeOperation_blind.
  - now apply uniswapV3FlashCallback_blind.
  - apply A1.
  - apply A2.
  - apply A3.
  - apply A4.
  - apply A5.
  - intros m1 m2 Hm. exact Hm.
  - intros m1 m2 Hm. reflexivity.
  - intros m1 m2 Hm. simpl. rewrite (alike_world Hm).
    apply H. now apply alike_set_world.
  - intros m1 m2 Hm. simpl.
    pose proof (H sender _ _ Hm) as Hc.
    destruct (exec this aavePool c sender m1), (exec this aavePool c sender m2);
      simpl in Hc; try contradiction.
    + now apply H0.
    + subst. now apply H0.
Qed.

End Blind.

End ExecutorFacts.

(** ** The profit check *)

Module SettlementFacts.

Import Executor ExecutorSpec Scenario ExecutorFacts.
Local Open Scope Z_scope.

Lemma verifyProfit_Ok borrowed premium minProfit balance owed :
  verifyProfit borrowed premium minProfit balance = Ok owed ->
  owed = borrowed + premium /\ borrowed + premium + minProfit <= balance.
Proof.
  unfold verifyProfit, checked_add, checked_sub.
  destruct (borrowed + premium <=? MAX_UINT256); simpl; [|discriminate].
  destruct (borrowed + premium + minProfit <=? MAX_UINT256); simpl; [|discriminate].
  destruct (balance <? borrowed + premium + minProfit) eqn:E.
  - destruct (borrowed + premium <=? balance); discriminate.
  - intros [= <-]. apply Z.ltb_ge in E. auto.
Qed.

Lemma verifyProfit_InsufficientProfit borrowed premium minProfit balance p r :
  verifyProfit borrowed premium minProfit balance = Err (InsufficientProfit p r) ->
  borrowed + premium <= balance < borrowed + premium + minProfit /\
  p = balance - (borrowed + premium) /\ r = minProfit.
Proof.
  unfold verifyProfit, checked_add, checked_sub.
  destruct (borrowed + premium <=? MAX_UINT256); simpl; [|discriminate].
  destruct (borrowed + premium + minProfit <=? MAX_UINT256); simpl; [|discriminate].
  destruct (balance <? borrowed + premium + minProfit) eqn:E; [|discriminate].
  destruct (borrowed + premium <=? balance) eqn:E'; simpl; [|discriminate].
  intros [= <- <-]. apply Z.ltb_lt in E. apply Z.leb_le in E'. auto.
Qed.

Lemma verifyProfit_principal_lost borrowed premium minProfit balance :
  0 <= minProfit -> balance < borrowed + premium ->
  verifyProfit borrowed premium minProfit balance = Err (Panic PANIC_ARITHMETIC).
Proof.
  intros Hmin Hlt. unfold verifyProfit, checked_add, checked_sub.
  destruct (borrowed + premium <=? MAX_UINT256); simpl; [|reflexivity].
  destruct (borrowed + premium + minProfit <=? MAX_UINT256); simpl; [|reflexivity].
  replace (balance <? borrowed + premium + minProfit) with true
    by (symmetry; apply Z.ltb_lt; lia).
  replace (borrowed + premium <=? balance) with false
    by (symmetry; apply Z.leb_gt; lia).
  reflexivity.
Qed.

(** At the boundary the check passes, one unit below it reports a profit one
    short of the floor (when nothing overflows and the floor is positive). *)

Lemma verifyProfit_boundary borrowed premium minProfit :
  0 <= minProfit -> borrowed + premium + minProfit <= MAX_UINT256 ->
  verifyProfit borrowed premium minProfit (borrowed + premium + minProfit)
  = Ok (borrowed + premium).
Proof.
  intros Hmin H. unfold verifyProfit, checked_add.
  replace (borrowed + premium <=? MAX_UINT256) with true
    by (symmetry; apply Z.leb_le; lia).
  simpl.
  replace (borrowed + premium + minProfit <=? MAX_UINT256) with true
    by (symmetry; apply Z.leb_le; lia).
  simpl. now rewrite Z.ltb_irrefl.
Qed.

Lemma verifyProfit_one_short borrowed premium minProfit :
  0 < minProfit -> borrowed + premium + minProfit <= MAX_UINT256 ->
  verifyProfit borrowed premium minProfit (borrowed + premium + minProfit - 1)
  = Err (InsufficientProfit (minProfit - 1) minProfit).
Proof.
  intros Hmin H. unfold verifyProfit, checked_add, checked_sub.
  replace (borrowed + premium <=? MAX_UINT256) with true
    by (symmetry; apply Z.leb_le; lia).
  simpl.
  replace (borrowed + premium + minProfit <=? MAX_UINT256) with true
    by (symmetry; apply Z.leb_le; lia).
  simpl.
  replace (borrowed + premium + minProfit - 1 <? borrowed + premium + minProfit)
    with true by (symmetry; apply Z.ltb_lt; lia).
  replace (borrowed + premium <=? borrowed + premium + minProfit - 1) with true
    by (symmetry; apply Z.leb_le; lia).
  simpl. do 2 f_equal. lia.
Qed.

(** One turn of the loop of [_executeSwaps]. *)

Lemma executeSwaps_from_cons this (ext : router_call) i swap rest m :
  _executeSwaps_from this ext i (swap :: rest) m
  = match ext i (router swap)
            {| p_tokenIn := tokenIn swap; p_tokenOut := tokenOut swap;
               p_fee := fee swap; p_recipient := this;
               p_amountIn := allowance (world (before_swap this swap m))
                               (tokenIn swap) this (router swap);
               p_amountOutMinimum := minAmountOut swap;
               p_sqrtPriceLimitX96 := 0 |}
            (before_swap this swap m) with
    | Ok m2 => _executeSwaps_from this ext (S i) rest m2
    | Err e => Err (try_catch i e)
    end.
Proof.
  simpl. unfold before_swap, approve, erc20_approve. simpl.
  rewrite !Z.eqb_refl. reflexivity.
Qed.

(** The loop fails in two ways only: a router's revert, caught and turned
    into [SwapFailed], or the data-less revert of a call site whose own
    checks fail. *)

Lemma executeSwaps_from_errors this (ext : router_call) swaps :
  forall i m e, _executeSwaps_from this ext i swaps m = Err e ->
                e = DecodeFailure \/ exists j, e = SwapFailed j.
Proof.
  induction swaps as [|swap rest IH]; intros i m e H; simpl in H; [discriminate|].
  match type of H with context [ext i ?r ?p ?m1] =>
    destruct (ext i r p m1) as [m2|err] end.
  - eapply IH; eauto.
  - injection H as <-. destruct err; simpl; eauto.
Qed.

End SettlementFacts.

(** ** The claims about the executor *)

Module ExecutorClaims.

Import Executor ExecutorSpec Scenario ExecutorFacts SettlementFacts.
Local Open Scope Z_scope.

(** C1 (as amended).  [executeOperation] rejects every caller other than
    [aavePool] with [InvalidCallbackCaller] whatever the payload, and a call
    from the pool whose initiator is not the executor with [Unauthorized].
    [uniswapV3FlashCallback] has no configured pool: it resolves the expected
    one from the first swap of the decoded payload, rejects any other caller
    of a payload with at least one swap with [InvalidCallbackCaller], and
    never completes for a caller that is not that pool. *)
Theorem C1_callback_caller_checks :
  forall (this aavePool : address) (ext : router_call) (sender : address) (m : Machine),
    (forall asset amount premium initiator params,
        sender <> aavePool ->
        executeOperation this aavePool ext asset amount premium initiator params sender m
        = Err InvalidCallbackCaller) /\
    (forall asset amount premium initiator params,
        sender = aavePool -> initiator <> this ->
        executeOperation this aavePool ext asset amount premium initiator params sender m
        = Err Unauthorized) /\
    (forall fee0 fee1 d swap0 rest,
        cb_swaps d = swap0 :: rest ->
        sender <> getPool (world m) (tokenIn swap0) (tokenOut swap0) (fee swap0) ->
        uniswapV3FlashCallback this ext fee0 fee1 (abi_encode d) sender m
        = Err InvalidCallbackCaller) /\
    (forall fee0 fee1 data m',
        uniswapV3FlashCallback this ext fee0 fee1 data sender m = Ok m' ->
        exists d swap0 rest,
          data = abi_encode d /\ cb_swaps d = swap0 :: rest /\
          sender = getPool (world m) (tokenIn swap0) (tokenOut swap0) (fee swap0)).
Proof.
  intros this aavePool ext sender m. repeat split.
  - intros asset amount premium initiator params Hs. unfold executeOperation.
    apply Z.eqb_neq in Hs. now rewrite Hs.
  - intros asset amount premium initiator params -> Hi. unfold executeOperation.
    rewrite Z.eqb_refl. apply Z.eqb_neq in Hi. now rewrite Hi.
  - intros fee0 fee1 d swap0 rest Hsw Hs. unfold uniswapV3FlashCallback. simpl.
    rewrite Hsw. apply Z.eqb_neq in Hs. now rewrite Hs.
  - intros fee0 fee1 data m' H. unfold uniswapV3FlashCallback in H.
    destruct data as [d|raw]; simpl in H; [|discriminate].
    destruct (cb_swaps d) as [|swap0 rest] eqn:Hsw; [discriminate|].
    destruct (sender =? getPool _ _ _ _) eqn:E; simpl in H; [|discriminate].
    apply Z.eqb_eq in E. exists d, swap0, rest. auto.
Qed.

Lemma C1_callback_caller_checks_witness :
  executeOperation THIS AAVE_POOL idle_router TOKEN_A 1000 5 THIS (malformed [0])
    ATTACKER machine0 = Err InvalidCallbackCaller /\
  executeOperation THIS AAVE_POOL idle_router TOKEN_A 1000 5 ATTACKER (abi_encode no_swaps)
    AAVE_POOL machine0 = Err Unauthorized /\
  uniswapV3FlashCallback THIS idle_router 5 0 (abi_encode one_swap) ATTACKER machine0
    = Err InvalidCallbackCaller.
Proof.
  destruct (C1_callback_caller_checks THIS AAVE_POOL idle_router ATTACKER machine0)
    as (H1 & _ & H3 & _).
  destruct (C1_callback_caller_checks THIS AAVE_POOL idle_router AAVE_POOL machine0)
    as (_ & H2 & _).
  split; [|split].
  - apply H1. discriminate.
  - apply H2; [reflexivity | discriminate].
  - eapply H3; [reflexivity | discriminate].
Defined.

(** C1 as stated fails for [uniswapV3FlashCallback]: called by an address
    that is no pool at all, with a payload whose swap list is empty, it
    aborts on the array index before the caller is ever looked at; with a
    payload that does not decode it aborts in the decoder. *)
Lemma C1_counterexample :
  (forall a b f, getPool (world machine0) a b f <> ATTACKER) /\
  ATTACKER <> AAVE_POOL /\
  uniswapV3FlashCallback THIS idle_router 5 0 (abi_encode no_swaps) ATTACKER machine0
    = Err (Panic PANIC_INDEX) /\
  uniswapV3FlashCallback THIS idle_router 5 0 (abi_encode no_swaps) ATTACKER machine0
    <> Err InvalidCallbackCaller /\
  uniswapV3FlashCallback THIS idle_router 5 0 (malformed [0]) ATTACKER machine0
    <> Err InvalidCallbackCaller.
Proof.
  repeat split; try discriminate; reflexivity.
Qed.

(** C2 (failing input).  With 1005 owed and a floor of 10, a balance of 900
    is below [amountOwed + minProfit], yet the callback does not revert with
    [InsufficientProfit]: computing the reported profit [balance - amountOwed]
    underflows and the call aborts with [Panic(0x11)], both when the callback
    is entered directly and through a whole [executeWithAave]. *)
Theorem C2_principal_loss_is_a_panic :
  executeOperation THIS AAVE_POOL idle_router TOKEN_A 1000 5 THIS (abi_encode no_swaps)
    AAVE_POOL (funded 900) = Err (Panic PANIC_ARITHMETIC) /\
  exec THIS AAVE_POOL (arbitrage 900) OWNER machine0 = Err (Panic PANIC_ARITHMETIC).
Proof. split; vm_compute; reflexivity. Qed.

(** C10.  In [executeOperation], once the caller checks pass, the payload
    decodes and the swaps have run, a balance below [amount + premium] makes
    the call abort with the arithmetic panic; and whenever the call reverts
    with [InsufficientProfit p r], the swaps did run and the balance lies in
    [amountOwed, amountOwed + minProfit), with [p = balance - amountOwed]
    and [r = minProfit]. *)
Theorem C10_insufficient_profit_needs_principal :
  forall (this aavePool : address) (ext : router_call) asset amount premium
         initiator params sender (m : Machine),
    (forall data m1,
        sender = aavePool -> initiator = this ->
        abi_decode params = Ok data ->
        _executeSwaps this ext (cb_swaps data) m = Ok m1 ->
        0 <= cb_minProfit data ->
        balanceOf (world m1) asset this < amount + premium ->
        executeOperation this aavePool ext asset amount premium initiator params sender m
        = Err (Panic PANIC_ARITHMETIC)) /\
    (forall p r,
        executeOperation this aavePool ext asset amount premium initiator params sender m
        = Err (InsufficientProfit p r) ->
        exists data m1,
          abi_decode params = Ok data /\
          _executeSwaps this ext (cb_swaps data) m = Ok m1 /\
          amount + premium <= balanceOf (world m1) asset this
                           < amount + premium + cb_minProfit data /\
          p = balanceOf (world m1) asset this - (amount + premium) /\
          r = cb_minProfit data).
Proof.
  intros this aavePool ext asset amount premium initiator params sender m. split.
  - intros data m1 -> -> Hd Hs Hmin Hlt. unfold executeOperation.
    rewrite !Z.eqb_refl, Hd. simpl. rewrite Hs. simpl.
    now rewrite verifyProfit_principal_lost.
  - intros p r H. unfold executeOperation in H.
    destruct (negb (sender =? aavePool)); [discriminate|].
    destruct (negb (initiator =? this)); [discriminate|].
    destruct params as [data|raw]; simpl in H; [|discriminate].
    destruct (_executeSwaps this ext (cb_swaps data) m) as [m1|e] eqn:Hs; simpl in H.
    + destruct (verifyProfit amount premium (cb_minProfit data)
                  (balanceOf (world m1) asset this)) as [owed|e] eqn:Hv;
        simpl in H; [discriminate|].
      injection H as ->. apply verifyProfit_InsufficientProfit in Hv.
      exists data, m1. intuition.
    + injection H as ->. apply executeSwaps_from_errors in Hs.
      destruct Hs as [Hj|[j Hj]]; discriminate.
Qed.

Lemma C10_insufficient_profit_needs_principal_witness :
  executeOperation THIS AAVE_POOL idle_router TOKEN_A 1000 5 THIS (abi_encode no_swaps)
    AAVE_POOL (funded 900) = Err (Panic PANIC_ARITHMETIC) /\
  exists data m1,
    abi_decode (abi_encode no_swaps) = Ok data /\
    _executeSwaps THIS idle_router (cb_swaps data) (funded 1014) = Ok m1 /\
    1000 + 5 <= balanceOf (world m1) TOKEN_A THIS < 1000 + 5 + cb_minProfit data /\
    9 = balanceOf (world m1) TOKEN_A THIS - (1000 + 5) /\
    10 = cb_minProfit data.
Proof.
  destruct (C10_insufficient_profit_needs_principal THIS AAVE_POOL idle_router TOKEN_A
              1000 5 THIS (abi_encode no_swaps) AAVE_POOL (funded 900)) as [H1 _].
  destruct (C10_insufficient_profit_needs_principal THIS AAVE_POOL idle_router TOKEN_A
              1000 5 THIS (abi_encode no_swaps) AAVE_POOL (funded 1014)) as [_ H2].
  split.
  - apply (H1 no_swaps (funded 900)); try reflexivity.
    + vm_compute. discriminate.
  - apply H2. vm_compute. reflexivity.
Defined.

(** C8 (as amended).  Every call that foreign code makes from within an
    [executeWithAave], at whatever depth, is made with the lock held; such a
    call is rejected if it is an [executeWithAave] (as [Unauthorized],
    [Paused] or [ReentrancyGuard]), and if it is an administrative call whose
    caller is not the owner (as [Unauthorized]): the administrative functions
    are owner-gated only and do not look at the lock.  With the lock held
    [executeWithAave] is rejected for every caller, and foreign code leaves
    the lock held.  Every completed call leaves the lock as it found it, so
    the lock is [NOT_ENTERED] after the constructor and after every
    top-level call. *)
Theorem C8_lock_discipline :
  forall (this aavePool : address),
    (forall params pool sender m sender' c' m',
        occurs_call this aavePool (Call_executeWithAave params pool) sender m
                    (sender', c', m') ->
        _status (st m') = ENTERED /\
        (is_executeWithAave c' = true ->
         exists e,
           exec this aavePool c' sender' m' = Err e /\
           (e = Unauthorized \/ e = Paused \/ e = ReentrancyGuard)) /\
        (is_admin c' = true -> sender' <> owner (st m') ->
         exec this aavePool c' sender' m' = Err Unauthorized)) /\
    (forall params pool sender m,
        _status (st m) = ENTERED ->
        exists e,
          exec this aavePool (Call_executeWithAave params pool) sender m = Err e /\
          (e = Unauthorized \/ e = Paused \/ e = ReentrancyGuard)) /\
    (forall c sender m,
        is_admin c = true -> sender <> owner (st m) ->
        exec this aavePool c sender m = Err Unauthorized) /\
    (forall c sender m m',
        lock_ok m -> exec this aavePool c sender m = Ok m' ->
        _status (st m') = _status (st m)) /\
    (forall e m m',
        _status (st m) = ENTERED -> run this aavePool e m = Ok m' ->
        _status (st m') = ENTERED) /\
    (forall c sender m,
        _status (st m) = NOT_ENTERED ->
        _status (st (transact this aavePool c sender m)) = NOT_ENTERED) /\
    (forall sender v bps s,
        constructor sender v bps = Ok s -> _status s = NOT_ENTERED).
Proof.
  intros this aavePool.
  destruct (exec_run_keep_lock this aavePool) as [Hexec Hrun].
  assert (Hlocked : forall params pool sender m,
             _status (st m) = ENTERED ->
             exists e,
               exec this aavePool (Call_executeWithAave params pool) sender m = Err e /\
               (e = Unauthorized \/ e = Paused \/ e = ReentrancyGuard)).
  { intros params pool sender m Hm. simpl.
    unfold executeWithAave, onlyOwner, whenNotPaused, nonReentrant.
    destruct (sender =? owner (st m)); [|eauto].
    destruct (paused (st m)); [eauto|].
    rewrite Hm. simpl. eauto 6. }
  assert (Hadmin : forall c sender m,
             is_admin c = true -> sender <> owner (st m) ->
             exec this aavePool c sender m = Err Unauthorized).
  { intros c sender m Hc Hs. apply Z.eqb_neq in Hs.
    destruct c; try discriminate; simpl;
      unfold transferOwnership, setVault, togglePause, setMinProfit,
             emergencyWithdraw, onlyOwner; now rewrite Hs. }
  split; [|split; [exact Hlocked|split; [exact Hadmin|]]].
  - intros params pool sender m sender' c' m' Hocc.
    destruct (occurs_lock this aavePool) as (_ & Hcall & _).
    apply Hcall in Hocc. destruct Hocc as [_ Hst].
    specialize (Hst eq_refl). unfold status_at in Hst. simpl in Hst.
    split; [exact Hst|]. split.
    + intros Hc. destruct c'; try discriminate. now apply Hlocked.
    + apply Hadmin.
  - repeat split.
    + intros c sender m m' Hm H. eapply Hexec; eauto.
    + intros e m m' Hm H. rewrite <- Hm. eapply Hrun; eauto. right. exact Hm.
    + intros c sender m Hm. unfold transact.
      destruct (exec this aavePool c sender m) as [m'|e] eqn:E; [|exact Hm].
      rewrite <- Hm. eapply Hexec; eauto. left. exact Hm.
    + intros sender v bps s H. unfold constructor in H.
      destruct (v =? 0); [discriminate|]. now injection H as <-.
Qed.

Lemma C8_lock_discipline_witness :
  (_status (st machine_locked) = ENTERED /\
   exec THIS AAVE_POOL Call_togglePause ATTACKER machine_locked = Err Unauthorized) /\
  (exists e,
      exec THIS AAVE_POOL (arbitrage 1015) OWNER machine_locked = Err e /\
      (e = Unauthorized \/ e = Paused \/ e = ReentrancyGuard)) /\
  _status (st (transact THIS AAVE_POOL (arbitrage 1015) OWNER machine0)) = NOT_ENTERED.
Proof.
  destruct (C8_lock_discipline THIS AAVE_POOL) as (H0 & H1 & _ & _ & _ & H6 & _).
  split; [|split].
  - destruct (H0 params0 (CallIn ATTACKER Call_togglePause (fun _ => Return))
                 OWNER machine0 ATTACKER Call_togglePause machine_locked)
      as (Hst & _ & Hadm).
    + apply occurs_executeWithAave; try reflexivity; try discriminate.
      apply occurs_here.
    + split; [exact Hst|]. apply Hadm; [reflexivity | discriminate].
  - apply H1. reflexivity.
  - apply H6. reflexivity.
Defined.

(** C8 as stated fails for the administrative functions: with the lock
    held, [togglePause] called in the owner's name goes through, and so it
    does when the pool's code makes that call in the middle of an
    [executeWithAave], which then completes with the contract paused. *)
Lemma C8_counterexample :
  _status (st machine_locked) = ENTERED /\
  occurs_call THIS AAVE_POOL (Call_executeWithAave params0 meddling_pool) OWNER machine0
              (OWNER, Call_togglePause, machine_locked) /\
  (exists m',
      exec THIS AAVE_POOL Call_togglePause OWNER machine_locked = Ok m' /\
      paused (st m') = true /\ _status (st m') = ENTERED) /\
  (exists m',
      exec THIS AAVE_POOL (Call_executeWithAave params0 meddling_pool) OWNER machine0
      = Ok m' /\
      paused (st m') = true /\ log m' = [PauseToggled true; ArbitrageExecuted TOKEN_A 1000 0]).
Proof.
  split; [reflexivity|]. split.
  { apply occurs_executeWithAave; try reflexivity; try discriminate.
    apply occurs_here. }
  split; eexists; (split; [vm_compute; reflexivity|]); split; reflexivity.
Qed.

(** C9.  Two runs of [executeWithAave] (and of the [executeOperation]
    callback) from machines that differ only in the stored [minProfitBps],
    against the same foreign code, end alike: both revert with the same
    error, or both complete with the same ledgers (hence the same profit
    moved to the vault), the same storage up to [minProfitBps] and the same
    events up to the old value a [MinProfitUpdated] reports.  The floor a
    completed callback has enforced is the [minProfit] of its payload, which
    for the payload [executeWithAave] builds is that of the submitted
    parameters. *)
Theorem C9_minProfitBps_never_read :
  forall (this aavePool : address) (sender : address) (m1 m2 : Machine),
    alike m1 m2 ->
    (forall params pool,
        alike_result (exec this aavePool (Call_executeWithAave params pool) sender m1)
                     (exec this aavePool (Call_executeWithAave params pool) sender m2)) /\
    (forall asset amount premium initiator payload routers,
        alike_result
          (exec this aavePool
             (Call_executeOperation asset amount premium initiator payload routers) sender m1)
          (exec this aavePool
             (Call_executeOperation asset amount premium initiator payload routers) sender m2)) /\
    (forall ext asset amount premium initiator d m',
        executeOperation this aavePool ext asset amount premium initiator (abi_encode d)
          sender m1 = Ok m' ->
        amount + premium + cb_minProfit d <= balanceOf (world m') asset this) /\
    (forall params,
        exists d, abi_decode (callbackData params) = Ok d /\
                  cb_minProfit d = minProfit params).
Proof.
  intros this aavePool sender m1 m2 Hm.
  destruct (exec_run_blind this aavePool) as [Hexec _].
  split; [|split; [|split]]; [| | |intros params; eexists; split; reflexivity].
  - intros params pool. now apply Hexec.
  - intros. now apply Hexec.
  - intros ext asset amount premium initiator d m' H. unfold executeOperation in H.
    destruct (negb (sender =? aavePool)); [discriminate|].
    destruct (negb (initiator =? this)); [discriminate|].
    simpl in H. inv_bind H. inv_bind H. injection H as <-.
    apply verifyProfit_Ok in Ha0. simpl. lia.
Qed.

Lemma C9_minProfitBps_never_read_witness :
  alike_result
    (exec THIS AAVE_POOL (arbitrage 1015) OWNER machine0)
    (exec THIS AAVE_POOL (arbitrage 1015) OWNER (set_minProfitBps 9999 machine0)).
Proof.
  apply (C9_minProfitBps_never_read THIS AAVE_POOL OWNER
           (m1 := machine0) (m2 := set_minProfitBps 9999 machine0)).
  unfold alike, alike_st. simpl. auto.
Defined.

End ExecutorClaims.

(* ===================================================================== *)
(** * Part II (continued).  Signs and order of binary64 arithmetic       *)
(* ===================================================================== *)

Module FloatFacts.

Import BotSpec.
Local Open Scope Z_scope.

Lemma signed_true_not_pos x : signed true x -> SFltb zero x = false.
Proof. destruct x as [s| s | |s m e]; simpl; intros H; subst; reflexivity. Qed.

Lemma signed_false_not_neg x : signed false x -> SFltb x zero = false.
Proof. destruct x as [s| s | |s m e]; simpl; intros H; subst; reflexivity. Qed.

Lemma not_neg_signed x : SFltb x zero = false -> signed false x.
Proof. destruct x as [s| [|] | |[|] m e]; simpl; intros H; auto; discriminate. Qed.

Lemma pos_cases x :
  SFltb zero x = true ->
  x = S754_infinity false \/ exists m e, x = S754_finite false m e.
Proof.
  destruct x as [s| [|] | |[|] m e]; simpl; intros H; try discriminate; eauto.
Qed.

Lemma binary_round_aux_signed sx mx ex lx :
  signed sx (binary_round_aux prec emax sx mx ex lx).
Proof.
  unfold binary_round_aux.
  destruct (shr_fexp prec emax mx ex lx) as [mrs' e'].
  destruct (shr_fexp prec emax _ e' loc_Exact) as [mrs'' e''].
  destruct (shr_m mrs''); simpl; auto.
  match goal with |- context [if ?c then _ else _] => destruct c end; reflexivity.
Qed.

Lemma binary_round_signed sx mx ex : signed sx (binary_round prec emax sx mx ex).
Proof.
  unfold binary_round. destruct (shl_align _ _ _) as [mz ez].
  apply binary_round_aux_signed.
Qed.

Lemma binary_normalize_signed m e sz :
  signed (m <? 0) (binary_normalize prec emax m e sz).
Proof.
  destruct m; simpl; auto; apply binary_round_signed.
Qed.

(** *** Subtraction *)

Lemma SFsub_pos x y :
  SFltb zero (SFsub prec emax x y) = true -> SFltb y zero = false ->
  SFltb zero x = true.
Proof.
  destruct x as [sx| [|] | |[|] mx ex]; destruct y as [sy| [|] | |[|] my ey];
    try (destruct sx); try (destruct sy); simpl; intros H1 H2;
    try discriminate; try reflexivity.
  exfalso.
  match type of H1 with context [binary_round _ _ true ?m ?e] =>
    pose proof (binary_round_signed true m e) as Hs end.
  apply signed_true_not_pos in Hs. unfold zero in *. congruence.
Qed.

Lemma shl_align_same m e : shl_align m e (Z.min e e) = (m, e).
Proof. unfold shl_align. rewrite Z.min_id, Z.sub_diag. reflexivity. Qed.

Lemma SFcompare_Eq_sub x y :
  SFcompare x y = Some Eq ->
  SFltb zero (SFabs (SFsub prec emax x y)) = false.
Proof.
  destruct x as [sx| [|] | |[|] mx ex]; destruct y as [sy| [|] | |[|] my ey];
    try (destruct sx); try (destruct sy); simpl; intros H;
    try discriminate; try reflexivity.
  - destruct (ex ?= ey) eqn:E; try discriminate.
    apply Z.compare_eq in E. subst ey.
    change (PosDef.Pos.compare_cont Eq mx my) with (Pos.compare mx my) in H.
    destruct (Pos.compare mx my) eqn:E'; try discriminate.
    apply Pos.compare_eq in E'. subst my.
    change (IntDef.Z.min ex ex) with (Z.min ex ex).
    rewrite shl_align_same. simpl. rewrite Z.pos_sub_diag. reflexivity.
  - destruct (ex ?= ey) eqn:E; try discriminate.
    apply Z.compare_eq in E. subst ey.
    change (PosDef.Pos.compare_cont Eq mx my) with (Pos.compare mx my) in H.
    destruct (Pos.compare mx my) eqn:E'; try discriminate.
    apply Pos.compare_eq in E'. subst my.
    change (IntDef.Z.min ex ex) with (Z.min ex ex).
    rewrite shl_align_same. simpl. rewrite Z.pos_sub_diag. reflexivity.
Qed.

Lemma SFcompare_None_sub x y :
  SFcompare x y = None -> SFsub prec emax x y = S754_nan.
Proof.
  destruct x as [sx| [|] | |[|] mx ex]; destruct y as [sy| [|] | |[|] my ey];
    try (destruct sx); try (destruct sy); simpl; intros H;
    try discriminate; reflexivity.
Qed.

Lemma SFcompare_Gt_Lt x y :
  SFcompare x y = Some Gt -> SFcompare y x = Some Lt.
Proof.
  destruct x as [sx| [|] | |[|] mx ex]; destruct y as [sy| [|] | |[|] my ey];
    try (destruct sx); try (destruct sy); simpl; intros H;
    try discriminate; try reflexivity;
    change (PosDef.Pos.compare_cont Eq mx my) with (Pos.compare mx my) in H;
    change (PosDef.Pos.compare_cont Eq my mx) with (Pos.compare my mx);
    rewrite (Z.compare_antisym ex ey), (Pos.compare_antisym mx my);
    destruct (ex ?= ey); simpl in *; try discriminate; try reflexivity;
    destruct (Pos.compare mx my); simpl in *; try discriminate; reflexivity.
Qed.

Lemma SFsub_apart x y :
  SFltb zero (SFabs (SFsub prec emax x y)) = true -> SFltb x y = false ->
  SFltb y x = true.
Proof.
  intros H1 H2. unfold SFltb in H2 |- *.
  destruct (SFcompare x y) as [[| |]|] eqn:E.
  - apply SFcompare_Eq_sub in E. unfold zero in *. congruence.
  - discriminate.
  - now rewrite (SFcompare_Gt_Lt _ _ E).
  - apply SFcompare_None_sub in E. rewrite E in H1. discriminate.
Qed.

(** *** Addition, multiplication and division *)

Lemma SFadd_not_neg x y :
  SFltb x zero = false -> SFltb y zero = false ->
  SFltb (SFadd prec emax x y) zero = false.
Proof.
  destruct x as [sx| [|] | |[|] mx ex]; destruct y as [sy| [|] | |[|] my ey];
    try (destruct sx); try (destruct sy); simpl; intros H1 H2;
    try discriminate; try reflexivity.
  apply signed_false_not_neg, binary_round_signed.
Qed.

Lemma SFdiv_not_neg x sy my ey :
  sy = false ->
  SFltb x zero = false ->
  SFltb (SFdiv prec emax x (S754_finite sy my ey)) zero = false.
Proof.
  intros ->.
  destruct x as [sx| [|] | |[|] mx ex]; try (destruct sx); simpl; intros H;
    try discriminate; try reflexivity.
  apply signed_false_not_neg.
  destruct (SFdiv_core_binary _ _ _ _ _ _) as [[mz ez] lz].
  apply binary_round_aux_signed.
Qed.

Lemma SFmul_pos x my ey :
  SFltb zero (SFmul prec emax x (S754_finite false my ey)) = true ->
  SFltb zero x = true.
Proof.
  destruct x as [sx| [|] | |[|] mx ex]; try (destruct sx); simpl; intros H;
    try discriminate; try reflexivity.
  exfalso.
  pose proof (binary_round_aux_signed true (Z.pos (mx * my)) (ex + ey) loc_Exact) as Hs.
  apply signed_true_not_pos in Hs. unfold zero in *. congruence.
Qed.

Lemma SFdiv_pos_num x y :
  SFltb zero (SFdiv prec emax (SFabs x) y) = true -> SFltb zero (SFabs x) = true.
Proof.
  destruct x as [sx| sx | |sx mx ex]; destruct y as [sy| sy | |sy my ey];
    simpl; intros H; try discriminate; reflexivity.
Qed.

(** *** The same facts on primitive floats *)

Local Open Scope float_scope.

Lemma leb0_not_neg x : (0 <=? x) = true -> (x <? 0) = false.
Proof.
  rewrite leb_spec, ltb_spec. change (Prim2SF 0) with zero.
  destruct (Prim2SF x) as [s| [|] | |[|] m e]; simpl; intros H;
    try discriminate; reflexivity.
Qed.

Lemma sub_pos p f : (0 <? p - f) = true -> (f <? 0) = false -> (0 <? p) = true.
Proof.
  rewrite !ltb_spec, sub_spec. change (Prim2SF 0) with zero. apply SFsub_pos.
Qed.

Lemma add_not_neg x y : (x <? 0) = false -> (y <? 0) = false -> (x + y <? 0) = false.
Proof.
  rewrite !ltb_spec, add_spec. change (Prim2SF 0) with zero. apply SFadd_not_neg.
Qed.

Lemma div100_not_neg x : (x <? 0) = false -> (x / 100 <? 0) = false.
Proof.
  rewrite !ltb_spec, div_spec. change (Prim2SF 0) with zero.
  change (Prim2SF 100) with (S754_finite false 7036874417766400 (-46)).
  now apply SFdiv_not_neg.
Qed.

Lemma mul100_pos q : (0 <? q * 100) = true -> (0 <? q) = true.
Proof.
  rewrite !ltb_spec, mul_spec. change (Prim2SF 0) with zero.
  change (Prim2SF 100) with (S754_finite false 7036874417766400 (-46)).
  apply SFmul_pos.
Qed.

Lemma div_pos_num d a : (0 <? abs d / a) = true -> (0 <? abs d) = true.
Proof.
  rewrite !ltb_spec, div_spec, abs_spec. change (Prim2SF 0) with zero.
  apply SFdiv_pos_num.
Qed.

Lemma sub_apart a b : (0 <? abs (a - b)) = true -> (a <? b) = false -> (b <? a) = true.
Proof.
  rewrite !ltb_spec, abs_spec, sub_spec. change (Prim2SF 0) with zero.
  apply SFsub_apart.
Qed.

End FloatFacts.

(* ===================================================================== *)
(** * Part II (continued).  Properties of the bot                        *)
(* ===================================================================== *)

Module BotFacts.

Import JS BotSpec.
Local Open Scope string_scope.

(** ** The runtime on sample values *)

Example Number_toString_samples :
  map Number_toString
      [0.5; 0.1 + 0.2; 1e21; 123456789; 5e-324; 1e23; -1.5e-7; 0.000001; 1234.5678;
       123456789012345680000; -0; nan; infinity]%float
  = ["0.5"; "0.30000000000000004"; "1e+21"; "123456789"; "5e-324"; "1e+23";
     "-1.5e-7"; "0.000001"; "1234.5678"; "123456789012345680000"; "0"; "NaN";
     "Infinity"].
Proof. vm_compute. reflexivity. Qed.

Example toFixed_samples :
  (toFixed 1.005%float 2, toFixed 2.5%float 0, toFixed (-1.5)%float 0,
   toFixed 0.0000005%float 6, toFixed (-0.0000001)%float 6, toFixed 123.456%float 6,
   toFixed 1e21%float 6, toFixed 10.235%float 2, toFixed nan 2)
  = ("1.00", "3", "-2", "0.000000", "-0.000000", "123.456000", "1e+21", "10.23", "NaN").
Proof. vm_compute. reflexivity. Qed.

Example parseFloat_samples :
  map (fun s => Number_toString (parseFloat s))
      ["1.000000"; "  -12.5e3xyz"; "abc"; ".5"; "5."; "1e"; "-Infinity"; "1e+21"; "-.e"]
  = ["1"; "-12500"; "NaN"; "0.5"; "5"; "1"; "-Infinity"; "1e+21"; "NaN"].
Proof. vm_compute. reflexivity. Qed.

Example formatUnits_samples :
  (Viem.formatUnits 1500000 6, Viem.formatUnits 1 18, Viem.formatUnits (-1234567) 6,
   Viem.formatUnits 0 6, Viem.formatUnits 123 0)
  = ("1.5", "0.000000000000000001", "-1.234567", "0", "123").
Proof. vm_compute. reflexivity. Qed.

Example BigInt_samples :
  map BigInt ["123"; "-45"; ""; "-"; "12a"; "+7"; "007"; " 42 "; "   "; "0x1F"; "0o17";
              "0b101"; "-0x1"; "0x"; "1 2"; "1e3"; "-0"]
  = [Some 123; Some (-45); Some 0; None; None; Some 7; Some 7; Some 42; Some 0; Some 31;
     Some 15; Some 5; None; None; None; None; Some 0]%Z.
Proof. vm_compute. reflexivity. Qed.

Example Number_of_string_samples :
  map Number_toString
      (map Number_of_string ["50000"; " 0.5 "; ""; "0x10"; "0b2"; "1e"; "-Infinity"; "1.5e3"])
  = ["50000"; "0.5"; "0"; "16"; "NaN"; "NaN"; "-Infinity"; "1500"].
Proof. vm_compute. reflexivity. Qed.

Example Math_samples :
  map Number_toString
      [Math_floor 2.7; Math_floor (-2.7); Math_floor (-0.5); Math_max 0 (-3);
       Math_max 0 5; Math_max 0 nan]%float
  = ["2"; "-3"; "-1"; "0"; "5"; "NaN"].
Proof. vm_compute. reflexivity. Qed.

(** ** bigint and its decimal rendering *)

Lemma string_of_uint_head d :
  d <> Decimal.Nil ->
  exists c r, NilEmpty.string_of_uint d = String c r /\
              Ascii.eqb c "+" = false /\ Ascii.eqb c "-" = false.
Proof.
  destruct d; intros H; try congruence; simpl; eauto.
Qed.

Lemma to_uint_nonnil p : Pos.to_uint p <> Decimal.Nil.
Proof.
  intros H. pose proof (DecimalPos.Unsigned.of_to p) as E.
  rewrite H in E. discriminate.
Qed.

(** A string of digits and minus signs has no white space to strip and no
    radix prefix. *)

Lemma plain_char c :
  is_digit c || Ascii.eqb c "-" = true -> is_space c = false /\ radix_of c = None.
Proof.
  destruct c as [[] [] [] [] [] [] [] []]; intros H; try discriminate H;
    split; reflexivity.
Qed.

Lemma trim_end_plain s :
  forallb (fun c => is_digit c || Ascii.eqb c "-") (list_ascii_of_string s) = true ->
  trim_end s = s.
Proof.
  induction s as [|c r IH]; [reflexivity|]. cbn [list_ascii_of_string forallb trim_end].
  intros H. apply andb_true_iff in H. destruct H as [Hc Hr].
  rewrite (IH Hr). destruct (plain_char _ Hc) as [-> _]. destruct r; reflexivity.
Qed.

Lemma trim_plain s :
  forallb (fun c => is_digit c || Ascii.eqb c "-") (list_ascii_of_string s) = true ->
  trim s = s.
Proof.
  intros H. unfold trim.
  replace (skip_spaces s) with s; [now apply trim_end_plain|].
  destruct s as [|c r]; [reflexivity|]. cbn [list_ascii_of_string forallb] in H.
  apply andb_true_iff in H. destruct H as [Hc _].
  cbn [skip_spaces]. now destruct (plain_char _ Hc) as [-> _].
Qed.

Lemma NonDecimalIntegerLiteral_plain s :
  forallb (fun c => is_digit c || Ascii.eqb c "-") (list_ascii_of_string s) = true ->
  NonDecimalIntegerLiteral s = None.
Proof.
  destruct s as [|c0 [|c1 r]]; try reflexivity.
  cbn [list_ascii_of_string forallb NonDecimalIntegerLiteral]. intros H.
  apply andb_true_iff in H. destruct H as [_ H].
  apply andb_true_iff in H. destruct H as [Hc _].
  destruct (plain_char _ Hc) as [_ ->]. now destruct (Ascii.eqb c0 "0").
Qed.

Lemma string_of_uint_digits d :
  forallb (fun c => is_digit c || Ascii.eqb c "-")
          (list_ascii_of_string (NilEmpty.string_of_uint d)) = true.
Proof. induction d; simpl; auto. Qed.

Lemma BigInt_toString_plain z :
  forallb (fun c => is_digit c || Ascii.eqb c "-")
          (list_ascii_of_string (BigInt_toString z)) = true.
Proof.
  unfold BigInt_toString, NilZero.string_of_int.
  destruct (Z.to_int z) as [d|d]; unfold NilZero.string_of_uint;
    destruct d; try reflexivity;
    cbn [list_ascii_of_string forallb]; try apply string_of_uint_digits;
    match goal with |- context [NilEmpty.string_of_uint ?u] =>
      pose proof (string_of_uint_digits u) as H; cbn [NilEmpty.string_of_uint] in H |- *;
      cbn [list_ascii_of_string forallb] in H |- *; exact H end.
Qed.

Lemma BigInt_toString_roundtrip z : BigInt (BigInt_toString z) = Some z.
Proof.
  pose proof (BigInt_toString_plain z) as Hplain.
  unfold BigInt. rewrite (trim_plain _ Hplain).
  pose proof (NonDecimalIntegerLiteral_plain _ Hplain) as Hnd.
  unfold BigInt_toString in *.
  assert (Hd : Z.to_int z <> Decimal.Pos Decimal.Nil /\
               Z.to_int z <> Decimal.Neg Decimal.Nil).
  { destruct z as [|p|p]; simpl; split; intros H; try discriminate;
      injection H as H; now apply to_uint_nonnil in H. }
  destruct Hd as [Hp Hn].
  pose proof (NilZero.isi (Z.to_int z) Hp Hn) as E.
  assert (Hhead : exists c r, NilZero.string_of_int (Z.to_int z) = String c r /\
                              Ascii.eqb c "+" = false).
  { destruct z as [|p|p]; simpl.
    - eauto.
    - destruct (string_of_uint_head (to_uint_nonnil p)) as (c & r & Hs & Hc & _).
      unfold NilZero.string_of_uint.
      destruct (Pos.to_uint p) eqn:Ep; try (now apply to_uint_nonnil in Ep);
        rewrite Hs; eauto.
    - eauto. }
  destruct Hhead as (c & r & Hs & Hc).
  rewrite Hs in Hnd |- *. rewrite Hnd, Hc, <- Hs, E. simpl.
  now rewrite DecimalZ.of_to.
Qed.

(** ** Sorting keeps the elements *)

Section SortFacts.

Variable A : Type.
Variable comparefn : A -> A -> number.

Lemma insert_perm x l : Permutation (insert comparefn x l) (x :: l).
Proof.
  induction l as [|y ys IH]; simpl.
  - apply Permutation_refl.
  - destruct (PrimFloat.ltb (comparefn x y) 0).
    + apply Permutation_refl.
    + eapply perm_trans; [apply perm_skip, IH | apply perm_swap].
Qed.

Lemma fold_insert_perm l : forall acc,
  Permutation (fold_left (fun acc x => insert comparefn x acc) l acc) (acc ++ l).
Proof.
  induction l as [|x xs IH]; intros acc; simpl.
  - rewrite app_nil_r. apply Permutation_refl.
  - eapply perm_trans; [apply IH|].
    eapply perm_trans; [apply Permutation_app_tail, insert_perm|].
    simpl. apply Permutation_middle.
Qed.

Lemma sort_perm l : Permutation (sort comparefn l) l.
Proof. unfold sort. apply (fold_insert_perm l []). Qed.

Lemma sort_In l x : In x (sort comparefn l) <-> In x l.
Proof.
  split; apply Permutation_in; [apply sort_perm | apply Permutation_sym, sort_perm].
Qed.

End SortFacts.

(** ** The pairs the monitor compares *)

Import PriceMonitor.
Local Open Scope float_scope.

Lemma compare_with_cons a b rest :
  compare_with a (b :: rest)
  = if 0 <? Opportunity.grossProfitPercent (opportunity_of a b)
    then opportunity_of a b :: compare_with a rest
    else compare_with a rest.
Proof. reflexivity. Qed.

Lemma compare_with_In a later o :
  In o (compare_with a later) <->
  exists b, In b later /\ o = opportunity_of a b /\ profitable a b.
Proof.
  unfold profitable. induction later as [|b rest IH].
  - simpl. split; [tauto | intros (b & [] & _)].
  - rewrite compare_with_cons.
    destruct (0 <? Opportunity.grossProfitPercent (opportunity_of a b)) eqn:E;
      cbn [In]; rewrite IH; split.
    + intros [<- | (b' & Hb & Ho)]; [exists b; auto | exists b'; tauto].
    + intros (b' & [<- | Hb] & Ho & Hp); [auto | right; eauto].
    + intros (b' & Hb & Ho); exists b'; tauto.
    + intros (b' & [<- | Hb] & Ho & Hp); [congruence | eauto].
Qed.

Lemma compare_all_In prices : forall o,
  In o (compare_all prices) <->
  exists i j a b, (i < j)%nat /\ nth_error prices i = Some a /\
                  nth_error prices j = Some b /\
                  o = opportunity_of a b /\ profitable a b.
Proof.
  induction prices as [|p later IH]; intros o.
  - simpl. split; [tauto | intros (i & j & a & b & _ & Hi & _); destruct i; discriminate].
  - cbn [compare_all]. rewrite in_app_iff, compare_with_In, IH. split.
    + intros [(b & Hb & Ho & Hp) | (i & j & a & b & Hij & Hi & Hj & Ho & Hp)].
      * apply In_nth_error in Hb. destruct Hb as [k Hk].
        exists 0%nat, (S k), p, b. repeat split; auto. lia.
      * exists (S i), (S j), a, b. repeat split; auto. lia.
    + intros (i & j & a & b & Hij & Hi & Hj & Ho & Hp).
      destruct j as [|j]; [lia|]. simpl in Hj.
      destruct i as [|i]; simpl in Hi.
      * injection Hi as ->. left. exists b. split; [|auto].
        eapply nth_error_In; eauto.
      * right. exists i, j, a, b. repeat split; auto. lia.
Qed.

(** For fee tiers that are not negative, a positive gross margin forces one
    price strictly below the other, and the buy side is that one. *)

Lemma profitable_buy_below_sell a b :
  (0 <=? PoolQuote.fee a) = true -> (0 <=? PoolQuote.fee b) = true ->
  profitable a b ->
  (Opportunity.buyPrice (opportunity_of a b)
     <? Opportunity.sellPrice (opportunity_of a b)) = true.
Proof.
  intros Ha Hb Hp. unfold profitable in Hp. simpl in Hp. simpl.
  apply FloatFacts.leb0_not_neg in Ha, Hb.
  apply FloatFacts.sub_pos in Hp;
    [|apply FloatFacts.div100_not_neg, FloatFacts.div100_not_neg,
        FloatFacts.add_not_neg; assumption].
  apply FloatFacts.mul100_pos in Hp. unfold Math_abs in Hp.
  apply FloatFacts.div_pos_num in Hp.
  destruct (PoolQuote.price a <? PoolQuote.price b) eqn:E; [exact E|].
  now apply FloatFacts.sub_apart.
Qed.

End BotFacts.

(** ** The claims about the bot *)

Module BotClaims.

Import JS BotSpec BotScenario BotFacts.
Local Open Scope string_scope.

(** The detector's verdict on the deep-pool opportunity, and on its
    all-Uniswap twin. *)

Lemma evaluate_deep :
  OpportunityDetector.evaluate detector100 opportunity_deep
  = Some {| OpportunityDetector.ev_opportunity := opportunity_deep;
            OpportunityDetector.ev_sizing := sizing_deep;
            OpportunityDetector.ev_profitAnalysis := analysis_deep;
            OpportunityDetector.shouldExecute := true;
            OpportunityDetector.reason := "All criteria met - EXECUTE" |} /\
  OpportunityDetector.evaluate detector100 opportunity_deep_uni
  = Some {| OpportunityDetector.ev_opportunity := opportunity_deep_uni;
            OpportunityDetector.ev_sizing := sizing_deep;
            OpportunityDetector.ev_profitAnalysis := analysis_deep;
            OpportunityDetector.shouldExecute := true;
            OpportunityDetector.reason := "All criteria met - EXECUTE" |}.
Proof. split; vm_compute; reflexivity. Qed.

(** The verdict of [modelSlippage] on one side: acceptable exactly when the
    pool is not empty and the modelled slippage, the impact in basis points
    times the multiplier of the fee tier, is at most [maxSlippageBps]. *)

Lemma modelSlippage_verdict this tradeSize liquidity feeTier sl :
  OpportunityDetector.modelSlippage this tradeSize liquidity feeTier = Some sl ->
  exists tradeSizeBn liquidityBn,
    BigInt tradeSize = Some tradeSizeBn /\ BigInt liquidity = Some liquidityBn /\
    (liquidityBn = 0%Z ->
     OpportunityDetector.slippageBps sl = 10000%float /\
     OpportunityDetector.acceptable sl = false) /\
    (liquidityBn <> 0%Z ->
     OpportunityDetector.slippageBps sl
     = (Number_of_BigInt (Z.quot (tradeSizeBn * 10000) liquidityBn)
        * (if PrimFloat.eqb feeTier 100 then 3
           else if PrimFloat.eqb feeTier 500 then 2 else 1))%float /\
     OpportunityDetector.acceptable sl
     = (OpportunityDetector.slippageBps sl <=? OpportunityDetector.maxSlippageBps this)%float).
Proof.
  unfold OpportunityDetector.modelSlippage.
  destruct (BigInt tradeSize) as [t|]; [|discriminate].
  destruct (BigInt liquidity) as [l|]; [|discriminate].
  intros H. exists t, l. split; [reflexivity|]. split; [reflexivity|].
  destruct (l =? 0)%Z eqn:E; injection H as <-.
  - apply Z.eqb_eq in E. split; [auto | congruence].
  - apply Z.eqb_neq in E. split; [congruence | auto].
Qed.

(** C3.  Whenever [calculateProfit] returns an analysis, the borrow amount
    parsed, both sides were given a slippage verdict by [modelSlippage], and
    the three flags are those verdicts and floors: [slippageAcceptable] is
    the conjunction of the two sides' verdicts (each: pool not empty and
    modelled slippage at most [maxSlippageBps]), [profitAcceptable] says that
    the net profit after gas (gross profit less flashloan fee, slippage cost
    and gas cost) is at least [minProfitUsd], [bpsAcceptable] that this net
    profit in basis points of the borrowed amount is at least
    [minProfitBps]; the analysis reports these two quantities; and
    [isViable] is the conjunction of the three flags, true exactly when all
    of them are, that is, when both verdicts are favourable and both floors
    are met. *)
Theorem C3_viable_iff_all_flags :
  forall (this : OpportunityDetector.t) (opportunity : Opportunity.t)
         (borrowAmount : string) (tokenDecimals : nat)
         (pa : OpportunityDetector.ProfitAnalysis),
    OpportunityDetector.calculateProfit this opportunity borrowAmount tokenDecimals
      = Some pa ->
    exists (amount : Z) (buySlippage sellSlippage : OpportunityDetector.Slippage),
      BigInt borrowAmount = Some amount /\
      OpportunityDetector.modelSlippage this borrowAmount
        (Opportunity.buyLiquidity opportunity) (Opportunity.buyFee opportunity)
        = Some buySlippage /\
      OpportunityDetector.modelSlippage this borrowAmount
        (Opportunity.sellLiquidity opportunity) (Opportunity.sellFee opportunity)
        = Some sellSlippage /\
      let amountFloat := Number_of_string (Viem.formatUnits amount tokenDecimals) in
      let grossProfitAmount :=
        (amountFloat * (Opportunity.grossProfitPercent opportunity / 100))%float in
      let flashFeeAmount := (amountFloat * (Config.AAVE_FLASH_FEE_BPS / 10000))%float in
      let slippageCost :=
        (amountFloat
         * ((OpportunityDetector.slippageBps buySlippage
             + OpportunityDetector.slippageBps sellSlippage) / 10000))%float in
      let gasCostUsd :=
        (350000 * OpportunityDetector.baseFeeGwei this / 1e9
         * OpportunityDetector.ethPriceUsd this)%float in
      let netProfitAfterGas :=
        (grossProfitAmount - flashFeeAmount - slippageCost - gasCostUsd)%float in
      let profitBps := (netProfitAfterGas / amountFloat * 10000)%float in
      (* the three flags *)
      OpportunityDetector.slippageAcceptable pa
        = OpportunityDetector.acceptable buySlippage
          && OpportunityDetector.acceptable sellSlippage /\
      OpportunityDetector.profitAcceptable pa
        = (OpportunityDetector.minProfitUsd this <=? netProfitAfterGas)%float /\
      OpportunityDetector.bpsAcceptable pa
        = (OpportunityDetector.minProfitBps this <=? profitBps)%float /\
      (* a verdict is favourable only within the tolerance *)
      (OpportunityDetector.acceptable buySlippage = true ->
       (OpportunityDetector.slippageBps buySlippage
        <=? OpportunityDetector.maxSlippageBps this)%float = true) /\
      (OpportunityDetector.acceptable sellSlippage = true ->
       (OpportunityDetector.slippageBps sellSlippage
        <=? OpportunityDetector.maxSlippageBps this)%float = true) /\
      (* the quantities the analysis reports *)
      OpportunityDetector.netProfitAfterGas pa = toFixed netProfitAfterGas 6 /\
      OpportunityDetector.profitBps pa = toFixed profitBps 2 /\
      (* the aggregate flag *)
      OpportunityDetector.isViable pa
        = OpportunityDetector.slippageAcceptable pa
          && OpportunityDetector.profitAcceptable pa
          && OpportunityDetector.bpsAcceptable pa /\
      (OpportunityDetector.isViable pa = true <->
       OpportunityDetector.slippageAcceptable pa = true /\
       OpportunityDetector.profitAcceptable pa = true /\
       OpportunityDetector.bpsAcceptable pa = true) /\
      (OpportunityDetector.isViable pa = true <->
       OpportunityDetector.acceptable buySlippage = true /\
       OpportunityDetector.acceptable sellSlippage = true /\
       (OpportunityDetector.minProfitUsd this <=? netProfitAfterGas)%float = true /\
       (OpportunityDetector.minProfitBps this <=? profitBps)%float = true).
Proof.
  intros this opportunity borrowAmount tokenDecimals pa H.
  unfold OpportunityDetector.calculateProfit in H.
  destruct (BigInt borrowAmount) as [amount|]; [|discriminate].
  destruct (OpportunityDetector.modelSlippage this borrowAmount
              (Opportunity.buyLiquidity opportunity) _) as [sb|] eqn:Eb; [|discriminate].
  destruct (OpportunityDetector.modelSlippage this borrowAmount
              (Opportunity.sellLiquidity opportunity) _) as [ss|] eqn:Es; [|discriminate].
  injection H as <-. exists amount, sb, ss.
  split; [reflexivity|]. split; [reflexivity|]. split; [reflexivity|].
  cbv zeta.
  cbn [OpportunityDetector.slippageAcceptable OpportunityDetector.profitAcceptable
       OpportunityDetector.bpsAcceptable OpportunityDetector.isViable
       OpportunityDetector.netProfitAfterGas OpportunityDetector.profitBps].
  unfold OpportunityDetector.estimateGasCost. cbn [OpportunityDetector.GasEstimate.gasCostUsd].
  assert (Hside : forall liquidity feeTier sl,
             OpportunityDetector.modelSlippage this borrowAmount liquidity feeTier = Some sl ->
             OpportunityDetector.acceptable sl = true ->
             (OpportunityDetector.slippageBps sl
              <=? OpportunityDetector.maxSlippageBps this)%float = true).
  { intros liquidity feeTier sl Hsl Hacc.
    destruct (modelSlippage_verdict _ _ _ _ Hsl) as (t & l & _ & _ & H0 & H1).
    destruct (Z.eq_dec l 0) as [E|E].
    - destruct (H0 E) as [_ F]. congruence.
    - destruct (H1 E) as [_ F]. now rewrite <- F. }
  split; [reflexivity|]. split; [reflexivity|]. split; [reflexivity|].
  split; [exact (Hside _ _ _ Eb)|]. split; [exact (Hside _ _ _ Es)|].
  split; [reflexivity|]. split; [reflexivity|].
  split; [reflexivity|].
  split; rewrite !andb_true_iff; tauto.
Qed.

Lemma C3_viable_iff_all_flags_witness :
  match analysis0 6 with
  | Some pa =>
      OpportunityDetector.isViable pa = true /\
      OpportunityDetector.netProfitAfterGas pa = "14.427876" /\
      exists buySlippage sellSlippage,
        OpportunityDetector.acceptable buySlippage = true /\
        OpportunityDetector.acceptable sellSlippage = true /\
        (OpportunityDetector.slippageBps buySlippage
         <=? OpportunityDetector.maxSlippageBps detector0)%float = true /\
        (OpportunityDetector.slippageBps sellSlippage
         <=? OpportunityDetector.maxSlippageBps detector0)%float = true
  | None => False
  end.
Proof.
  unfold analysis0.
  destruct (OpportunityDetector.calculateProfit detector0 opportunity0 "1000000000" 6)
    as [pa|] eqn:E; [|vm_compute in E; discriminate].
  destruct (@C3_viable_iff_all_flags detector0 opportunity0 "1000000000" 6%nat pa E)
    as (amount & sb & ss & _ & _ & _ & _ & _ & _ & Hb & Hs & _ & _ & _ & _ & Hv).
  assert (Hviable : OpportunityDetector.isViable pa = true /\
                    OpportunityDetector.netProfitAfterGas pa = "14.427876").
  { vm_compute in E. injection E as <-. split; reflexivity. }
  destruct Hviable as [Hviable Hnet].
  split; [exact Hviable|]. split; [exact Hnet|].
  apply Hv in Hviable. destruct Hviable as (Ab & As & _ & _).
  exists sb, ss. auto.
Defined.

(** C4.  For every pair of quotes at positions [i < j], the opportunity the
    detector builds carries [priceDiffPercent = |p1 - p2| / avg * 100],
    [totalFeePercent = (fee1 + fee2) / 100 / 100] and their difference as
    gross profit, and it is in the output exactly when that difference is
    positive; the output holds nothing else; and, fee tiers not being
    negative, every opportunity in the output has a buy price strictly below
    its sell price, its buy side being the cheaper of the two quotes. *)
Theorem C4_opportunity_iff_positive_gross :
  forall prices : list PoolQuote.t,
    let found := PriceMonitor.findArbitrageOpportunities prices in
    (forall i j a b,
        (i < j)%nat -> nth_error prices i = Some a -> nth_error prices j = Some b ->
        let priceDiffPercent :=
          (abs (PoolQuote.price a - PoolQuote.price b)
           / ((PoolQuote.price a + PoolQuote.price b) / 2) * 100)%float in
        let feePercent := ((PoolQuote.fee a + PoolQuote.fee b) / 100 / 100)%float in
        let o := PriceMonitor.opportunity_of a b in
        Opportunity.priceDiffPercent o = priceDiffPercent /\
        Opportunity.totalFeePercent o = feePercent /\
        Opportunity.grossProfitPercent o = (priceDiffPercent - feePercent)%float /\
        (In o found <-> (0 <? priceDiffPercent - feePercent)%float = true)) /\
    (forall o, In o found ->
        exists i j a b,
          (i < j)%nat /\ nth_error prices i = Some a /\ nth_error prices j = Some b /\
          o = PriceMonitor.opportunity_of a b) /\
    ((forall q, In q prices -> (0 <=? PoolQuote.fee q)%float = true) ->
     forall o, In o found ->
        (Opportunity.buyPrice o <? Opportunity.sellPrice o)%float = true /\
        exists buy sell,
          In buy prices /\ In sell prices /\
          (PoolQuote.price buy <? PoolQuote.price sell)%float = true /\
          Opportunity.buyDex o = PoolQuote.dex buy /\
          Opportunity.buyPool o = PoolQuote.pool buy /\
          Opportunity.buyFee o = PoolQuote.fee buy /\
          Opportunity.buyPrice o = PoolQuote.price buy /\
          Opportunity.buyLiquidity o = PoolQuote.liquidity buy /\
          Opportunity.sellDex o = PoolQuote.dex sell /\
          Opportunity.sellPool o = PoolQuote.pool sell /\
          Opportunity.sellFee o = PoolQuote.fee sell /\
          Opportunity.sellPrice o = PoolQuote.price sell /\
          Opportunity.sellLiquidity o = PoolQuote.liquidity sell).
Proof.
  intros prices found. unfold found, PriceMonitor.findArbitrageOpportunities.
  split; [|split].
  - intros i j a b Hij Hi Hj. cbv zeta.
    repeat split; try reflexivity.
    + intros Hin. apply sort_In, compare_all_In in Hin.
      destruct Hin as (i' & j' & a' & b' & _ & _ & _ & Ho & Hp).
      unfold profitable in Hp. rewrite <- Ho in Hp. exact Hp.
    + intros Hp. apply sort_In, compare_all_In.
      exists i, j, a, b. repeat split; auto.
  - intros o Hin. apply sort_In, compare_all_In in Hin.
    destruct Hin as (i & j & a & b & Hij & Hi & Hj & Ho & _).
    exists i, j, a, b. auto.
  - intros Hfee o Hin. apply sort_In, compare_all_In in Hin.
    destruct Hin as (i & j & a & b & Hij & Hi & Hj & -> & Hp).
    apply nth_error_In in Hi, Hj.
    pose proof (profitable_buy_below_sell (Hfee a Hi) (Hfee b Hj) Hp) as Hlt.
    split; [exact Hlt|].
    simpl in Hlt. simpl.
    destruct (PoolQuote.price a <? PoolQuote.price b)%float eqn:E.
    + exists a, b. repeat split; auto.
    + exists b, a. repeat split; auto.
Qed.

Lemma C4_opportunity_iff_positive_gross_witness :
  In (PriceMonitor.opportunity_of q3000 q3050)
     (PriceMonitor.findArbitrageOpportunities [q3000; q3005; q3050]) /\
  ~ In (PriceMonitor.opportunity_of q3000 q3005)
       (PriceMonitor.findArbitrageOpportunities [q3000; q3005; q3050]) /\
  (Opportunity.buyPrice (PriceMonitor.opportunity_of q3000 q3050)
     <? Opportunity.sellPrice (PriceMonitor.opportunity_of q3000 q3050))%float = true.
Proof.
  destruct (C4_opportunity_iff_positive_gross [q3000; q3005; q3050]) as (H1 & _ & H3).
  assert (Hin : In (PriceMonitor.opportunity_of q3000 q3050)
                   (PriceMonitor.findArbitrageOpportunities [q3000; q3005; q3050])).
  { apply (H1 0%nat 2%nat q3000 q3050); [lia | reflexivity | reflexivity |].
    vm_compute. reflexivity. }
  split; [exact Hin|]. split.
  - intros Hin'.
    apply (H1 0%nat 1%nat q3000 q3005) in Hin'; [|lia | reflexivity | reflexivity].
    vm_compute in Hin'. discriminate.
  - apply H3; [|exact Hin].
    intros q [<- | [<- | [<- | []]]]; vm_compute; reflexivity.
Defined.

(** The two scenarios of the specification. *)

Example scenario_3000_3005 :
  PriceMonitor.findArbitrageOpportunities [q3000; q3005] = [].
Proof. vm_compute. reflexivity. Qed.

Example scenario_3000_3050 :
  map Opportunity.grossProfitPercent
      (PriceMonitor.findArbitrageOpportunities [q3000; q3050])
  = [1.552892561983471%float].
Proof. vm_compute. reflexivity. Qed.

(** C5.  For liquidities and a percentage that are not negative, the sizing
    is returned and its amounts, read back as bigints, satisfy
    [optimalAmount <= maxFlashloan <= binding * percent / 100], with
    [binding] the smaller liquidity, [maxFlashloan] the integer quotient
    [binding * percent / 100] and [optimalAmount] the integer quotient
    [maxFlashloan / 10]. *)
Theorem C5_sizing_bounds :
  forall (this : OpportunityDetector.t) (opportunity : Opportunity.t)
         (buyLiquidity sellLiquidity percent : Z),
    BigInt (Opportunity.buyLiquidity opportunity) = Some buyLiquidity ->
    BigInt (Opportunity.sellLiquidity opportunity) = Some sellLiquidity ->
    BigInt_of_number (OpportunityDetector.maxFlashloanPercent this) = Some percent ->
    (0 <= buyLiquidity)%Z -> (0 <= sellLiquidity)%Z -> (0 <= percent)%Z ->
    exists r optimalAmount maxFlashloan,
      OpportunityDetector.calculateOptimalAmount this opportunity = Some r /\
      BigInt (OpportunityDetector.optimalAmount r) = Some optimalAmount /\
      BigInt (OpportunityDetector.maxFlashloan r) = Some maxFlashloan /\
      BigInt (OpportunityDetector.constrainingLiquidity r)
        = Some (Z.min buyLiquidity sellLiquidity) /\
      (maxFlashloan = Z.min buyLiquidity sellLiquidity * percent / 100)%Z /\
      (optimalAmount = maxFlashloan / 10)%Z /\
      (optimalAmount <= maxFlashloan)%Z /\
      (maxFlashloan * 100 <= Z.min buyLiquidity sellLiquidity * percent)%Z.
Proof.
  intros this opportunity bl sl pct Hb Hs Hp Hbl Hsl Hpct.
  unfold OpportunityDetector.calculateOptimalAmount. rewrite Hb, Hs, Hp.
  set (binding := if (bl <? sl)%Z then bl else sl).
  assert (Hmin : binding = Z.min bl sl).
  { subst binding. destruct (Z.ltb_spec bl sl); lia. }
  assert (Hbind : (0 <= binding)%Z) by lia.
  assert (Hq1 : (binding * pct ÷ 100 = binding * pct / 100)%Z)
    by (apply Z.quot_div_nonneg; nia).
  assert (Hmax : (0 <= binding * pct / 100)%Z) by (apply Z.div_pos; nia).
  assert (Hq2 : ((binding * pct / 100) ÷ 10 = binding * pct / 100 / 10)%Z)
    by (apply Z.quot_div_nonneg; lia).
  eexists. exists (binding * pct / 100 / 10)%Z, (binding * pct / 100)%Z.
  split; [reflexivity|]. simpl. rewrite !BigInt_toString_roundtrip, Hq1, Hq2, <- Hmin.
  repeat split; auto.
  - apply Z.div_le_upper_bound; lia.
  - rewrite Z.mul_comm. apply Z.mul_div_le. lia.
Qed.

Lemma C5_sizing_bounds_witness :
  exists r optimalAmount maxFlashloan,
    OpportunityDetector.calculateOptimalAmount detector0 opportunity0 = Some r /\
    BigInt (OpportunityDetector.optimalAmount r) = Some optimalAmount /\
    BigInt (OpportunityDetector.maxFlashloan r) = Some maxFlashloan /\
    BigInt (OpportunityDetector.constrainingLiquidity r)
      = Some (Z.min 5000000000000 7000000000000) /\
    (maxFlashloan = Z.min 5000000000000 7000000000000 * 10 / 100)%Z /\
    (optimalAmount = maxFlashloan / 10)%Z /\
    (optimalAmount <= maxFlashloan)%Z /\
    (maxFlashloan * 100 <= Z.min 5000000000000 7000000000000 * 10)%Z.
Proof.
  apply (@C5_sizing_bounds detector0 opportunity0 5000000000000%Z 7000000000000%Z 10%Z);
    try (vm_compute; reflexivity); lia.
Defined.

(** What the builder does for every opportunity: exactly two legs.  Leg 1
    sells the borrowed token [token0] for [token1] at the buy side's fee
    tier, its input amount being the borrowed amount; leg 2 sells [token1]
    back for [token0] at the sell side's fee tier with the sentinel input
    ["0"] and a [minAmountOut] that is the borrowed amount (["1"] when that
    is the empty string), hence at least the borrowed amount.  Both legs go
    to the one configured Uniswap V3 router. *)

Lemma buildArbitrageParams_two_legs :
  forall (this : CalldataEncoder.t) (opportunity : Opportunity.t)
         (sizing : OpportunityDetector.SizingResult)
         (profitAnalysis : OpportunityDetector.ProfitAnalysis),
    let params := CalldataEncoder.buildArbitrageParams this opportunity sizing profitAnalysis in
    exists leg1 leg2,
      CalldataEncoder.swaps params = [leg1; leg2] /\
      CalldataEncoder.borrowToken params = Opportunity.token0 opportunity /\
      CalldataEncoder.borrowAmount params = OpportunityDetector.optimalAmount sizing /\
      (* leg 1 *)
      CalldataEncoder.tokenIn leg1 = CalldataEncoder.borrowToken params /\
      CalldataEncoder.tokenOut leg1 = Opportunity.token1 opportunity /\
      CalldataEncoder.fee leg1 = Opportunity.buyFee opportunity /\
      CalldataEncoder.router leg1 = Config.UNISWAP_V3_ROUTER /\
      BigInt (CalldataEncoder.amountIn leg1) = BigInt (CalldataEncoder.borrowAmount params) /\
      (* leg 2 *)
      CalldataEncoder.tokenIn leg2 = Opportunity.token1 opportunity /\
      CalldataEncoder.tokenOut leg2 = CalldataEncoder.borrowToken params /\
      CalldataEncoder.fee leg2 = Opportunity.sellFee opportunity /\
      CalldataEncoder.router leg2 = Config.UNISWAP_V3_ROUTER /\
      CalldataEncoder.amountIn leg2 = "0" /\
      (forall borrowed,
          BigInt (CalldataEncoder.borrowAmount params) = Some borrowed ->
          exists floor,
            BigInt (CalldataEncoder.minAmountOut leg2) = Some floor /\
            (borrowed <= floor)%Z) /\
      (CalldataEncoder.borrowAmount params <> "" ->
       CalldataEncoder.amountIn leg1 = CalldataEncoder.borrowAmount params /\
       CalldataEncoder.minAmountOut leg2 = CalldataEncoder.borrowAmount params).
Proof.
  intros this opportunity sizing profitAnalysis params.
  do 2 eexists. split; [reflexivity|]. simpl.
  destruct (OpportunityDetector.optimalAmount sizing) as [|c r] eqn:E; simpl;
    repeat split; auto.
  - intros borrowed [= <-]. exists 1%Z. split; [reflexivity | lia].
  - congruence.
  - congruence.
  - intros borrowed H. exists borrowed. split; [exact H | lia].
Qed.

(** C6 (failing input).  The deep-pool opportunity buys on Uniswap and sells
    on SushiSwap, and the detector finds it viable.  The builder returns the
    two legs the claim describes, with the amounts, tokens and fee tiers of
    the two sides, but it sends leg 2 to the Uniswap router all the same:
    the transaction is the very one built for the opportunity whose two sides
    are on Uniswap.  So it does for every opportunity: the routers of the two
    legs are the one configured Uniswap V3 router, whatever the venues. *)
Theorem C6_legs_ignore_the_venue :
  (exists ev,
      OpportunityDetector.evaluate detector100 opportunity_deep = Some ev /\
      OpportunityDetector.shouldExecute ev = true /\
      OpportunityDetector.ev_sizing ev = sizing_deep /\
      OpportunityDetector.ev_profitAnalysis ev = analysis_deep) /\
  Opportunity.buyDex opportunity_deep = "Uniswap" /\
  Opportunity.sellDex opportunity_deep = "SushiSwap" /\
  Opportunity.sellDex opportunity_deep_uni = "Uniswap" /\
  (exists leg1 leg2,
      CalldataEncoder.swaps
        (CalldataEncoder.buildArbitrageParams encoder0 opportunity_deep sizing_deep
           analysis_deep) = [leg1; leg2] /\
      CalldataEncoder.amountIn leg1 = "50000000000000000000000" /\
      CalldataEncoder.fee leg1 = Opportunity.buyFee opportunity_deep /\
      CalldataEncoder.amountIn leg2 = "0" /\
      CalldataEncoder.minAmountOut leg2 = "50000000000000000000000" /\
      CalldataEncoder.fee leg2 = Opportunity.sellFee opportunity_deep /\
      CalldataEncoder.router leg1 = Config.UNISWAP_V3_ROUTER /\
      CalldataEncoder.router leg2 = Config.UNISWAP_V3_ROUTER) /\
  CalldataEncoder.buildArbitrageParams encoder0 opportunity_deep sizing_deep analysis_deep
  = CalldataEncoder.buildArbitrageParams encoder0 opportunity_deep_uni sizing_deep
      analysis_deep /\
  (forall (this : CalldataEncoder.t) (opportunity : Opportunity.t)
          (sizing : OpportunityDetector.SizingResult)
          (profitAnalysis : OpportunityDetector.ProfitAnalysis),
      map CalldataEncoder.router
          (CalldataEncoder.swaps
             (CalldataEncoder.buildArbitrageParams this opportunity sizing profitAnalysis))
      = [Config.UNISWAP_V3_ROUTER; Config.UNISWAP_V3_ROUTER]).
Proof.
  split.
  { eexists. split; [exact (proj1 evaluate_deep)|]. repeat split. }
  split; [reflexivity|]. split; [reflexivity|]. split; [reflexivity|].
  split.
  { do 2 eexists. split; [reflexivity|]. repeat split. }
  split; [vm_compute; reflexivity|].
  intros this opportunity sizing profitAnalysis. reflexivity.
Qed.

(** C7 (failing input).  One polling cycle over two deep WETH/USDC pools
    finds one viable opportunity; it borrows WETH, a token of 18 decimals,
    and estimates a net profit of 2881.903712 WETH.  Half of that is
    1440951856 * 10^12 wei, but the submitted [minProfit] is 1440951856: the
    estimate is scaled by the constant 10^6 whatever the token. *)
Theorem C7_minProfit_scaled_by_1e6 :
  exists ev params,
    cycle detector100 [deep3000; deep3300] = [(ev, params)] /\
    CalldataEncoder.borrowToken params = Config.WETH /\
    Config.DECIMALS (CalldataEncoder.borrowToken params) = Some 18%nat /\
    OpportunityDetector.netProfitAfterGas (OpportunityDetector.ev_profitAnalysis ev)
      = "2881.903712" /\
    CalldataEncoder.minProfit params = "1440951856" /\
    BigInt (CalldataEncoder.minProfit params) <> Some (1440951856 * 10 ^ 12)%Z.
Proof.
  do 2 eexists. split; [vm_compute; reflexivity|].
  repeat split; try reflexivity. vm_compute. discriminate.
Qed.

End BotClaims.

(* ===================================================================== *)
(** * Part II (continued).  Further properties of the executor           *)
(* ===================================================================== *)

Module ExecutorMore.

Import Executor ExecutorSpec Scenario ExecutorFacts SettlementFacts.
Local Open Scope Z_scope.

(** ** The ledgers under [transfer] and [approve] *)

Lemma move_from bal from to amount :
  from <> to -> move bal from to amount from = bal from - amount.
Proof.
  intros H. unfold move, upd1. apply Z.eqb_neq in H. rewrite H.
  now rewrite Z.eqb_refl.
Qed.

Lemma move_to bal from to amount :
  from <> to -> move bal from to amount to = bal to + amount.
Proof.
  intros H. unfold move, upd1. rewrite Z.eqb_refl.
  assert (H' : to <> from) by congruence. apply Z.eqb_neq in H'. now rewrite H'.
Qed.

Lemma move_self bal a amount h : move bal a a amount h = bal h.
Proof.
  unfold move, upd1. destruct (h =? a) eqn:E; [|reflexivity].
  apply Z.eqb_eq in E. subst. rewrite Z.eqb_refl. lia.
Qed.

Lemma move_other bal from to amount h :
  h <> from -> h <> to -> move bal from to amount h = bal h.
Proof.
  intros H1 H2. unfold move, upd1.
  apply Z.eqb_neq in H1, H2. now rewrite H1, H2.
Qed.

Lemma transfer_Ok token from to amount m m' :
  transfer token from to amount m = Ok m' ->
  amount <= balanceOf (world m) token from /\
  st m' = st m /\ log m' = log m /\
  allowance (world m') = allowance (world m) /\
  getPool (world m') = getPool (world m) /\
  balanceOf (world m') token = move (balanceOf (world m) token) from to amount /\
  (forall t, t <> token -> balanceOf (world m') t = balanceOf (world m) t).
Proof.
  unfold transfer, erc20_transfer. intros H.
  destruct (balanceOf (world m) token from <? amount) eqn:E; [discriminate|].
  apply Z.ltb_ge in E. simpl in H. injection H as <-. simpl.
  rewrite Z.eqb_refl. repeat split; auto.
  intros t Ht. apply Z.eqb_neq in Ht. now rewrite Ht.
Qed.

Lemma transfer_succeeds token from to amount m :
  amount <= balanceOf (world m) token from ->
  exists m', transfer token from to amount m = Ok m'.
Proof.
  intros H. unfold transfer, erc20_transfer.
  apply Z.ltb_ge in H. rewrite H. simpl. eauto.
Qed.


Lemma returned_outcome {A : Type} (d : A) (r : result A) :
  returned r = true -> r = Ok (outcome d r).
Proof. destruct r; simpl; [reflexivity | discriminate]. Qed.

(** ** executeWithAave *)

(** X1.  The guards of [executeWithAave] fire in the order owner, pause, lock,
    borrow amount, swap list, each before the pool is ever called. *)
Theorem executeWithAave_guards :
  forall (this : address) (fl : pool_call) (params : ArbitrageParams) (sender : address) (m : Machine),
    (sender <> owner (st m) ->
     executeWithAave this fl params sender m = Err Unauthorized) /\
    (sender = owner (st m) -> paused (st m) = true ->
     executeWithAave this fl params sender m = Err Paused) /\
    (sender = owner (st m) -> paused (st m) = false -> _status (st m) = ENTERED ->
     executeWithAave this fl params sender m = Err ReentrancyGuard) /\
    (sender = owner (st m) -> paused (st m) = false -> _status (st m) <> ENTERED ->
     borrowAmount params = 0 ->
     executeWithAave this fl params sender m = Err ZeroBorrowAmount) /\
    (sender = owner (st m) -> paused (st m) = false -> _status (st m) <> ENTERED ->
     borrowAmount params <> 0 -> swaps params = [] ->
     executeWithAave this fl params sender m = Err EmptySwaps).
Proof.
  intros this fl params sender m.
  unfold executeWithAave, onlyOwner, whenNotPaused, nonReentrant.
  repeat split.
  - intros H. apply Z.eqb_neq in H. now rewrite H.
  - intros -> Hp. now rewrite Z.eqb_refl, Hp.
  - intros -> Hp Hs. now rewrite Z.eqb_refl, Hp, Hs.
  - intros -> Hp Hs Hb. apply Z.eqb_neq in Hs.
    now rewrite Z.eqb_refl, Hp, Hs, Hb.
  - intros -> Hp Hs Hb Hsw. apply Z.eqb_neq in Hs, Hb.
    now rewrite Z.eqb_refl, Hp, Hs, Hb, Hsw.
Qed.

Lemma executeWithAave_guards_witness :
  let fl : pool_call := fun _ _ _ _ _ m => Ok m in
  executeWithAave THIS fl params0 ATTACKER machine0 = Err Unauthorized /\
  executeWithAave THIS fl params0 OWNER (set_paused true machine_locked) = Err Paused /\
  executeWithAave THIS fl params0 OWNER machine_locked = Err ReentrancyGuard.
Proof.
  intros fl.
  destruct (executeWithAave_guards THIS fl params0 ATTACKER machine0) as (H1 & _).
  destruct (executeWithAave_guards THIS fl params0 OWNER (set_paused true machine_locked))
    as (_ & H2 & _).
  destruct (executeWithAave_guards THIS fl params0 OWNER machine_locked)
    as (_ & _ & H3 & _).
  split; [apply H1; discriminate|].
  split; [apply H2; reflexivity|].
  apply H3; reflexivity.
Defined.

(** X2.  A completed [executeWithAave] went through the pool with the lock held,
    found its balance of the borrowed token not lower than before, moved the
    whole difference to the vault and logged it: unless the vault is the
    executor itself, the executor's balance is what it was before the call.
    No other token is touched after the pool returns. *)
Theorem executeWithAave_forwards_profit :
  forall (this : address) (fl : pool_call) (params : ArbitrageParams) (sender : address) (m m' : Machine),
    executeWithAave this fl params sender m = Ok m' ->
    let token := borrowToken params in
    exists m1 profit,
      fl this token (borrowAmount params) (callbackData params) 0 (set_status ENTERED m)
        = Ok m1 /\
      profit = balanceOf (world m1) token this - balanceOf (world m) token this /\
      0 <= profit /\
      log m' = log m1 ++ [ArbitrageExecuted token (borrowAmount params) profit] /\
      st m' = st (set_status NOT_ENTERED m1) /\
      (vault (st m1) <> this ->
       balanceOf (world m') token this = balanceOf (world m) token this /\
       balanceOf (world m') token (vault (st m1))
         = balanceOf (world m1) token (vault (st m1)) + profit) /\
      (forall t, t <> token -> balanceOf (world m') t = balanceOf (world m1) t).
Proof.
  intros this fl params sender m m' H token.
  unfold executeWithAave, onlyOwner, whenNotPaused, nonReentrant in H.
  destruct (sender =? owner (st m)); [|discriminate].
  destruct (paused (st m)); [discriminate|].
  destruct (_status (st m) =? ENTERED); [discriminate|].
  inv_bind H. injection H as <-.
  destruct (borrowAmount params =? 0); [discriminate|].
  destruct (_ =? _)%nat; [discriminate|].
  apply bind_Ok in Ha. destruct Ha as (m1 & Hfl & Ha).
  apply high_level_call_Ok in Hfl.
  apply bind_Ok in Ha. destruct Ha as (profit & Hp & Ha).
  apply bind_Ok in Ha. destruct Ha as (m2 & Ht & Ha).
  injection Ha as <-.
  unfold checked_sub in Hp. simpl in Hp.
  destruct (_ <=? _) eqn:Ele in Hp; [|discriminate].
  apply Z.leb_le in Ele. injection Hp as Hp.
  exists m1, profit. fold token in Hfl, Hp, Ele, Ht |- *.
  split; [exact Hfl|]. split; [now rewrite <- Hp|]. split; [lia|].
  destruct (0 <? profit) eqn:Epos.
  - apply transfer_Ok in Ht.
    destruct Ht as (_ & Hst & Hlog & _ & _ & Hbal & Hoth).
    simpl. rewrite Hlog, Hst. repeat split; auto.
    + rewrite Hbal, move_from by congruence. lia.
    + rewrite Hbal, move_to by congruence. reflexivity.
  - injection Ht as <-. apply Z.ltb_ge in Epos.
    simpl. repeat split; auto; lia.
Qed.

Lemma executeWithAave_forwards_profit_witness :
  let fl : pool_call := fun _ _ _ _ _ =>
    run THIS AAVE_POOL
      (aave_flashLoanSimple TOKEN_A 1000 5 (callbackData params0) (routers0 1020)) in
  let m' := outcome machine0 (executeWithAave THIS fl params0 OWNER machine0) in
  executeWithAave THIS fl params0 OWNER machine0 = Ok m' /\
  exists m1 profit,
    fl THIS TOKEN_A 1000 (callbackData params0) 0 (set_status ENTERED machine0) = Ok m1 /\
    profit = balanceOf (world m1) TOKEN_A THIS - balanceOf (world machine0) TOKEN_A THIS /\
    0 <= profit /\
    log m' = log m1 ++ [ArbitrageExecuted TOKEN_A 1000 profit] /\
    (vault (st m1) <> THIS ->
     balanceOf (world m') TOKEN_A THIS = balanceOf (world machine0) TOKEN_A THIS /\
     balanceOf (world m') TOKEN_A (vault (st m1))
       = balanceOf (world m1) TOKEN_A (vault (st m1)) + profit).
Proof.
  intros fl m'.
  assert (E : executeWithAave THIS fl params0 OWNER machine0 = Ok m')
    by (apply returned_outcome; vm_compute; reflexivity).
  split; [exact E|].
  destruct (executeWithAave_forwards_profit THIS fl params0 OWNER machine0 E)
    as (m1 & profit & Hfl & Hp & Hpos & Hlog & _ & Hbal & _).
  exists m1, profit. repeat split; auto; now apply Hbal.
Defined.

(** ** _executeSwaps *)





(** ** Who can change the storage *)

Lemma executeSwaps_from_keeps_storage this (ext : router_call) o :
  (forall i r p, keeps_storage o (ext i r p)) ->
  forall swaps i, keeps_storage o (_executeSwaps_from this ext i swaps).
Proof.
  intros Hext swaps. induction swaps as [|swap rest IH]; intros i m m' Ho H.
  - injection H as <-. auto.
  - cbn [_executeSwaps_from] in H.
    fold (router_params this swap m) in H. fold (before_swap this swap m) in H.
    destruct (ext i (router swap) (router_params this swap m) (before_swap this swap m))
      as [m2|e] eqn:E; [|discriminate].
    apply Hext in E; [|exact Ho]. destruct E as [E1 E2].
    apply IH in H; [|rewrite E1; exact Ho]. destruct H as [H1 H2].
    rewrite H1, H2, E1, E2. auto.
Qed.

Lemma exec_run_keep_storage this aavePool :
  (forall c sender m m',
      sender <> owner (st m) -> never_as_call (owner (st m)) c ->
      exec this aavePool c sender m = Ok m' -> st m' = st m /\ log m' = log m) /\
  (forall e m m',
      never_as_ext (owner (st m)) e ->
      run this aavePool e m = Ok m' -> st m' = st m /\ log m' = log m).
Proof.
  assert (Hadmin : forall sender m (body : Machine -> result Machine) m',
             sender <> owner (st m) -> onlyOwner sender m body = Ok m' -> False).
  { intros sender m body m' Hs H. unfold onlyOwner in H.
    apply Z.eqb_neq in Hs. rewrite Hs in H. discriminate. }
  apply Call_Ext_mutind.
  - intros params pool _ sender m m' Hs _ H. exfalso. eapply Hadmin; eauto.
  - intros asset amount premium initiator params routers IH sender m m' _ Hn H.
    cbn [exec] in H. unfold executeOperation in H.
    destruct (negb (sender =? aavePool)); [discriminate|].
    destruct (negb (initiator =? this)); [discriminate|].
    inv_bind H. inv_bind H. inv_bind H. injection H as <-.
    eapply (@executeSwaps_from_keeps_storage this _ (owner (st m))) in Ha0; eauto.
    intros i r p m1 m1' Ho Hr. apply (IH i m1 m1'); [|exact Hr].
    rewrite Ho. apply Hn.
  - intros fee0 fee1 data routers IH sender m m' _ Hn H.
    cbn [exec] in H. unfold uniswapV3FlashCallback in H.
    inv_bind H. destruct (cb_swaps a) as [|swap0 rest] eqn:Esw; [discriminate|].
    destruct (negb _); [discriminate|].
    inv_bind H. inv_bind H. apply transfer_st in H. destruct H as [-> ->].
    eapply (@executeSwaps_from_keeps_storage this _ (owner (st m))) in Ha0; eauto.
    intros i r p m1 m1' Ho Hr. apply (IH i m1 m1'); [|exact Hr].
    rewrite Ho. apply Hn.
  - intros newOwner sender m m' Hs _ H. exfalso. eapply Hadmin; eauto.
  - intros newVault sender m m' Hs _ H. exfalso. eapply Hadmin; eauto.
  - intros sender m m' Hs _ H. exfalso. eapply Hadmin; eauto.
  - intros bps sender m m' Hs _ H. exfalso. eapply Hadmin; eauto.
  - intros token sender m m' Hs _ H. exfalso. eapply Hadmin; eauto.
  - intros m m' _ [= <-]. auto.
  - intros err m m' _ [=].
  - intros f k IH m m' Hn H. simpl in H.
    apply IH in H; [exact H | apply Hn].
  - intros sender c IHc k IHk m m' (Hs & Hc & Hk) H. simpl in H.
    destruct (exec this aavePool c sender m) as [m1|err] eqn:E.
    + apply IHc in E; auto. destruct E as [E1 E2].
      apply IHk in H; [|rewrite E1; apply Hk]. destruct H as [H1 H2].
      rewrite H1, H2, E1, E2. auto.
    + apply IHk in H; auto.
Qed.

(** X4.  Only the owner changes the executor's storage or makes it emit an event:
    a call of any function by any other sender that returns, whatever the
    code of the pool and the routers does short of calling in as the owner,
    leaves owner, vault, pause flag, lock and [minProfitBps] as they were and
    logs nothing. *)
Theorem storage_changes_need_the_owner :
  forall (this aavePool : address) (c : Call) (sender : address) (m m' : Machine),
    sender <> owner (st m) ->
    never_as_call (owner (st m)) c ->
    exec this aavePool c sender m = Ok m' ->
    st m' = st m /\ log m' = log m.
Proof.
  intros this aavePool c sender m m'.
  apply (proj1 (exec_run_keep_storage this aavePool)).
Qed.

Lemma storage_changes_need_the_owner_witness :
  let c := Call_executeOperation TOKEN_A 1000 5 THIS (callbackData params0) (routers0 1020) in
  let m := funded 1000 in
  let m' := outcome machine0 (exec THIS AAVE_POOL c AAVE_POOL m) in
  AAVE_POOL <> owner (st m) /\ never_as_call (owner (st m)) c /\
  exec THIS AAVE_POOL c AAVE_POOL m = Ok m' /\
  st m' = st m /\ log m' = log m.
Proof.
  intros c m m'.
  assert (H1 : AAVE_POOL <> owner (st m)) by discriminate.
  assert (H2 : never_as_call (owner (st m)) c) by (intros [|i] w; exact I).
  assert (H3 : exec THIS AAVE_POOL c AAVE_POOL m = Ok m')
    by (apply returned_outcome; vm_compute; reflexivity).
  destruct (@storage_changes_need_the_owner THIS AAVE_POOL c AAVE_POOL m m' H1 H2 H3)
    as [Hst Hlog].
  split; [exact H1|]. split; [exact H2|]. split; [exact H3|].
  split; [exact Hst | exact Hlog].
Defined.

(** ** The vault *)

Lemma executeSwaps_from_keeps this (ext : router_call) (P : ExecutorState -> Prop) :
  (forall i r p, keeps P (ext i r p)) ->
  forall swaps i, keeps P (_executeSwaps_from this ext i swaps).
Proof.
  intros Hext swaps. induction swaps as [|swap rest IH]; intros i m m' HP H.
  - now injection H as <-.
  - cbn [_executeSwaps_from] in H.
    fold (router_params this swap m) in H. fold (before_swap this swap m) in H.
    destruct (ext i (router swap) (router_params this swap m) (before_swap this swap m))
      as [m2|e] eqn:E; [|discriminate].
    apply Hext in E; [|exact HP]. eapply IH; eauto.
Qed.

Lemma exec_run_keep_vault this aavePool :
  (forall c sender, keeps (fun s => vault s <> 0) (exec this aavePool c sender)) /\
  (forall e, keeps (fun s => vault s <> 0) (run this aavePool e)).
Proof.
  apply Call_Ext_mutind.
  - intros params pool IH sender m m' HP H. cbn [exec] in H.
    unfold executeWithAave, onlyOwner, whenNotPaused, nonReentrant in H.
    destruct (sender =? owner (st m)); [|discriminate].
    destruct (paused (st m)); [discriminate|].
    destruct (_status (st m) =? ENTERED); [discriminate|].
    inv_bind H. injection H as <-.
    destruct (borrowAmount params =? 0); [discriminate|].
    destruct (_ =? _)%nat; [discriminate|].
    apply bind_Ok in Ha. destruct Ha as (m1 & Hfl & Ha).
    apply high_level_call_Ok in Hfl.
    apply bind_Ok in Ha. destruct Ha as (profit & _ & Ha).
    apply bind_Ok in Ha. destruct Ha as (m2 & Ht & Ha).
    injection Ha as <-. apply IH in Hfl; [|exact HP].
    assert (Hst : st m2 = st m1).
    { destruct (0 <? profit); [now apply transfer_st in Ht | now injection Ht as <-]. }
    simpl. rewrite Hst. exact Hfl.
  - intros asset amount premium initiator params routers IH sender m m' HP H.
    cbn [exec] in H. unfold executeOperation in H.
    destruct (negb (sender =? aavePool)); [discriminate|].
    destruct (negb (initiator =? this)); [discriminate|].
    inv_bind H. inv_bind H. inv_bind H. injection H as <-.
    eapply (@executeSwaps_from_keeps this _ (fun s => vault s <> 0)) in Ha0; eauto.
  - intros fee0 fee1 data routers IH sender m m' HP H.
    cbn [exec] in H. unfold uniswapV3FlashCallback in H.
    inv_bind H. destruct (cb_swaps a) as [|swap0 rest] eqn:Esw; [discriminate|].
    destruct (negb _); [discriminate|].
    inv_bind H. inv_bind H. apply transfer_st in H. destruct H as [-> _].
    eapply (@executeSwaps_from_keeps this _ (fun s => vault s <> 0)) in Ha0; eauto.
  - intros newOwner sender m m' HP H. cbn [exec] in H.
    unfold transferOwnership, onlyOwner in H.
    destruct (sender =? owner (st m)); [|discriminate].
    destruct (newOwner =? 0); [discriminate|]. now injection H as <-.
  - intros newVault sender m m' HP H. cbn [exec] in H.
    unfold setVault, onlyOwner in H.
    destruct (sender =? owner (st m)); [|discriminate].
    destruct (newVault =? 0) eqn:E; [discriminate|]. injection H as <-.
    simpl. now apply Z.eqb_neq.
  - intros sender m m' HP H. cbn [exec] in H. unfold togglePause, onlyOwner in H.
    destruct (sender =? owner (st m)); [|discriminate]. now injection H as <-.
  - intros bps sender m m' HP H. cbn [exec] in H. unfold setMinProfit, onlyOwner in H.
    destruct (sender =? owner (st m)); [|discriminate]. now injection H as <-.
  - intros token sender m m' HP H. cbn [exec] in H.
    unfold emergencyWithdraw, onlyOwner in H.
    destruct (sender =? owner (st m)); [|discriminate].
    destruct (0 <? _).
    + inv_bind H. injection H as <-. apply transfer_st in Ha.
      destruct Ha as [Ha _]. simpl. now rewrite Ha.
    + now injection H as <-.
  - intros m m' HP [= <-]. exact HP.
  - intros err m m' _ [=].
  - intros f k IH m m' HP H. simpl in H. apply IH in H; [exact H | exact HP].
  - intros sender c IHc k IHk m m' HP H. simpl in H.
    destruct (exec this aavePool c sender m) as [m1|err] eqn:E.
    + apply IHc in E; [|exact HP]. eapply IHk; eauto.
    + eapply IHk; eauto.
Qed.

(** X5.  The vault is never the zero address: the constructor refuses it, and no
    call of any function by anyone, with any code behind the pool and the
    routers, re-entrant calls included, makes it zero. *)
Theorem vault_is_never_zero :
  forall (this aavePool : address),
    (forall sender _vault _minProfitBps s,
        constructor sender _vault _minProfitBps = Ok s -> vault s <> 0) /\
    (forall c sender m m',
        vault (st m) <> 0 -> exec this aavePool c sender m = Ok m' -> vault (st m') <> 0).
Proof.
  intros this aavePool. split.
  - intros sender v bps s H. unfold constructor in H.
    destruct (v =? 0) eqn:E; [discriminate|]. injection H as <-.
    simpl. now apply Z.eqb_neq.
  - intros c sender. apply (proj1 (exec_run_keep_vault this aavePool)).
Qed.

Lemma vault_is_never_zero_witness :
  let c := Call_executeWithAave params0 meddling_pool in
  let m' := outcome machine0 (exec THIS AAVE_POOL c OWNER machine0) in
  (constructor OWNER VAULT 10 = Ok state0 /\ vault state0 <> 0) /\
  (vault (st machine0) <> 0 /\ exec THIS AAVE_POOL c OWNER machine0 = Ok m' /\
   vault (st m') <> 0).
Proof.
  intros c m'.
  destruct (vault_is_never_zero THIS AAVE_POOL) as [H1 H2].
  assert (E : exec THIS AAVE_POOL c OWNER machine0 = Ok m')
    by (apply returned_outcome; vm_compute; reflexivity).
  split.
  - split; [reflexivity|]. apply (H1 OWNER VAULT 10 state0). reflexivity.
  - split; [discriminate|]. split; [exact E|].
    apply (H2 c OWNER machine0 m'); [discriminate | exact E].
Defined.

(** ** Administrative functions *)

(** X6.  A completed [transferOwnership] was called by the owner with a non-zero
    address, logs the hand-over and changes nothing but the owner; from then
    on every administrative function and [executeWithAave] reject every
    caller other than the new owner, the previous owner included. *)
Theorem transferOwnership_hands_over :
  forall (this aavePool newOwner sender : address) (m m' : Machine),
    transferOwnership newOwner sender m = Ok m' ->
    sender = owner (st m) /\ newOwner <> 0 /\
    m' = set_owner newOwner (emit (OwnershipTransferred (owner (st m)) newOwner) m) /\
    owner (st m') = newOwner /\
    forall (c : Call) (other : address),
      other <> newOwner ->
      is_admin c = true \/ is_executeWithAave c = true ->
      exec this aavePool c other m' = Err Unauthorized.
Proof.
  intros this aavePool newOwner sender m m' H.
  unfold transferOwnership, onlyOwner in H.
  destruct (sender =? owner (st m)) eqn:Es; [|discriminate].
  destruct (newOwner =? 0) eqn:En; [discriminate|].
  injection H as <-. apply Z.eqb_eq in Es. apply Z.eqb_neq in En.
  repeat split; auto.
  intros c other Ho Hc. apply Z.eqb_neq in Ho.
  destruct c; simpl in Hc; destruct Hc as [Hc|Hc]; try discriminate; cbn [exec];
    unfold executeWithAave, transferOwnership, setVault, togglePause, setMinProfit,
           emergencyWithdraw, onlyOwner; simpl; now rewrite Ho.
Qed.

Lemma transferOwnership_hands_over_witness :
  let m' := set_owner ATTACKER (emit (OwnershipTransferred OWNER ATTACKER) machine0) in
  transferOwnership ATTACKER OWNER machine0 = Ok m' /\
  owner (st m') = ATTACKER /\
  exec THIS AAVE_POOL (Call_emergencyWithdraw TOKEN_A) OWNER m' = Err Unauthorized.
Proof.
  intros m'.
  assert (E : transferOwnership ATTACKER OWNER machine0 = Ok m') by reflexivity.
  destruct (transferOwnership_hands_over THIS AAVE_POOL ATTACKER OWNER machine0 E)
    as (_ & _ & _ & Ho & Hc).
  split; [exact E|]. split; [exact Ho|].
  apply Hc; [discriminate | left; reflexivity].
Defined.

(** X7.  [togglePause] by the owner flips the flag and logs its new value; while
    the flag is set, [executeWithAave] fails for every caller before the pool
    is reached; a second [togglePause] puts the storage back as it was. *)
Theorem togglePause_blocks_and_restores :
  forall (this : address) (m : Machine),
    exists m1 m2,
      togglePause (owner (st m)) m = Ok m1 /\
      paused (st m1) = negb (paused (st m)) /\
      world m1 = world m /\
      log m1 = log m ++ [PauseToggled (negb (paused (st m)))] /\
      (paused (st m) = false ->
       forall (fl : pool_call) params sender,
         executeWithAave this fl params sender m1
         = Err (if sender =? owner (st m) then Paused else Unauthorized)) /\
      togglePause (owner (st m)) m1 = Ok m2 /\
      st m2 = st m /\ world m2 = world m.
Proof.
  intros this m.
  exists (emit (PauseToggled (negb (paused (st m)))) (set_paused (negb (paused (st m))) m)).
  eexists. unfold togglePause, onlyOwner. rewrite Z.eqb_refl.
  split; [reflexivity|]. split; [reflexivity|]. split; [reflexivity|].
  split; [reflexivity|]. split.
  - intros Hp fl params sender.
    unfold executeWithAave, onlyOwner, whenNotPaused. simpl. rewrite Hp. simpl.
    destruct (sender =? owner (st m)); reflexivity.
  - simpl. rewrite Z.eqb_refl. split; [reflexivity|]. split; [|reflexivity].
    simpl. rewrite negb_involutive. destruct m as [[o v p s b] w l]. reflexivity.
Qed.

Lemma togglePause_blocks_and_restores_witness :
  exists m1,
    togglePause OWNER machine0 = Ok m1 /\ paused (st machine0) = false /\
    exec THIS AAVE_POOL (arbitrage 1020) OWNER m1 = Err Paused.
Proof.
  destruct (togglePause_blocks_and_restores THIS machine0)
    as (m1 & m2 & H1 & _ & _ & _ & Hb & _).
  exists m1. split; [exact H1|]. split; [reflexivity|].
  exact (Hb eq_refl _ params0 OWNER).
Defined.

(** X8.  [emergencyWithdraw] is refused to everyone but the owner; called by the
    owner it never fails, whatever the pause flag and the lock say: it moves
    the executor's whole balance of the token to the vault and logs it, or
    does nothing at all when there is no balance.  Other tokens, the storage
    and third parties' balances are untouched. *)
Theorem emergencyWithdraw_drains_to_vault :
  forall (this token : address) (m : Machine),
    let balance := balanceOf (world m) token this in
    (forall sender, sender <> owner (st m) ->
                    emergencyWithdraw this token sender m = Err Unauthorized) /\
    exists m',
      emergencyWithdraw this token (owner (st m)) m = Ok m' /\
      st m' = st m /\
      (forall t, t <> token -> balanceOf (world m') t = balanceOf (world m) t) /\
      (balance <= 0 -> m' = m) /\
      (0 < balance ->
       log m' = log m ++ [EmergencyWithdraw token balance] /\
       (forall h, h <> this -> h <> vault (st m) ->
                  balanceOf (world m') token h = balanceOf (world m) token h) /\
       (vault (st m) <> this ->
        balanceOf (world m') token this = 0 /\
        balanceOf (world m') token (vault (st m))
          = balanceOf (world m) token (vault (st m)) + balance)).
Proof.
  intros this token m balance. split.
  - intros sender Hs. unfold emergencyWithdraw, onlyOwner.
    apply Z.eqb_neq in Hs. now rewrite Hs.
  - unfold emergencyWithdraw, onlyOwner. rewrite Z.eqb_refl. fold balance.
    destruct (0 <? balance) eqn:Epos.
    + apply Z.ltb_lt in Epos.
      destruct (@transfer_succeeds token this (vault (st m)) balance m) as [m1 Ht];
        [unfold balance; lia|].
      rewrite Ht. cbn [bind]. eexists. split; [reflexivity|].
      apply transfer_Ok in Ht.
      destruct Ht as (_ & Hst & Hlog & _ & _ & Hbal & Hoth).
      cbn [st world log emit]. rewrite Hst, Hlog, Hbal.
      split; [reflexivity|]. split; [exact Hoth|]. split; [lia|].
      intros _. split; [reflexivity|]. split.
      * intros h H1 H2. now apply move_other.
      * intros Hv. rewrite move_from, move_to by congruence.
        fold balance. split; [lia | reflexivity].
    + apply Z.ltb_ge in Epos. exists m.
      split; [reflexivity|]. split; [reflexivity|]. split; [reflexivity|].
      split; [reflexivity|]. lia.
Qed.

Lemma emergencyWithdraw_drains_to_vault_witness :
  emergencyWithdraw THIS TOKEN_A ATTACKER (funded 15) = Err Unauthorized /\
  exists m',
    emergencyWithdraw THIS TOKEN_A OWNER (set_paused true (funded 15)) = Ok m' /\
    balanceOf (world m') TOKEN_A THIS = 0 /\
    balanceOf (world m') TOKEN_A VAULT = 15 /\
    log m' = [EmergencyWithdraw TOKEN_A 15].
Proof.
  destruct (emergencyWithdraw_drains_to_vault THIS TOKEN_A (funded 15)) as [H1 _].
  destruct (emergencyWithdraw_drains_to_vault THIS TOKEN_A (set_paused true (funded 15)))
    as (_ & m' & H2 & _ & _ & _ & H3).
  split; [apply H1; discriminate|].
  exists m'. split; [exact H2|].
  destruct H3 as (Hlog & _ & Hbal); [reflexivity|].
  destruct Hbal as [Hb1 Hb2]; [discriminate|].
  split; [exact Hb1|]. split; [exact Hb2 | exact Hlog].
Defined.

(** ** uniswapV3FlashCallback *)

(** X9.  A completed [uniswapV3FlashCallback] decoded a payload with at least one
    swap, was called by the pool the factory lists for that first swap, ran
    all the swaps and then paid the caller the borrowed amount plus [fee0]
    (or [fee1] when [fee0] is zero) out of the executor's balance of the
    borrowed token; at least [minProfit] of that token stays on the
    executor.  Storage and log are as the swaps left them. *)
Theorem uniswapV3FlashCallback_repays_caller :
  forall (this : address) (ext : router_call) (fee0 fee1 : uint256) (data : bytes)
         (sender : address) (m m' : Machine),
    uniswapV3FlashCallback this ext fee0 fee1 data sender m = Ok m' ->
    exists d swap0 rest m1,
      data = abi_encode d /\
      cb_swaps d = swap0 :: rest /\
      sender = getPool (world m) (tokenIn swap0) (tokenOut swap0) (fee swap0) /\
      _executeSwaps this ext (cb_swaps d) m = Ok m1 /\
      st m' = st m1 /\ log m' = log m1 /\
      let token := cb_borrowToken d in
      let owed := cb_borrowAmount d + (if 0 <? fee0 then fee0 else fee1) in
      owed + cb_minProfit d <= balanceOf (world m1) token this /\
      (sender <> this ->
       balanceOf (world m') token sender = balanceOf (world m1) token sender + owed /\
       balanceOf (world m') token this = balanceOf (world m1) token this - owed /\
       cb_minProfit d <= balanceOf (world m') token this).
Proof.
  intros this ext fee0 fee1 data sender m m' H.
  unfold uniswapV3FlashCallback in H.
  destruct data as [d|raw]; [|discriminate]. cbn [abi_decode bind] in H.
  destruct (cb_swaps d) as [|swap0 rest] eqn:Esw; [discriminate|].
  destruct (sender =? _) eqn:Es; [|discriminate]. cbn [negb] in H.
  apply Z.eqb_eq in Es.
  apply bind_Ok in H. destruct H as (m1 & Hsw & H).
  apply bind_Ok in H. destruct H as (owed & Hv & H).
  apply verifyProfit_Ok in Hv. destruct Hv as [-> Hv].
  apply transfer_Ok in H. destruct H as (_ & Hst & Hlog & _ & _ & Hbal & _).
  exists d, swap0, rest, m1. rewrite Esw.
  repeat split; auto.
  - rewrite Hbal, move_to by congruence. reflexivity.
  - rewrite Hbal, move_from by congruence. reflexivity.
  - rewrite Hbal, move_from by congruence. lia.
Qed.

Lemma uniswapV3FlashCallback_repays_caller_witness :
  let r := uniswapV3FlashCallback THIS idle_router 5 0 (abi_encode one_swap) UNI_POOL
             (funded 1015) in
  let m' := outcome machine0 r in
  r = Ok m' /\ UNI_POOL <> THIS /\
  balanceOf (world m') TOKEN_A UNI_POOL = 1005 /\
  balanceOf (world m') TOKEN_A THIS = 10.
Proof.
  intros r m'.
  assert (E : r = Ok m') by (apply returned_outcome; vm_compute; reflexivity).
  destruct (uniswapV3FlashCallback_repays_caller THIS idle_router 5 0
              (abi_encode one_swap) UNI_POOL (funded 1015) E)
    as (d & swap0 & rest & m1 & Hd & _ & _ & Hsw & _ & _ & _ & Hbal).
  injection Hd as <-. injection Hsw as <-.
  destruct Hbal as (H1 & H2 & _); [discriminate|].
  split; [exact E|]. split; [discriminate|].
  split; [exact H1 | exact H2].
Defined.

End ExecutorMore.

(* ===================================================================== *)
(** * Part II (continued).  Further properties of the bot                *)
(* ===================================================================== *)

(** ** The sign of a difference *)

Module FloatMore.
Import BotSpec FloatFacts.
Local Open Scope Z_scope.

Lemma neg_signed s x : SFltb x zero = true -> signed s x -> s = true.
Proof.
  destruct x as [sx| [|] | |[|] m e]; simpl; intros H Hs; try discriminate; congruence.
Qed.

Lemma SFsub_antisym x y :
  SFltb (SFsub prec emax x y) zero = true ->
  SFltb (SFsub prec emax y x) zero = false.
Proof.
  destruct x as [sx|sx| |sx mx ex]; destruct y as [sy|sy| |sy my ey];
    try (try destruct sx; try destruct sy; simpl; intros H;
         try discriminate; reflexivity).
  unfold SFsub.
  change (IntDef.Z.min ey ex) with (Z.min ey ex).
  change (IntDef.Z.min ex ey) with (Z.min ex ey).
  rewrite (Z.min_comm ey ex).
  set (ez := Z.min ex ey).
  set (a := Z.pos (fst (shl_align mx ex ez))).
  set (b := Z.pos (fst (shl_align my ey ez))).
  intros H.
  pose proof (binary_normalize_signed (cond_Zopp sx a - cond_Zopp sy b) ez false) as S1.
  pose proof (binary_normalize_signed (cond_Zopp sy b - cond_Zopp sx a) ez false) as S2.
  apply (@neg_signed _ _ H) in S1.
  apply signed_false_not_neg.
  replace (cond_Zopp sy b - cond_Zopp sx a <? 0) with false in S2; [exact S2|].
  symmetry. apply Z.ltb_ge. apply Z.ltb_lt in S1.
  lia.
Qed.

Lemma sub_antisym a b : (a - b <? 0)%float = true -> (b - a <? 0)%float = false.
Proof.
  rewrite !ltb_spec, !sub_spec. change (Prim2SF 0) with zero. apply SFsub_antisym.
Qed.

End FloatMore.

Module BotMore.

Import JS BotSpec BotScenario BotFacts FloatMore.
Import PriceMonitor.
Local Open Scope string_scope.

(** ** calculateMinOutput *)

(** X10.  For an expected output that is not negative and a tolerance of [bps]
    basis points between 0 and 10000, [calculateMinOutput] returns the
    decimal string of [expected * (10000 - bps) / 10000] rounded down: a
    bigint between zero and the expected output. *)
Theorem calculateMinOutput_rounds_down :
  forall (expectedOutput : Z) (slippageBps : number) (bps : Z),
    BigInt_of_number slippageBps = Some bps ->
    (0 <= expectedOutput)%Z -> (0 <= bps <= 10000)%Z ->
    exists (s : string) (minOutput : Z),
      CalldataEncoder.calculateMinOutput expectedOutput slippageBps = Some s /\
      BigInt s = Some minOutput /\
      (0 <= minOutput <= expectedOutput)%Z /\
      (minOutput * 10000 <= expectedOutput * (10000 - bps) < (minOutput + 1) * 10000)%Z.
Proof.
  intros expected slippageBps bps Hb He Hbps.
  unfold CalldataEncoder.calculateMinOutput. rewrite Hb.
  exists (BigInt_toString (Z.quot (expected * (10000 - bps)) 10000)),
         (Z.quot (expected * (10000 - bps)) 10000).
  split; [reflexivity|]. split; [apply BigInt_toString_roundtrip|].
  rewrite Z.quot_div_nonneg by nia.
  pose proof (Z.mul_div_le (expected * (10000 - bps)) 10000 ltac:(lia)).
  pose proof (Z.mul_succ_div_gt (expected * (10000 - bps)) 10000 ltac:(lia)).
  assert (0 <= expected * (10000 - bps) / 10000)%Z by (apply Z.div_pos; nia).
  repeat split; nia.
Qed.

Lemma calculateMinOutput_rounds_down_witness :
  CalldataEncoder.calculateMinOutput 1999 50%float = Some "1989" /\
  exists (s : string) (minOutput : Z),
    CalldataEncoder.calculateMinOutput 1999 50%float = Some s /\
    BigInt s = Some minOutput /\
    (0 <= minOutput <= 1999)%Z /\
    (minOutput * 10000 <= 1999 * (10000 - 50) < (minOutput + 1) * 10000)%Z.
Proof.
  split; [vm_compute; reflexivity|].
  apply (@calculateMinOutput_rounds_down 1999 50%float 50);
    [vm_compute; reflexivity | lia | lia].
Defined.

(** ** evaluate *)

Lemma calculateProfit_flags this o amount decimals pa :
  OpportunityDetector.calculateProfit this o amount decimals = Some pa ->
  OpportunityDetector.isViable pa
  = OpportunityDetector.slippageAcceptable pa
    && OpportunityDetector.profitAcceptable pa
    && OpportunityDetector.bpsAcceptable pa.
Proof.
  unfold OpportunityDetector.calculateProfit.
  destruct (BigInt amount); [|discriminate].
  destruct (OpportunityDetector.modelSlippage this amount _ _); [|discriminate].
  destruct (OpportunityDetector.modelSlippage this amount _ _); [|discriminate].
  intros [= <-]. reflexivity.
Qed.

(** X11.  The verdict of [evaluate] and its reason agree: the reason is the
    execute message exactly when [shouldExecute] is set, otherwise it names
    the first criterion that failed, in the order slippage, net profit,
    profit in basis points; it is never left empty. *)
Theorem evaluate_reason_matches_verdict :
  forall (this : OpportunityDetector.t) (opportunity : Opportunity.t)
         (ev : OpportunityDetector.Evaluation),
    OpportunityDetector.evaluate this opportunity = Some ev ->
    let pa := OpportunityDetector.ev_profitAnalysis ev in
    (OpportunityDetector.shouldExecute ev = true <->
     OpportunityDetector.reason ev = "All criteria met - EXECUTE") /\
    (OpportunityDetector.slippageAcceptable pa = false ->
     OpportunityDetector.reason ev = "Slippage exceeds threshold") /\
    (OpportunityDetector.slippageAcceptable pa = true ->
     OpportunityDetector.profitAcceptable pa = false ->
     OpportunityDetector.reason ev
     = "Net profit $" ++ OpportunityDetector.netProfitAfterGas pa ++ " < min $"
         ++ Number_toString (OpportunityDetector.minProfitUsd this)) /\
    (OpportunityDetector.slippageAcceptable pa = true ->
     OpportunityDetector.profitAcceptable pa = true ->
     OpportunityDetector.bpsAcceptable pa = false ->
     OpportunityDetector.reason ev
     = "Profit " ++ OpportunityDetector.profitBps pa ++ " bps < min "
         ++ Number_toString (OpportunityDetector.minProfitBps this) ++ " bps") /\
    OpportunityDetector.reason ev <> "".
Proof.
  intros this o ev H pa. unfold OpportunityDetector.evaluate in H.
  destruct (OpportunityDetector.calculateOptimalAmount this o) as [sizing|];
    [|discriminate].
  match type of H with
  | context [OpportunityDetector.calculateProfit ?t ?o ?a ?d] =>
      destruct (OpportunityDetector.calculateProfit t o a d) as [pa'|] eqn:E;
        [|discriminate]
  end.
  apply calculateProfit_flags in E. injection H as <-.
  subst pa.
  cbn [OpportunityDetector.ev_profitAnalysis OpportunityDetector.shouldExecute
       OpportunityDetector.reason].
  rewrite E.
  destruct (OpportunityDetector.slippageAcceptable pa');
    destruct (OpportunityDetector.profitAcceptable pa');
    destruct (OpportunityDetector.bpsAcceptable pa');
    cbn [negb andb];
    (split; [split; [try discriminate; reflexivity | try reflexivity; discriminate]|]);
    repeat split; try discriminate; try reflexivity.
Qed.

Lemma evaluate_reason_matches_verdict_witness :
  exists ev,
    OpportunityDetector.evaluate detector0 opportunity0 = Some ev /\
    OpportunityDetector.shouldExecute ev = false /\
    OpportunityDetector.reason ev <> "All criteria met - EXECUTE" /\
    OpportunityDetector.reason ev <> "".
Proof.
  destruct (OpportunityDetector.evaluate detector0 opportunity0) as [ev|] eqn:E;
    [|vm_compute in E; discriminate].
  exists ev. split; [reflexivity|].
  destruct (@evaluate_reason_matches_verdict detector0 opportunity0 ev E)
    as (H1 & _ & _ & _ & H5).
  assert (Hs : OpportunityDetector.shouldExecute ev = false).
  { vm_compute in E. injection E as <-. reflexivity. }
  split; [exact Hs|]. split; [|exact H5].
  intros Hr. apply H1 in Hr. congruence.
Defined.

(** ** The default thresholds *)

Lemma BigInt_of_number_10 : BigInt_of_number 10%float = Some 10%Z.
Proof. vm_compute. reflexivity. Qed.

(** An impact between 66 and 100 basis points is above the default
    tolerance of 50, whatever the fee multiplier. *)

Lemma impact_above_50 (r : Z) (feeTier : number) :
  (66 <= r <= 100)%Z ->
  PrimFloat.leb
    (Number_of_BigInt r
     * (if PrimFloat.eqb feeTier 100 then 3
        else if PrimFloat.eqb feeTier 500 then 2 else 1))%float 50%float = false.
Proof.
  intros Hr.
  assert (Hn : exists n, r = (66 + Z.of_nat n)%Z /\ (n < 35)%nat).
  { exists (Z.to_nat (r - 66)). split; lia. }
  destruct Hn as (n & -> & Hn).
  destruct (PrimFloat.eqb feeTier 100); [|destruct (PrimFloat.eqb feeTier 500)];
    do 35 (destruct n as [|n]; [vm_compute; reflexivity|]); lia.
Qed.

(** One hundredth of a liquidity of at least 200 units, rounded down twice
    as [calculateOptimalAmount] does, makes an impact between 66 and 100
    basis points on that liquidity. *)

Lemma impact_of_optimal (l : Z) :
  (200 <= l)%Z ->
  (66 <= Z.quot (Z.quot (Z.quot (l * 10) 100) 10 * 10000) l <= 100)%Z.
Proof.
  intros Hl.
  rewrite (Z.quot_div_nonneg (l * 10) 100) by lia.
  pose proof (Z.mul_div_le (l * 10) 100 ltac:(lia)) as A1.
  pose proof (Z.mul_succ_div_gt (l * 10) 100 ltac:(lia)) as A2.
  set (a := (l * 10 / 100)%Z) in *.
  assert (Ha : (0 <= a)%Z) by (apply Z.div_pos; lia).
  rewrite (Z.quot_div_nonneg a 10) by lia.
  pose proof (Z.mul_div_le a 10 ltac:(lia)) as B1.
  pose proof (Z.mul_succ_div_gt a 10 ltac:(lia)) as B2.
  set (q := (a / 10)%Z) in *.
  assert (Hq : (2 <= q)%Z) by lia.
  rewrite Z.quot_div_nonneg by lia.
  pose proof (Z.mul_div_le (q * 10000) l ltac:(lia)) as C1.
  pose proof (Z.mul_succ_div_gt (q * 10000) l ltac:(lia)) as C2.
  set (r := (q * 10000 / l)%Z) in *.
  assert (Hr : (0 <= r)%Z) by (apply Z.div_pos; lia).
  split; nia.
Qed.

Lemma modelSlippage_returns this amount liquidity feeTier a l :
  BigInt amount = Some a -> BigInt liquidity = Some l ->
  exists sl, OpportunityDetector.modelSlippage this amount liquidity feeTier = Some sl.
Proof.
  intros Ha Hl. unfold OpportunityDetector.modelSlippage. rewrite Ha, Hl.
  destruct (l =? 0)%Z; eauto.
Qed.

Lemma modelSlippage_above_50 this amount liquidity feeTier a l :
  OpportunityDetector.maxSlippageBps this = 50%float ->
  BigInt amount = Some a -> BigInt liquidity = Some l ->
  (66 <= Z.quot (a * 10000) l <= 100)%Z ->
  exists sl,
    OpportunityDetector.modelSlippage this amount liquidity feeTier = Some sl /\
    OpportunityDetector.acceptable sl = false.
Proof.
  intros Hmax Ha Hl Hr. unfold OpportunityDetector.modelSlippage. rewrite Ha, Hl, Hmax.
  destruct (l =? 0)%Z; eexists; (split; [reflexivity|]); [reflexivity|].
  cbn [OpportunityDetector.acceptable]. now apply impact_above_50.
Qed.

Lemma calculateProfit_slippage this o amount decimals a sb ss :
  BigInt amount = Some a ->
  OpportunityDetector.modelSlippage this amount (Opportunity.buyLiquidity o)
    (Opportunity.buyFee o) = Some sb ->
  OpportunityDetector.modelSlippage this amount (Opportunity.sellLiquidity o)
    (Opportunity.sellFee o) = Some ss ->
  exists pa,
    OpportunityDetector.calculateProfit this o amount decimals = Some pa /\
    OpportunityDetector.slippageAcceptable pa
    = OpportunityDetector.acceptable sb && OpportunityDetector.acceptable ss.
Proof.
  intros Ha Hb Hs. unfold OpportunityDetector.calculateProfit.
  rewrite Ha, Hb, Hs. eexists. split; reflexivity.
Qed.

Lemma evaluate_slippage this o sizing :
  OpportunityDetector.calculateOptimalAmount this o = Some sizing ->
  (forall decimals, exists pa,
      OpportunityDetector.calculateProfit this o
        (OpportunityDetector.optimalAmount sizing) decimals = Some pa /\
      OpportunityDetector.slippageAcceptable pa = false) ->
  exists ev,
    OpportunityDetector.evaluate this o = Some ev /\
    OpportunityDetector.shouldExecute ev = false /\
    OpportunityDetector.reason ev = "Slippage exceeds threshold".
Proof.
  intros Hs Hp. unfold OpportunityDetector.evaluate. rewrite Hs.
  match goal with
  | |- context [OpportunityDetector.calculateProfit this o _ ?d] =>
      destruct (Hp d) as (pa & E & Hf); rewrite E
  end.
  eexists. split; [reflexivity|].
  cbn [OpportunityDetector.shouldExecute OpportunityDetector.reason].
  rewrite Hf. split; [|reflexivity].
  rewrite (calculateProfit_flags _ _ _ _ E), Hf. reflexivity.
Qed.

Lemma evaluate_default_thresholds :
  forall (this : OpportunityDetector.t) (opportunity : Opportunity.t)
         (buyLiquidity sellLiquidity : Z),
    OpportunityDetector.maxSlippageBps this
      = Config.MAX_SLIPPAGE_BPS Config.SAFETY ->
    OpportunityDetector.maxFlashloanPercent this
      = Config.MAX_FLASHLOAN_PERCENT Config.SAFETY ->
    BigInt (Opportunity.buyLiquidity opportunity) = Some buyLiquidity ->
    BigInt (Opportunity.sellLiquidity opportunity) = Some sellLiquidity ->
    (200 <= buyLiquidity)%Z -> (200 <= sellLiquidity)%Z ->
    exists ev,
      OpportunityDetector.evaluate this opportunity = Some ev /\
      OpportunityDetector.shouldExecute ev = false /\
      OpportunityDetector.reason ev = "Slippage exceeds threshold".
Proof.
  intros this o bl sl Hmax Hpct Hb Hs Hbl Hsl.
  change (Config.MAX_SLIPPAGE_BPS Config.SAFETY) with 50%float in Hmax.
  change (Config.MAX_FLASHLOAN_PERCENT Config.SAFETY) with 10%float in Hpct.
  set (l := if (bl <? sl)%Z then bl else sl).
  set (amount := Z.quot (Z.quot (l * 10) 100) 10).
  assert (Hsize : exists sizing,
             OpportunityDetector.calculateOptimalAmount this o = Some sizing /\
             OpportunityDetector.optimalAmount sizing = BigInt_toString amount).
  { unfold OpportunityDetector.calculateOptimalAmount.
    rewrite Hb, Hs, Hpct, BigInt_of_number_10. eexists. split; reflexivity. }
  destruct Hsize as (sizing & Hsizing & Hamount).
  pose proof (BigInt_toString_roundtrip amount) as Ha. rewrite <- Hamount in Ha.
  assert (Hacc : exists sb ss,
             OpportunityDetector.modelSlippage this (OpportunityDetector.optimalAmount sizing)
               (Opportunity.buyLiquidity o) (Opportunity.buyFee o) = Some sb /\
             OpportunityDetector.modelSlippage this (OpportunityDetector.optimalAmount sizing)
               (Opportunity.sellLiquidity o) (Opportunity.sellFee o) = Some ss /\
             OpportunityDetector.acceptable sb && OpportunityDetector.acceptable ss = false).
  { unfold amount, l in Ha. destruct (bl <? sl)%Z.
    - destruct (@modelSlippage_above_50 this _ _ (Opportunity.buyFee o) _ _ Hmax Ha Hb
                  (impact_of_optimal Hbl)) as (sb & E1 & F1).
      destruct (@modelSlippage_returns this _ _ (Opportunity.sellFee o) _ _ Ha Hs)
        as (ss & E2).
      exists sb, ss. rewrite F1. auto.
    - destruct (@modelSlippage_returns this _ _ (Opportunity.buyFee o) _ _ Ha Hb)
        as (sb & E1).
      destruct (@modelSlippage_above_50 this _ _ (Opportunity.sellFee o) _ _ Hmax Ha Hs
                  (impact_of_optimal Hsl)) as (ss & E2 & F2).
      exists sb, ss. rewrite F2, andb_false_r. auto. }
  destruct Hacc as (sb & ss & E1 & E2 & F).
  apply evaluate_slippage with (sizing := sizing); [exact Hsizing|].
  intros d.
  destruct (@calculateProfit_slippage this o _ d _ sb ss Ha E1 E2) as (pa & E & Hf).
  exists pa. split; [exact E|]. now rewrite Hf.
Qed.

(** X12.  With the default thresholds (at most 10% of the smaller liquidity,
    at most 50 basis points of slippage) [evaluate] never recommends an
    execution when both pools hold at least 200 units: the amount it sizes
    makes an impact of 66 to 100 basis points on the smaller pool, so the
    verdict is always "Slippage exceeds threshold", whatever the prices, the
    fees and the profit. *)
Theorem default_thresholds_never_execute :
  forall (this : OpportunityDetector.t) (opportunity : Opportunity.t)
         (buyLiquidity sellLiquidity : Z),
    OpportunityDetector.maxSlippageBps this
      = Config.MAX_SLIPPAGE_BPS Config.SAFETY ->
    OpportunityDetector.maxFlashloanPercent this
      = Config.MAX_FLASHLOAN_PERCENT Config.SAFETY ->
    BigInt (Opportunity.buyLiquidity opportunity) = Some buyLiquidity ->
    BigInt (Opportunity.sellLiquidity opportunity) = Some sellLiquidity ->
    (200 <= buyLiquidity)%Z -> (200 <= sellLiquidity)%Z ->
    exists ev,
      OpportunityDetector.evaluate this opportunity = Some ev /\
      OpportunityDetector.shouldExecute ev = false /\
      OpportunityDetector.reason ev = "Slippage exceeds threshold".
Proof.
  intros this opportunity buyLiquidity sellLiquidity Hmax Hpct Hb Hs Hbl Hsl.
  eapply evaluate_default_thresholds; eauto.
Qed.

Lemma default_thresholds_never_execute_witness :
  exists ev,
    OpportunityDetector.evaluate detector0 opportunity_deep = Some ev /\
    OpportunityDetector.shouldExecute ev = false /\
    OpportunityDetector.reason ev = "Slippage exceeds threshold".
Proof.
  apply (@default_thresholds_never_execute detector0 opportunity_deep
           5000000000000000000000000 7000000000000000000000000);
    try reflexivity; try lia; vm_compute; reflexivity.
Defined.

(** ** An empty pool *)

Lemma modelSlippage_empty this amount liquidity feeTier sl :
  BigInt liquidity = Some 0%Z ->
  OpportunityDetector.modelSlippage this amount liquidity feeTier = Some sl ->
  OpportunityDetector.acceptable sl = false.
Proof.
  intros Hl. unfold OpportunityDetector.modelSlippage. rewrite Hl.
  destruct (BigInt amount); [|discriminate]. simpl. intros [= <-]. reflexivity.
Qed.

(** X13.  Whatever the thresholds of the detector, an opportunity one of whose
    pools reports no liquidity is never recommended: if [evaluate] returns,
    its verdict is "Slippage exceeds threshold". *)
Theorem empty_pool_never_executes :
  forall (this : OpportunityDetector.t) (opportunity : Opportunity.t)
         (ev : OpportunityDetector.Evaluation),
    BigInt (Opportunity.buyLiquidity opportunity) = Some 0%Z \/
    BigInt (Opportunity.sellLiquidity opportunity) = Some 0%Z ->
    OpportunityDetector.evaluate this opportunity = Some ev ->
    OpportunityDetector.shouldExecute ev = false /\
    OpportunityDetector.reason ev = "Slippage exceeds threshold".
Proof.
  intros this o ev Hz H. unfold OpportunityDetector.evaluate in H.
  destruct (OpportunityDetector.calculateOptimalAmount this o) as [sizing|];
    [|discriminate].
  match type of H with
  | context [OpportunityDetector.calculateProfit ?t ?o ?a ?d] =>
      destruct (OpportunityDetector.calculateProfit t o a d) as [pa|] eqn:E;
        [|discriminate]
  end.
  injection H as <-.
  cbn [OpportunityDetector.shouldExecute OpportunityDetector.reason].
  assert (Hf : OpportunityDetector.slippageAcceptable pa = false).
  { unfold OpportunityDetector.calculateProfit in E.
    destruct (BigInt (OpportunityDetector.optimalAmount sizing)); [|discriminate].
    destruct (OpportunityDetector.modelSlippage this _ (Opportunity.buyLiquidity o) _)
      as [sb|] eqn:Eb; [|discriminate].
    destruct (OpportunityDetector.modelSlippage this _ (Opportunity.sellLiquidity o) _)
      as [ss|] eqn:Es; [|discriminate].
    injection E as <-. cbn [OpportunityDetector.slippageAcceptable].
    destruct Hz as [Hz|Hz].
    - now rewrite (modelSlippage_empty _ _ _ _ Hz Eb).
    - now rewrite (modelSlippage_empty _ _ _ _ Hz Es), andb_false_r. }
  rewrite (calculateProfit_flags _ _ _ _ E), Hf. auto.
Qed.

Lemma empty_pool_never_executes_witness :
  let o := opportunity_of (quote "Uniswap" "0xA" 500%float 3000%float "0") q3050 in
  exists ev,
    OpportunityDetector.evaluate detector100 o = Some ev /\
    OpportunityDetector.shouldExecute ev = false /\
    OpportunityDetector.reason ev = "Slippage exceeds threshold".
Proof.
  intros o.
  destruct (OpportunityDetector.evaluate detector100 o) as [ev|] eqn:E;
    [|vm_compute in E; discriminate].
  exists ev. split; [reflexivity|].
  apply (@empty_pool_never_executes detector100 o ev); [|exact E].
  left. vm_compute. reflexivity.
Defined.

(** ** The order of the opportunities *)

Section Ordered.

Variable A : Type.
Variable comparefn : A -> A -> number.
Hypothesis antisym :
  forall x y, (comparefn x y <? 0)%float = true -> (comparefn y x <? 0)%float = false.

Lemma insert_ordered x l :
  ordered_by comparefn l -> ordered_by comparefn (insert comparefn x l).
Proof.
  induction l as [|y ys IH]; intros Ho; [exact I|].
  cbn [insert]. destruct (comparefn x y <? 0)%float eqn:E.
  - split; [apply antisym; exact E | exact Ho].
  - destruct ys as [|z zs].
    + cbn [insert]. split; [exact E | exact I].
    + destruct Ho as [Hzy Ho]. specialize (IH Ho).
      cbn [insert] in IH |- *.
      destruct (comparefn x z <? 0)%float; split; auto.
Qed.

Lemma fold_insert_ordered l : forall acc,
  ordered_by comparefn acc ->
  ordered_by comparefn (fold_left (fun acc x => insert comparefn x acc) l acc).
Proof.
  induction l as [|x l IH]; intros acc Ho; [exact Ho|].
  apply IH, insert_ordered, Ho.
Qed.

Lemma sort_ordered l : ordered_by comparefn (sort comparefn l).
Proof. apply fold_insert_ordered. exact I. Qed.

Lemma ordered_by_nth l : forall i x y,
  ordered_by comparefn l ->
  nth_error l i = Some x -> nth_error l (S i) = Some y ->
  (comparefn y x <? 0)%float = false.
Proof.
  induction l as [|a l IH]; intros i x y Ho Hx Hy; [destruct i; discriminate|].
  destruct l as [|b l]; [destruct i; discriminate|].
  destruct Ho as [Hab Ho]. destruct i as [|i].
  - injection Hx as <-. injection Hy as <-. exact Hab.
  - apply (IH i x y Ho Hx Hy).
Qed.

End Ordered.

(** X14.  [findArbitrageOpportunities] returns the opportunities it pushed, all of
    them and each as often as pushed, in an order in which the gross margin
    of an opportunity minus that of the next one is never negative: best
    first. *)
Theorem findArbitrageOpportunities_best_first :
  forall prices : list PoolQuote.t,
    let found := findArbitrageOpportunities prices in
    Permutation found (compare_all prices) /\
    forall i o1 o2,
      nth_error found i = Some o1 -> nth_error found (S i) = Some o2 ->
      (Opportunity.grossProfitPercent o1 - Opportunity.grossProfitPercent o2 <? 0)%float
      = false.
Proof.
  intros prices found. split; [apply sort_perm|].
  intros i o1 o2 H1 H2.
  apply (@ordered_by_nth _
           (fun a b => (Opportunity.grossProfitPercent b
                        - Opportunity.grossProfitPercent a)%float)
           found i o1 o2); auto.
  apply sort_ordered. intros x y. apply sub_antisym.
Qed.

Lemma findArbitrageOpportunities_best_first_witness :
  let found := findArbitrageOpportunities [q3000; q3005; q3050] in
  exists o1 o2,
    nth_error found 0 = Some o1 /\ nth_error found 1 = Some o2 /\
    (Opportunity.grossProfitPercent o1 - Opportunity.grossProfitPercent o2 <? 0)%float
    = false.
Proof.
  intros found.
  destruct (nth_error found 0) as [o1|] eqn:E1; [|vm_compute in E1; discriminate].
  destruct (nth_error found 1) as [o2|] eqn:E2; [|vm_compute in E2; discriminate].
  exists o1, o2. split; [reflexivity|]. split; [reflexivity|].
  destruct (findArbitrageOpportunities_best_first [q3000; q3005; q3050]) as [_ H].
  exact (H 0%nat o1 o2 E1 E2).
Defined.

(** ** The pool cache *)

Lemma Map_get_set_same k v c : Map_get k (Map_set k v c) = Some v.
Proof.
  induction c as [|[k0 v0] rest IH]; cbn [Map_set Map_get].
  - now rewrite String.eqb_refl.
  - destruct (String.eqb k k0) eqn:E; cbn [Map_get]; rewrite E; auto.
Qed.

Lemma Map_get_set_other k k' v c :
  k' <> k -> Map_get k' (Map_set k v c) = Map_get k' c.
Proof.
  intros Hk. induction c as [|[k0 v0] rest IH]; cbn [Map_set Map_get].
  - apply String.eqb_neq in Hk. now rewrite Hk.
  - destruct (String.eqb k k0) eqn:E; cbn [Map_get].
    + apply String.eqb_eq in E. subst k0.
      apply String.eqb_neq in Hk. now rewrite Hk.
    + now rewrite IH.
Qed.

Lemma zero_free_set k v c :
  v <> Config.ZERO_ADDRESS -> zero_free c -> zero_free (Map_set k v c).
Proof.
  intros Hv Hc key value H.
  destruct (String.eqb key k) eqn:E.
  - apply String.eqb_eq in E. subst key. rewrite Map_get_set_same in H. congruence.
  - apply String.eqb_neq in E. rewrite Map_get_set_other in H by exact E.
    eapply Hc; eauto.
Qed.

Lemma getPoolAddress_cases client poolCache tokenA tokenB fee factory :
  let key := cacheKey factory tokenA tokenB fee in
  let r := getPoolAddress client poolCache tokenA tokenB fee factory in
  (exists a, Map_get key poolCache = Some a /\ r = (Some a, poolCache)) \/
  (Map_get key poolCache = None /\
   read_getPool client factory tokenA tokenB fee = None /\ r = (None, poolCache)) \/
  (Map_get key poolCache = None /\
   read_getPool client factory tokenA tokenB fee = Some Config.ZERO_ADDRESS /\
   r = (Some Config.ZERO_ADDRESS, poolCache)) \/
  (exists a, Map_get key poolCache = None /\ a <> Config.ZERO_ADDRESS /\
             read_getPool client factory tokenA tokenB fee = Some a /\
             r = (Some a, Map_set key a poolCache)).
Proof.
  intros key r. subst r. unfold getPoolAddress. fold (cacheKey factory tokenA tokenB fee).
  fold key. unfold Map_has.
  destruct (Map_get key poolCache) as [a|] eqn:E; [left; eauto|]. right.
  destruct (read_getPool client factory tokenA tokenB fee) as [a|]; [|left; auto].
  right. destruct (String.eqb a Config.ZERO_ADDRESS) eqn:Ea; cbn [negb].
  - apply String.eqb_eq in Ea. subst a. left. auto.
  - apply String.eqb_neq in Ea. right. exists a. auto.
Qed.

(** X15.  [getPoolAddress] files every pool address other than the zero address
    under the key of its factory, tokens and fee tier, and nothing else:
    the other keys keep their entries, the zero address is never stored,
    an address found in the cache is returned without a read, and a
    non-zero answer is returned again by every later call for the same key,
    whatever the chain then says. *)
Theorem getPoolAddress_caches_pools :
  forall (client : Chain) (poolCache : Cache) (tokenA tokenB : string) (fee : number)
         (factory : string),
    let key := cacheKey factory tokenA tokenB fee in
    let r := getPoolAddress client poolCache tokenA tokenB fee factory in
    (forall k, k <> key -> Map_get k (snd r) = Map_get k poolCache) /\
    (zero_free poolCache -> zero_free (snd r)) /\
    (forall a, Map_get key poolCache = Some a ->
               forall client', getPoolAddress client' poolCache tokenA tokenB fee factory
                               = (Some a, poolCache)) /\
    (forall a, fst r = Some a -> a <> Config.ZERO_ADDRESS ->
               forall client', getPoolAddress client' (snd r) tokenA tokenB fee factory
                               = (Some a, snd r)).
Proof.
  intros client poolCache tokenA tokenB fee factory key r.
  assert (Hhit : forall c a, Map_get key c = Some a ->
                 forall client', getPoolAddress client' c tokenA tokenB fee factory
                                 = (Some a, c)).
  { intros c a Ha client'.
    destruct (getPoolAddress_cases client' c tokenA tokenB fee factory)
      as [(a' & H1 & H2)|[(H1 & _)|[(H1 & _)|(a' & H1 & _)]]];
      fold key in H1; congruence. }
  destruct (getPoolAddress_cases client poolCache tokenA tokenB fee factory)
    as [(a & H1 & H2)|[(H1 & _ & H2)|[(H1 & _ & H2)|(a & H1 & Ha & _ & H2)]]];
    fold key in H1; fold r in H2; rewrite H2; cbn [fst snd];
    (split; [|split; [|split; [exact (Hhit poolCache)|]]]); auto.
  - intros a' [= <-] _. now apply Hhit.
  - discriminate.
  - intros a' [= <-] Hz. congruence.
  - intros k Hk. now apply Map_get_set_other.
  - now apply zero_free_set.
  - intros a' [= <-] _. apply Hhit. apply Map_get_set_same.
Qed.

Lemma getPoolAddress_caches_pools_witness :
  let r := getPoolAddress chain0 [] Config.WETH Config.USDC 500%float
             Config.UNISWAP_V3_FACTORY in
  fst r = Some "0xA" /\ "0xA" <> Config.ZERO_ADDRESS /\
  getPoolAddress chain_down (snd r) Config.WETH Config.USDC 500%float
    Config.UNISWAP_V3_FACTORY = (Some "0xA", snd r).
Proof.
  intros r.
  assert (H1 : fst r = Some "0xA") by (vm_compute; reflexivity).
  assert (H2 : "0xA" <> Config.ZERO_ADDRESS) by discriminate.
  split; [exact H1|]. split; [exact H2|].
  destruct (getPoolAddress_caches_pools chain0 [] Config.WETH Config.USDC 500%float
              Config.UNISWAP_V3_FACTORY) as (_ & _ & _ & H).
  exact (H "0xA" H1 H2 chain_down).
Defined.

(** ** getPricesForPair and monitorPair *)

Lemma quote_pool_cases host client tokenA tokenB name address fee quotes poolCache :
  let r := quote_pool host client tokenA tokenB name address fee (quotes, poolCache) in
  snd r = snd (getPoolAddress client poolCache tokenA tokenB fee address) /\
  (fst r = quotes \/
   exists q, fst r = (quotes ++ [q])%list /\ read_from host client name address fee q).
Proof.
  cbn zeta. unfold quote_pool.
  destruct (getPoolAddress client poolCache tokenA tokenB fee address) as [[a|] c];
    cbn [snd]; [|auto].
  destruct (String.eqb a Config.ZERO_ADDRESS) eqn:Ea; [auto|].
  apply String.eqb_neq in Ea.
  destruct (getPoolState client a) as [state|] eqn:Es; [|auto].
  split; [reflexivity|]. right. eexists. split; [reflexivity|].
  unfold read_from. cbn.
  repeat split; auto. exists state. repeat split; auto.
Qed.

Lemma fold_quote_pool host client tokenA tokenB name address fees :
  forall quotes poolCache,
    let r := fold_left
               (fun acc fee => quote_pool host client tokenA tokenB name address fee acc)
               fees (quotes, poolCache) in
    (zero_free poolCache -> zero_free (snd r)) /\
    exists added,
      fst r = (quotes ++ added)%list /\
      (List.length added <= List.length fees)%nat /\
      forall q, In q added ->
                exists fee, In fee fees /\ read_from host client name address fee q.
Proof.
  induction fees as [|fee fees IH]; intros quotes poolCache; cbn zeta.
  - cbn [fold_left fst snd]. split; [auto|]. exists []. rewrite app_nil_r.
    repeat split; auto. intros q [].
  - cbn [fold_left].
    destruct (quote_pool_cases host client tokenA tokenB name address fee quotes poolCache)
      as [Hc Hq].
    destruct (quote_pool host client tokenA tokenB name address fee (quotes, poolCache))
      as [quotes1 cache1].
    cbn [fst snd] in Hc, Hq.
    destruct (IH quotes1 cache1) as (Hz & added & Ha & Hl & Hin). cbn zeta in *.
    split.
    + intros H0. apply Hz. rewrite Hc.
      now apply (getPoolAddress_caches_pools client poolCache tokenA tokenB fee address).
    + destruct Hq as [->|(q & -> & Hq)].
      * exists added. split; [exact Ha|]. split; [cbn [List.length]; lia|].
        intros q' Hq'. destruct (Hin q' Hq') as (fee' & Hf & Hr).
        exists fee'. split; [right; exact Hf | exact Hr].
      * exists (q :: added). split; [rewrite Ha, <- app_assoc; reflexivity|].
        split; [cbn [List.length]; lia|].
        intros q' [<-|Hq'].
        -- exists fee. split; [left; reflexivity | exact Hq].
        -- destruct (Hin q' Hq') as (fee' & Hf & Hr).
           exists fee'. split; [right; exact Hf | exact Hr].
Qed.

Lemma getPricesForPair_quotes host client poolCache tokenA tokenB :
  let r := getPricesForPair host client poolCache tokenA tokenB in
  (zero_free poolCache -> zero_free (snd r)) /\
  (List.length (fst r) <= 8)%nat /\
  forall q, In q (fst r) ->
    exists name address fee,
      In (address, name) factories /\ In fee Config.FEE_TIERS /\
      read_from host client name address fee q.
Proof.
  cbn zeta. unfold getPricesForPair, factories. cbn [fold_left fst snd].
  destruct (fold_quote_pool host client tokenA tokenB "Uniswap"
              Config.UNISWAP_V3_FACTORY Config.FEE_TIERS [] poolCache)
    as (Hz1 & added1 & Ha1 & Hl1 & Hin1). cbn zeta in *.
  destruct (fold_left _ Config.FEE_TIERS ([], poolCache)) as [quotes1 cache1].
  cbn [fst snd] in *.
  destruct (fold_quote_pool host client tokenA tokenB "SushiSwap"
              Config.SUSHI_V3_FACTORY Config.FEE_TIERS quotes1 cache1)
    as (Hz2 & added2 & Ha2 & Hl2 & Hin2). cbn zeta in *.
  destruct (fold_left _ Config.FEE_TIERS (quotes1, cache1)) as [quotes2 cache2].
  cbn [fst snd] in *. subst quotes1 quotes2.
  split; [auto|]. split.
  - rewrite app_nil_l, length_app. cbn [List.length Config.FEE_TIERS] in Hl1, Hl2. lia.
  - intros q Hq. rewrite app_nil_l in Hq. apply in_app_or in Hq.
    destruct Hq as [Hq|Hq].
    + destruct (Hin1 q Hq) as (fee & Hf & Hr).
      exists "Uniswap", Config.UNISWAP_V3_FACTORY, fee.
      split; [left; reflexivity|]. split; [exact Hf | exact Hr].
    + destruct (Hin2 q Hq) as (fee & Hf & Hr).
      exists "SushiSwap", Config.SUSHI_V3_FACTORY, fee.
      split; [right; left; reflexivity|]. split; [exact Hf | exact Hr].
Qed.

(** X16.  [getPricesForPair] returns at most eight quotes, one for each of the
    two factories and the four fee tiers at most; every quote is that of a
    pool that is not the zero address and whose state was read, with the
    tokens, liquidity and price of that state; and the cache it leaves still
    holds no zero address. *)
Theorem getPricesForPair_reads_listed_pools :
  forall (host : Host) (client : Chain) (poolCache : Cache) (tokenA tokenB : string),
    let r := getPricesForPair host client poolCache tokenA tokenB in
    (zero_free poolCache -> zero_free (snd r)) /\
    (List.length (fst r) <= 8)%nat /\
    forall q, In q (fst r) ->
      exists name address fee,
        In (address, name) factories /\ In fee Config.FEE_TIERS /\
        read_from host client name address fee q.
Proof.
  intros host client poolCache tokenA tokenB.
  apply getPricesForPair_quotes.
Qed.

Lemma getPricesForPair_reads_listed_pools_witness :
  let r := getPricesForPair host0 chain0 [] Config.WETH Config.USDC in
  zero_free [] /\ zero_free (snd r) /\
  exists q name address fee,
    In q (fst r) /\
    In (address, name) factories /\ In fee Config.FEE_TIERS /\
    read_from host0 chain0 name address fee q.
Proof.
  intros r.
  destruct (getPricesForPair_reads_listed_pools host0 chain0 [] Config.WETH Config.USDC)
    as (Hz & _ & Hq).
  assert (H0 : zero_free []) by (intros key value H; discriminate).
  split; [exact H0|]. split; [exact (Hz H0)|].
  fold r in Hq.
  destruct (fst r) as [|q l] eqn:E; [vm_compute in E; discriminate|].
  destruct (Hq q (or_introl eq_refl)) as (name & address & fee & H1 & H2 & H3).
  exists q, name, address, fee. split; [left; reflexivity|]. auto.
Defined.

Lemma fee_tier_not_negative fee :
  In fee Config.FEE_TIERS -> (0 <=? fee)%float = true.
Proof.
  intros [<-|[<-|[<-|[<-|[]]]]]; vm_compute; reflexivity.
Qed.

Lemma compare_with_length a later :
  (List.length (compare_with a later) <= List.length later)%nat.
Proof.
  induction later as [|b rest IH]; [apply Nat.le_refl|].
  rewrite compare_with_cons.
  destruct (0 <? _)%float; cbn [List.length]; lia.
Qed.

Lemma compare_all_length prices :
  (2 * List.length (compare_all prices) + List.length prices
   <= List.length prices * List.length prices)%nat.
Proof.
  induction prices as [|a later IH]; [apply Nat.le_refl|].
  cbn [compare_all]. rewrite length_app.
  pose proof (compare_with_length a later). cbn [List.length]. nia.
Qed.

(** X17.  One round of [monitorPair] reports the quotes of [getPricesForPair] and
    the opportunities among them: at most 28, each with a positive gross
    margin, a buy price strictly below its sell price, and pools on both
    sides that are not the zero address.  The fee tiers being the four
    configured ones, no assumption on the quotes is needed. *)
Theorem monitorPair_opportunities_are_sound :
  forall (host : Host) (client : Chain) (poolCache : Cache) (tokenA tokenB : string),
    let r := fst (monitorPair host client poolCache tokenA tokenB) in
    prices r = fst (getPricesForPair host client poolCache tokenA tokenB) /\
    opportunities r = findArbitrageOpportunities (prices r) /\
    (List.length (opportunities r) <= 28)%nat /\
    forall o, In o (opportunities r) ->
      (0 <? Opportunity.grossProfitPercent o)%float = true /\
      (Opportunity.buyPrice o <? Opportunity.sellPrice o)%float = true /\
      Opportunity.buyPool o <> Config.ZERO_ADDRESS /\
      Opportunity.sellPool o <> Config.ZERO_ADDRESS.
Proof.
  intros host client poolCache tokenA tokenB. cbn zeta. unfold monitorPair.
  destruct (getPricesForPair_quotes host client poolCache tokenA tokenB)
    as (_ & Hlen & Hq). cbn zeta in *.
  destruct (getPricesForPair host client poolCache tokenA tokenB) as [quotes cache'].
  cbn [fst snd prices opportunities] in *.
  split; [reflexivity|]. split; [reflexivity|]. split.
  - unfold findArbitrageOpportunities.
    rewrite (Permutation_length (sort_perm _ (compare_all quotes))).
    pose proof (compare_all_length quotes). nia.
  - intros o Hin. unfold findArbitrageOpportunities in Hin.
    apply sort_In, compare_all_In in Hin.
    destruct Hin as (i & j & a & b & Hij & Hi & Hj & -> & Hp).
    apply nth_error_In in Hi, Hj.
    destruct (Hq a Hi) as (na & fa & feea & _ & Hfa & Hza & _ & _ & Hfee_a & _).
    destruct (Hq b Hj) as (nb & fb & feeb & _ & Hfb & Hzb & _ & _ & Hfee_b & _).
    rewrite <- Hfee_a in Hfa. rewrite <- Hfee_b in Hfb.
    apply fee_tier_not_negative in Hfa, Hfb.
    split; [exact Hp|].
    split; [exact (profitable_buy_below_sell Hfa Hfb Hp)|].
    cbn [opportunity_of Opportunity.buyPool Opportunity.sellPool].
    destruct (PoolQuote.price a <? PoolQuote.price b)%float; auto.
Qed.

Lemma monitorPair_opportunities_are_sound_witness :
  let r := fst (monitorPair host0 chain0 [] Config.WETH Config.USDC) in
  exists o,
    In o (opportunities r) /\
    (0 <? Opportunity.grossProfitPercent o)%float = true /\
    (Opportunity.buyPrice o <? Opportunity.sellPrice o)%float = true /\
    Opportunity.buyPool o <> Config.ZERO_ADDRESS /\
    Opportunity.sellPool o <> Config.ZERO_ADDRESS.
Proof.
  intros r.
  destruct (monitorPair_opportunities_are_sound host0 chain0 [] Config.WETH Config.USDC)
    as (_ & _ & _ & H).
  fold r in H.
  destruct (opportunities r) as [|o l] eqn:E; [vm_compute in E; discriminate|].
  exists o. split; [left; reflexivity|].
  apply H. left. reflexivity.
Defined.

(** ** The detector's thresholds *)

Lemma or_number_truthy x d : truthy_number d = true -> truthy_number (or_number x d) = true.
Proof.
  intros Hd. destruct x as [v|]; [|exact Hd]. cbn [or_number].
  destruct (truthy_number v) eqn:E; [exact E | exact Hd].
Qed.

(** X18.  No threshold of the detector is ever zero or NaN: an option that is
    absent, zero or NaN gives way to the default, so a detector without a
    profit floor or with a zero slippage tolerance cannot be built; an
    option that is neither zero nor NaN is taken as given. *)
Theorem constructor_thresholds_are_never_zero :
  forall options : OpportunityDetector.Options,
    let this := OpportunityDetector.constructor options in
    (truthy_number (OpportunityDetector.minProfitUsd this) = true /\
     truthy_number (OpportunityDetector.maxSlippageBps this) = true /\
     truthy_number (OpportunityDetector.minProfitBps this) = true /\
     truthy_number (OpportunityDetector.maxFlashloanPercent this) = true /\
     truthy_number (OpportunityDetector.ethPriceUsd this) = true /\
     truthy_number (OpportunityDetector.baseFeeGwei this) = true) /\
    (forall v, OpportunityDetector.opt_minProfitUsd options = Some v ->
               OpportunityDetector.minProfitUsd this
               = if truthy_number v then v else Config.MIN_PROFIT_USD Config.SAFETY) /\
    (forall v, OpportunityDetector.opt_maxSlippageBps options = Some v ->
               OpportunityDetector.maxSlippageBps this
               = if truthy_number v then v else Config.MAX_SLIPPAGE_BPS Config.SAFETY) /\
    (forall v, OpportunityDetector.opt_minProfitBps options = Some v ->
               OpportunityDetector.minProfitBps this
               = if truthy_number v then v else Config.MIN_PROFIT_BPS Config.SAFETY) /\
    (forall v, OpportunityDetector.opt_maxFlashloanPercent options = Some v ->
               OpportunityDetector.maxFlashloanPercent this
               = if truthy_number v then v
                 else Config.MAX_FLASHLOAN_PERCENT Config.SAFETY).
Proof.
  intros options this. subst this. unfold OpportunityDetector.constructor.
  cbn [OpportunityDetector.minProfitUsd OpportunityDetector.maxSlippageBps
       OpportunityDetector.minProfitBps OpportunityDetector.maxFlashloanPercent
       OpportunityDetector.ethPriceUsd OpportunityDetector.baseFeeGwei].
  split; [|repeat split; intros v ->; reflexivity].
  repeat split; apply or_number_truthy; vm_compute; reflexivity.
Qed.

Lemma constructor_thresholds_are_never_zero_witness :
  let options :=
    {| OpportunityDetector.opt_minProfitUsd := Some 0%float;
       OpportunityDetector.opt_maxSlippageBps := Some 100%float;
       OpportunityDetector.opt_minProfitBps := Some nan;
       OpportunityDetector.opt_maxFlashloanPercent := None;
       OpportunityDetector.opt_ethPriceUsd := None;
       OpportunityDetector.opt_baseFeeGwei := None |} in
  let this := OpportunityDetector.constructor options in
  OpportunityDetector.minProfitUsd this = 0.5%float /\
  OpportunityDetector.maxSlippageBps this = 100%float /\
  OpportunityDetector.minProfitBps this = 10%float.
Proof.
  intros options this.
  destruct (constructor_thresholds_are_never_zero options) as (_ & H1 & H2 & H3 & _).
  split; [exact (H1 _ eq_refl)|]. split; [exact (H2 _ eq_refl) | exact (H3 _ eq_refl)].
Defined.

(** ** The controller *)

Lemma getPoolState_liquidity client poolAddress state :
  getPoolState client poolAddress = Some state ->
  read_liquidity client poolAddress = Some (st_liquidity state).
Proof.
  unfold getPoolState.
  destruct (read_slot0 client poolAddress); [|discriminate].
  destruct (read_liquidity client poolAddress); [|discriminate].
  destruct (read_token0 client poolAddress); [|discriminate].
  destruct (read_token1 client poolAddress); [|discriminate].
  destruct (read_fee client poolAddress); [|discriminate].
  intros [= <-]. reflexivity.
Qed.

(** On a chain all of whose pools hold at least 200 units, so do both sides
    of every opportunity [monitorPair] reports. *)

Lemma monitorPair_liquidity host client poolCache tokenA tokenB :
  (forall poolAddress l, read_liquidity client poolAddress = Some l -> (200 <= l)%Z) ->
  forall o,
    In o (opportunities (fst (monitorPair host client poolCache tokenA tokenB))) ->
    exists buyLiquidity sellLiquidity,
      BigInt (Opportunity.buyLiquidity o) = Some buyLiquidity /\
      BigInt (Opportunity.sellLiquidity o) = Some sellLiquidity /\
      (200 <= buyLiquidity)%Z /\ (200 <= sellLiquidity)%Z.
Proof.
  intros Hliq o. unfold monitorPair.
  destruct (getPricesForPair_quotes host client poolCache tokenA tokenB)
    as (_ & _ & Hq). cbn zeta in *.
  destruct (getPricesForPair host client poolCache tokenA tokenB) as [quotes cache'].
  cbn [fst snd prices opportunities] in *.
  intros Hin. unfold findArbitrageOpportunities in Hin.
  apply sort_In, compare_all_In in Hin.
  destruct Hin as (i & j & a & b & _ & Hi & Hj & -> & _).
  apply nth_error_In in Hi, Hj.
  assert (Hone : forall q, In q quotes ->
            exists l, BigInt (PoolQuote.liquidity q) = Some l /\ (200 <= l)%Z).
  { intros q Hin. destruct (Hq q Hin) as (n & f & fee & _ & _ & _ & _ & _ & _ & state
                                            & Hs & _ & _ & Hl & _).
    exists (st_liquidity state). rewrite Hl. split; [apply BigInt_toString_roundtrip|].
    eapply Hliq, getPoolState_liquidity, Hs. }
  destruct (Hone a Hi) as (la & Ha & Hla). destruct (Hone b Hj) as (lb & Hb & Hlb).
  cbn [opportunity_of Opportunity.buyLiquidity Opportunity.sellLiquidity].
  destruct (PoolQuote.price a <? PoolQuote.price b)%float; eauto 10.
Qed.

Lemma evaluate_each_none_viable builds this opps :
  (forall o, In o opps ->
     exists ev, OpportunityDetector.evaluate (MaggieBot.opportunityDetector this) o = Some ev /\
                OpportunityDetector.shouldExecute ev = false) ->
  forall stats, MaggieBot.evaluate_each builds this opps stats = stats.
Proof.
  induction opps as [|o rest IH]; intros H stats; [reflexivity|].
  cbn [MaggieBot.evaluate_each].
  destruct (H o (or_introl eq_refl)) as (ev & -> & ->).
  apply IH. intros o' Ho'. apply H. right. exact Ho'.
Qed.

Lemma monitor_and_evaluate_none_viable host client builds this pair :
  OpportunityDetector.maxSlippageBps (MaggieBot.opportunityDetector this)
    = Config.MAX_SLIPPAGE_BPS Config.SAFETY ->
  OpportunityDetector.maxFlashloanPercent (MaggieBot.opportunityDetector this)
    = Config.MAX_FLASHLOAN_PERCENT Config.SAFETY ->
  (forall poolAddress l, read_liquidity client poolAddress = Some l -> (200 <= l)%Z) ->
  let this' := MaggieBot.monitor_and_evaluate host client builds this pair in
  MaggieBot.opportunityDetector this' = MaggieBot.opportunityDetector this /\
  MaggieBot.cyclesCompleted (MaggieBot.stats this')
    = MaggieBot.cyclesCompleted (MaggieBot.stats this) /\
  MaggieBot.viableOpportunities (MaggieBot.stats this')
    = MaggieBot.viableOpportunities (MaggieBot.stats this) /\
  MaggieBot.executedTrades (MaggieBot.stats this')
    = MaggieBot.executedTrades (MaggieBot.stats this) /\
  MaggieBot.totalProfit (MaggieBot.stats this')
    = MaggieBot.totalProfit (MaggieBot.stats this).
Proof.
  intros Hmax Hpct Hliq. cbn zeta. unfold MaggieBot.monitor_and_evaluate.
  destruct pair as [[token0 token1] name].
  pose proof (@monitorPair_liquidity host client (MaggieBot.poolCache this) token0 token1
                Hliq) as Hop.
  destruct (monitorPair host client (MaggieBot.poolCache this) token0 token1)
    as [monitored cache'].
  cbn [fst] in Hop.
  destruct (PrimFloat.eqb _ 0); cbn [MaggieBot.opportunityDetector MaggieBot.stats];
    [repeat split|].
  rewrite evaluate_each_none_viable; [repeat split|].
  intros o Hin. destruct (Hop o Hin) as (bl & sl & Hb & Hs & Hbl & Hsl).
  destruct (@evaluate_default_thresholds (MaggieBot.opportunityDetector this) o bl sl
              Hmax Hpct Hb Hs Hbl Hsl) as (ev & E & F & _).
  exists ev. auto.
Qed.

(** X19.  A bot built without a slippage tolerance of its own, as the command
    line builds it, runs with the default thresholds; and on a chain all of
    whose pools hold at least 200 units of liquidity, a cycle of a bot with
    these thresholds never counts a viable opportunity, never counts a
    simulated trade or profit and never reaches the transaction builder: it
    completes, adds one to the cycle counter, and leaves the detector and the
    three counters as they were. *)
Theorem runCycle_with_default_thresholds_finds_nothing_viable :
  (forall options,
      MaggieBot.opt_maxSlippageBps options = None ->
      let this := MaggieBot.constructor options in
      OpportunityDetector.maxSlippageBps (MaggieBot.opportunityDetector this)
        = Config.MAX_SLIPPAGE_BPS Config.SAFETY /\
      OpportunityDetector.maxFlashloanPercent (MaggieBot.opportunityDetector this)
        = Config.MAX_FLASHLOAN_PERCENT Config.SAFETY) /\
  (forall host_at client builds this,
      OpportunityDetector.maxSlippageBps (MaggieBot.opportunityDetector this)
        = Config.MAX_SLIPPAGE_BPS Config.SAFETY ->
      OpportunityDetector.maxFlashloanPercent (MaggieBot.opportunityDetector this)
        = Config.MAX_FLASHLOAN_PERCENT Config.SAFETY ->
      (forall poolAddress l, read_liquidity client poolAddress = Some l -> (200 <= l)%Z) ->
      let this' := MaggieBot.runCycle host_at client builds this in
      MaggieBot.opportunityDetector this' = MaggieBot.opportunityDetector this /\
      MaggieBot.cyclesCompleted (MaggieBot.stats this')
        = (MaggieBot.cyclesCompleted (MaggieBot.stats this) + 1)%float /\
      MaggieBot.viableOpportunities (MaggieBot.stats this')
        = MaggieBot.viableOpportunities (MaggieBot.stats this) /\
      MaggieBot.executedTrades (MaggieBot.stats this')
        = MaggieBot.executedTrades (MaggieBot.stats this) /\
      MaggieBot.totalProfit (MaggieBot.stats this')
        = MaggieBot.totalProfit (MaggieBot.stats this)).
Proof.
  split.
  - intros options Hopt this. subst this. unfold MaggieBot.constructor.
    cbn [MaggieBot.opportunityDetector]. rewrite Hopt. split; reflexivity.
  - intros host_at client builds this Hmax Hpct Hliq. cbn zeta.
    unfold MaggieBot.runCycle.
    cbn [MaggieBot.opportunityDetector MaggieBot.stats MaggieBot.cyclesCompleted
         MaggieBot.viableOpportunities MaggieBot.executedTrades MaggieBot.totalProfit].
    assert (Hfold : forall pairs acc,
              OpportunityDetector.maxSlippageBps (MaggieBot.opportunityDetector (fst acc))
                = Config.MAX_SLIPPAGE_BPS Config.SAFETY ->
              OpportunityDetector.maxFlashloanPercent
                (MaggieBot.opportunityDetector (fst acc))
                = Config.MAX_FLASHLOAN_PERCENT Config.SAFETY ->
              let r := fst (fold_left
                              (fun (acc : MaggieBot.t * nat) pair =>
                                 (MaggieBot.monitor_and_evaluate (host_at (snd acc)) client
                                    builds (fst acc) pair, S (snd acc)))
                              pairs acc) in
              MaggieBot.opportunityDetector r = MaggieBot.opportunityDetector (fst acc) /\
              MaggieBot.cyclesCompleted (MaggieBot.stats r)
                = MaggieBot.cyclesCompleted (MaggieBot.stats (fst acc)) /\
              MaggieBot.viableOpportunities (MaggieBot.stats r)
                = MaggieBot.viableOpportunities (MaggieBot.stats (fst acc)) /\
              MaggieBot.executedTrades (MaggieBot.stats r)
                = MaggieBot.executedTrades (MaggieBot.stats (fst acc)) /\
              MaggieBot.totalProfit (MaggieBot.stats r)
                = MaggieBot.totalProfit (MaggieBot.stats (fst acc))).
    { induction pairs as [|pair pairs IH]; intros acc H1 H2; cbn zeta.
      - cbn [fold_left]. repeat split.
      - cbn [fold_left].
        destruct (@monitor_and_evaluate_none_viable (host_at (snd acc)) client builds
                    (fst acc) pair H1 H2 Hliq) as (D & C & V & E & T).
        match goal with
        | |- context [fold_left _ pairs ?a] =>
            specialize (IH a); cbn [fst snd] in IH;
            rewrite D in IH; specialize (IH H1 H2); cbn zeta in IH;
            destruct IH as (D' & C' & V' & E' & T')
        end.
        rewrite D', C', V', E', T'. auto. }
    destruct (Hfold Config.MONITORED_PAIRS (this, O) Hmax Hpct) as (D & C & V & E & T).
    cbn [fst] in *. rewrite D, C, V, E, T. repeat split.
Qed.

Lemma runCycle_with_default_thresholds_finds_nothing_viable_witness :
  let this' := MaggieBot.runCycle (fun _ => host0) chain0 builds0 bot0 in
  MaggieBot.opportunitiesFound (MaggieBot.stats this') = 3%float /\
  MaggieBot.cyclesCompleted (MaggieBot.stats this') = 1%float /\
  MaggieBot.viableOpportunities (MaggieBot.stats this') = 0%float /\
  MaggieBot.executedTrades (MaggieBot.stats this') = 0%float /\
  MaggieBot.totalProfit (MaggieBot.stats this') = 0%float.
Proof.
  intros this'.
  destruct runCycle_with_default_thresholds_finds_nothing_viable as [H1 H2].
  destruct (H1 _ (eq_refl : MaggieBot.opt_maxSlippageBps
                              {| MaggieBot.opt_useAnvil := Some false;
                                 MaggieBot.opt_executorAddress := None;
                                 MaggieBot.opt_dryRun := Some true;
                                 MaggieBot.opt_minProfitUsd := None;
                                 MaggieBot.opt_maxSlippageBps := None;
                                 MaggieBot.opt_ethPriceUsd := None |} = None))
    as [Hmax Hpct].
  assert (Hliq : forall poolAddress l,
             read_liquidity chain0 poolAddress = Some l -> (200 <= l)%Z).
  { intros poolAddress l. cbn [read_liquidity chain0].
    destruct (String.eqb poolAddress "0xA"); intros [= <-]; lia. }
  destruct (H2 (fun _ => host0) chain0 builds0 bot0 Hmax Hpct Hliq)
    as (_ & C & V & E & T).
  split; [vm_compute; reflexivity|].
  split; [exact C|]. split; [exact V|]. split; [exact E | exact T].
Defined.

End BotMore.
